(** * Lab-report bulk-text parser of MediKeep (TestComponentBulkEntry.tsx)

    A shallow embedding of [parseText] and [enrichWithStandardizedTests]
    together with the part of JavaScript they run on: strings of UTF-16 code
    units, the backtracking regular-expression matcher with capture groups,
    [parseFloat] and IEEE-754 binary64 numbers. *)

From Stdlib Require Import String Ascii.
From Stdlib Require Import List NArith ZArith Bool Lia.
From Stdlib Require Import Floats.SpecFloat.
Import ListNotations.

Set Implicit Arguments.
Local Open Scope N_scope.

(** ** JavaScript strings *)

(** A JavaScript string is a sequence of UTF-16 code units. *)
Definition char16 := N.
Definition jsstring := list char16.

(** ASCII literals of the source, as code units. *)
Fixpoint str (s : string) : jsstring :=
  match s with
  | EmptyString => []
  | String a s' => N_of_ascii a :: str s'
  end.

Definition jsstring_eqb (a b : jsstring) : bool :=
  if list_eq_dec N.eq_dec a b then true else false.

Definition in_range (lo hi c : char16) : bool := ((lo <=? c) && (c <=? hi))%N.

(** ECMAScript LineTerminator: LF, CR, LS, PS. *)
Definition isLineTerminator (c : char16) : bool :=
  ((c =? 10) || (c =? 13) || (c =? 0x2028) || (c =? 0x2029))%N.

(** ECMAScript WhiteSpace and LineTerminator, the set of [\s] and of [trim]. *)
Definition isWhiteSpace (c : char16) : bool :=
  (in_range 9 13 c || (c =? 32) || (c =? 0xA0) || (c =? 0x1680)
   || in_range 0x2000 0x200A c || (c =? 0x2028) || (c =? 0x2029)
   || (c =? 0x202F) || (c =? 0x205F) || (c =? 0x3000) || (c =? 0xFEFF))%N.

Definition isDigit (c : char16) : bool := in_range 48 57 c.
Definition isUpper (c : char16) : bool := in_range 65 90 c.
Definition isLower (c : char16) : bool := in_range 97 122 c.

(** [\w], used by [\b]. *)
Definition isWordChar (c : char16) : bool :=
  (isLower c || isUpper c || isDigit c || (c =? 95))%N.

Fixpoint dropWhile (p : char16 -> bool) (s : jsstring) : jsstring :=
  match s with
  | [] => []
  | c :: t => if p c then dropWhile p t else s
  end.

(** [String.prototype.trimStart] and [String.prototype.trim]. *)
Definition trimStart (s : jsstring) : jsstring := dropWhile isWhiteSpace s.
Definition trim (s : jsstring) : jsstring :=
  rev (dropWhile isWhiteSpace (rev (dropWhile isWhiteSpace s))).

(** [String.prototype.toLowerCase].  ASCII letters are mapped as usual.  The
    only other code units whose lower-case form contains an ASCII letter are
    U+212A (Kelvin sign, to k) and U+0130 (to i followed by U+0307); every
    other code unit is left as it is, which changes nothing for the program:
    it only compares lower-cased text with ASCII keywords. *)
Definition toLowerCase1 (c : char16) : jsstring :=
  if isUpper c then [(c + 32)%N]
  else if (c =? 0x212A)%N then [107%N]
  else if (c =? 0x0130)%N then [105%N; 0x0307%N]
  else [c].

Definition toLowerCase (s : jsstring) : jsstring := flat_map toLowerCase1 s.

Fixpoint startsWith (s p : jsstring) : bool :=
  match p, s with
  | [], _ => true
  | a :: p', b :: s' => (a =? b)%N && startsWith s' p'
  | _ :: _, [] => false
  end.

(** [String.prototype.includes]. *)
Fixpoint includes (s p : jsstring) : bool :=
  startsWith s p ||
  match s with
  | [] => false
  | _ :: t => includes t p
  end.

(** [text.split('\n')]. *)
Fixpoint split_lines (s : jsstring) : list jsstring :=
  match s with
  | [] => [[]]
  | c :: t =>
      if (c =? 10)%N then [] :: split_lines t
      else match split_lines t with
           | l :: ls => (c :: l) :: ls
           | [] => [[c]]
           end
  end.

(** Truthiness of a possibly undefined string. *)
Definition truthy (o : option jsstring) : bool :=
  match o with
  | Some (_ :: _) => true
  | _ => false
  end.

(** ** Regular expressions *)

Module RegExp.

(** Members of a character class. *)
Inductive citem :=
| CChar (c : char16)
| CRange (lo hi : char16)
| CSpace                          (* \s *)
| CDigit.                         (* \d *)

Inductive cset :=
| Dot                             (* .  *)
| Class (neg : bool) (items : list citem).

(** The constructs the repository's patterns are written with.  Quantifiers
    [*] and [+] only ever apply to a character set there; [?] applies to
    groups as well. *)
Inductive regex :=
| Empty
| Chars (cs : cset)
| Seq (r1 r2 : regex)
| Alt (r1 r2 : regex)
| Group (n : nat) (r : regex)     (* capturing parentheses number n *)
| Opt (r : regex)                 (* r?  (greedy) *)
| Star (greedy : bool) (cs : cset)
| Plus (greedy : bool) (cs : cset)
| Bol                             (* ^ *)
| Eol                             (* $ *)
| WordBoundary.                   (* \b *)

Definition chr (c : char16) : regex := Chars (Class false [CChar c]).

Fixpoint lit (s : jsstring) : regex :=
  match s with
  | [] => Empty
  | [c] => chr c
  | c :: t => Seq (chr c) (lit t)
  end.

Fixpoint seq (rs : list regex) : regex :=
  match rs with
  | [] => Empty
  | [r] => r
  | r :: t => Seq r (seq t)
  end.

Fixpoint alt (rs : list regex) : regex :=
  match rs with
  | [] => Empty
  | [r] => r
  | r :: t => Alt r (alt t)
  end.

(** Case folding of the [i] flag (Canonicalize without the [u] flag is
    [toUpperCase] restricted to single code units, and never maps a code unit
    above 127 to ASCII).  [case_variants c] lists the code units that
    canonicalize like [c].  It is exact on ASCII and on the three forms of mu
    (U+00B5, U+039C, U+03BC); those are the only code units that can meet a
    character written in one of the patterns below. *)
Definition case_variants (c : char16) : list char16 :=
  if isLower c then [c; (c - 32)%N]
  else if isUpper c then [c; (c + 32)%N]
  else if ((c =? 0xB5) || (c =? 0x39C) || (c =? 0x3BC))%N then [0xB5; 0x39C; 0x3BC]%N
  else [c].

Definition citem_mem (i : citem) (c : char16) : bool :=
  match i with
  | CChar a => (c =? a)%N
  | CRange lo hi => in_range lo hi c
  | CSpace => isWhiteSpace c
  | CDigit => isDigit c
  end.

(** CharacterSetMatcher. *)
Definition cset_match (ignoreCase : bool) (cs : cset) (c : char16) : bool :=
  match cs with
  | Dot => negb (isLineTerminator c)
  | Class neg items =>
      let cands := if ignoreCase then case_variants c else [c] in
      xorb neg (existsb (fun x => existsb (fun i => citem_mem i x) items) cands)
  end.

(** Captures: group number to captured substring; the latest binding is in
    front, an absent number is [undefined]. *)
Definition captures := list (nat * jsstring).

Fixpoint cap (n : nat) (c : captures) : option jsstring :=
  match c with
  | [] => None
  | (m, v) :: t => if Nat.eqb n m then Some v else cap n t
  end.

Definition clear_caps (ns : list nat) (c : captures) : captures :=
  filter (fun p => negb (existsb (Nat.eqb (fst p)) ns)) c.

Fixpoint groups_of (r : regex) : list nat :=
  match r with
  | Seq a b | Alt a b => groups_of a ++ groups_of b
  | Group n a => n :: groups_of a
  | Opt a => groups_of a
  | _ => []
  end.

(** Matcher state: the input to the left of the current position (nearest
    code unit first), the input to its right, and the captures so far. *)
Record mstate := MState {
  done : jsstring;
  rest : jsstring;
  caps : captures
}.

Definition position (st : mstate) : nat := length (done st).

(** The text consumed between two states of one run. *)
Definition consumed (st st' : mstate) : jsstring :=
  rev (firstn (position st' - position st)%nat (done st')).

Section Matcher.
Variable ignoreCase : bool.
Variable A : Type.

(** [cs*] and [cs*?]: RepeatMatcher on a one-code-unit atom. *)
Fixpoint repeat_set (greedy : bool) (cs : cset) (d r : jsstring)
         (k : jsstring -> jsstring -> option A) : option A :=
  match r with
  | c :: t =>
      if cset_match ignoreCase cs c then
        if greedy then
          match repeat_set greedy cs (c :: d) t k with
          | Some a => Some a
          | None => k d r
          end
        else
          match k d r with
          | Some a => Some a
          | None => repeat_set greedy cs (c :: d) t k
          end
      else k d r
  | [] => k d r
  end.

(** The backtracking matcher in continuation-passing style: [k] is the
    rest of the pattern; the first successful path wins. *)
Fixpoint rmatch (r : regex) (st : mstate) (k : mstate -> option A) : option A :=
  match r with
  | Empty => k st
  | Chars cs =>
      match rest st with
      | c :: t =>
          if cset_match ignoreCase cs c
          then k (MState (c :: done st) t (caps st))
          else None
      | [] => None
      end
  | Seq r1 r2 => rmatch r1 st (fun st' => rmatch r2 st' k)
  | Alt r1 r2 =>
      match rmatch r1 st k with
      | Some a => Some a
      | None => rmatch r2 st k
      end
  | Group n r1 =>
      rmatch r1 st (fun st' =>
        k (MState (done st') (rest st') ((n, consumed st st') :: caps st')))
  | Opt r1 =>
      let st0 := MState (done st) (rest st) (clear_caps (groups_of r1) (caps st)) in
      match rmatch r1 st0 (fun st' =>
              if Nat.eqb (position st') (position st) then None else k st') with
      | Some a => Some a
      | None => k st
      end
  | Star greedy cs =>
      repeat_set greedy cs (done st) (rest st)
                 (fun d r => k (MState d r (caps st)))
  | Plus greedy cs =>
      match rest st with
      | c :: t =>
          if cset_match ignoreCase cs c
          then repeat_set greedy cs (c :: done st) t
                          (fun d r => k (MState d r (caps st)))
          else None
      | [] => None
      end
  | Bol => match done st with [] => k st | _ :: _ => None end
  | Eol => match rest st with [] => k st | _ :: _ => None end
  | WordBoundary =>
      let a := match done st with c :: _ => isWordChar c | [] => false end in
      let b := match rest st with c :: _ => isWordChar c | [] => false end in
      if xorb a b then k st else None
  end.
End Matcher.

(** The result array of a successful match: [index], element 0 and the
    numbered groups. *)
Record match_result := MatchResult {
  index : nat;
  matched : jsstring;
  groups : captures;
  endIndex : nat
}.

(** [m[n]] for n >= 1. *)
Definition group (n : nat) (m : match_result) : option jsstring := cap n (groups m).

(** A RegExp object: its pattern and flags.  The mutable [lastIndex] slot is
    kept apart (see [RegExpBuiltinExec]). *)
Record RegExpObject := {
  source : regex;
  ignoreCase : bool;
  global : bool;
  sticky : bool
}.

Definition match_at (R : RegExpObject) (d r : jsstring) : option match_result :=
  rmatch (ignoreCase R) (source R) (MState d r [])
         (fun st => Some (MatchResult (length d)
                                      (consumed (MState d r []) st)
                                      (caps st) (position st))).

(** Try every start position from the current one on, leftmost first. *)
Fixpoint search (R : RegExpObject) (d r : jsstring) : option match_result :=
  match match_at R d r with
  | Some m => Some m
  | None =>
      match r with
      | c :: t => search R (c :: d) t
      | [] => None
      end
  end.

(** RegExpBuiltinExec: [lastIndex] is read and written only under the [g] or
    [y] flag.  Returns the match and the new [lastIndex]. *)
Definition RegExpBuiltinExec (R : RegExpObject) (lastIndex : nat) (S : jsstring)
  : option match_result * nat :=
  let uses := global R || sticky R in
  let i := if uses then lastIndex else 0%nat in
  if Nat.ltb (length S) i then (None, if uses then 0%nat else lastIndex)
  else
    let d := rev (firstn i S) in
    let r := skipn i S in
    match (if sticky R then match_at R d r else search R d r) with
    | Some m => (Some m, if uses then endIndex m else lastIndex)
    | None => (None, if uses then 0%nat else lastIndex)
    end.

(** [S.match(R)] for a RegExp without the [g] flag, on a fresh or untouched
    object ([lastIndex] 0). *)
Definition exec (R : RegExpObject) (S : jsstring) : option match_result :=
  fst (RegExpBuiltinExec R 0%nat S).

(** [S.replace(R, '')] for a RegExp without the [g] flag: the first match is
    cut out. *)
Definition remove_first (R : RegExpObject) (S : jsstring) : jsstring :=
  match exec R S with
  | Some m => firstn (index m) S ++ skipn (endIndex m) S
  | None => S
  end.

(** [S.replace(/[...]/g, '')] for a one-code-unit class: every member goes. *)
Definition remove_all (cs : cset) (S : jsstring) : jsstring :=
  filter (fun c => negb (cset_match false cs c)) S.

Definition regexp (r : regex) (i : bool) : RegExpObject :=
  {| source := r; ignoreCase := i; global := false; sticky := false |}.

End RegExp.

(** ** Numbers *)

(** A JavaScript number is an IEEE-754 binary64 value; the arithmetic is the
    specification of the Standard Library ([SpecFloat]) at precision 53 and
    maximal exponent 1024, rounding to nearest, ties to even. *)
Definition number := spec_float.
Definition prec : Z := 53%Z.
Definition emax : Z := 1024%Z.

Definition isNaN (x : number) : bool :=
  match x with
  | S754_nan => true
  | _ => false
  end.

Definition num_add : number -> number -> number := SFadd prec emax.
Definition num_sub : number -> number -> number := SFsub prec emax.
Definition num_mul : number -> number -> number := SFmul prec emax.
Definition num_lt : number -> number -> bool := SFltb.
Definition num_le : number -> number -> bool := SFleb.
Definition num_gt (a b : number) : bool := num_lt b a.

(** The Number value for [m * 10^e]. *)
Definition decimal (m : N) (e : Z) : number :=
  match m with
  | N0 => S754_zero false
  | Npos p =>
      match e with
      | Zneg k =>
          let '(q, e', l) :=
            SFdiv_core_binary prec emax (Zpos p) 0%Z (Z.pow 10 (Zpos k)) 0%Z in
          binary_round_aux prec emax false q e' l
      | _ => binary_normalize prec emax (Zpos p * Z.pow 10 e)%Z 0%Z false
      end
  end.

(** An array length as a number. *)
Definition of_nat (n : nat) : number :=
  binary_normalize prec emax (Z.of_nat n) 0%Z false.

(** [Math.max] and [Math.min]. *)
Definition Math_max (a b : number) : number :=
  match SFcompare a b with
  | None => S754_nan
  | Some Lt => b
  | Some Gt => a
  | Some Eq =>
      match a, b with
      | S754_zero sa, S754_zero sb => S754_zero (sa && sb)
      | _, _ => a
      end
  end.

Definition Math_min (a b : number) : number :=
  match SFcompare a b with
  | None => S754_nan
  | Some Lt => a
  | Some Gt => b
  | Some Eq =>
      match a, b with
      | S754_zero sa, S754_zero sb => S754_zero (sa || sb)
      | _, _ => a
      end
  end.

(** Falsiness of a possibly undefined number: undefined, 0, -0 and NaN. *)
Definition falsy_num (o : option number) : bool :=
  match o with
  | None => true
  | Some (S754_zero _) => true
  | Some S754_nan => true
  | Some _ => false
  end.

Fixpoint span_digits (s : jsstring) : jsstring * jsstring :=
  match s with
  | c :: t =>
      if isDigit c then let (ds, r) := span_digits t in (c :: ds, r)
      else ([], s)
  | [] => ([], [])
  end.

Definition digits_value (ds : jsstring) : N :=
  fold_left (fun a c => a * 10 + (c - 48)) ds 0.

(** ExponentPart, when one is complete at the head of [s]; 0 otherwise. *)
Definition exponent_part (s : jsstring) : Z :=
  match s with
  | c :: t =>
      if (c =? 101) || (c =? 69) then
        match t with
        | sg :: u =>
            if sg =? 45 then
              match fst (span_digits u) with
              | [] => 0%Z
              | ds => (- Z.of_N (digits_value ds))%Z
              end
            else
              match fst (span_digits (if sg =? 43 then u else t)) with
              | [] => 0%Z
              | ds => Z.of_N (digits_value ds)
              end
        | [] => 0%Z
        end
      else 0%Z
  | [] => 0%Z
  end.

(** The longest prefix that is a StrUnsignedDecimalLiteral, as a number. *)
Definition StrUnsignedDecimalLiteral (s : jsstring) : number :=
  if startsWith s (str "Infinity") then S754_infinity false
  else
    let (ip, r1) := span_digits s in
    match r1 with
    | c :: t =>
        if c =? 46 then
          let (fp, r2) := span_digits t in
          match ip, fp with
          | [], [] => S754_nan
          | _, _ => decimal (digits_value (ip ++ fp))
                            (exponent_part r2 - Z.of_nat (length fp))%Z
          end
        else
          match ip with
          | [] => S754_nan
          | _ => decimal (digits_value ip) (exponent_part r1)
          end
    | [] =>
        match ip with
        | [] => S754_nan
        | _ => decimal (digits_value ip) 0%Z
        end
    end.

(** [parseFloat]: leading white space is skipped, then an optional sign and
    the longest prefix that reads as a decimal literal; NaN when there is
    none. *)
Definition parseFloat (s : jsstring) : number :=
  match trimStart s with
  | c :: t =>
      if c =? 45 then SFopp (StrUnsignedDecimalLiteral t)
      else if c =? 43 then StrUnsignedDecimalLiteral t
      else StrUnsignedDecimalLiteral (c :: t)
  | [] => S754_nan
  end.

(** ** The pattern table *)

Import RegExp.

Definition ch (a : ascii) : char16 := N_of_ascii a.

Definition alnum_items : list citem :=
  [CRange (ch "a") (ch "z"); CRange (ch "A") (ch "Z"); CRange (ch "0") (ch "9")].

(** [[a-zA-Z0-9/%μ]+(?:/[a-zA-Z0-9]+)?|x10E\d+/[a-zA-Z]+]; the mu of the
    source is U+03BC. *)
Definition UNIT_PATTERN : regex :=
  Alt (Seq (Plus true (Class false (alnum_items ++ [CChar (ch "/"); CChar (ch "%"); CChar 0x3BC%N])))
           (Opt (Seq (chr (ch "/")) (Plus true (Class false alnum_items)))))
      (seq [lit (str "x10E"); Plus true (Class false [CDigit]); chr (ch "/");
            Plus true (Class false [CRange (ch "a") (ch "z"); CRange (ch "A") (ch "Z")])]).

(** [[0-9.,]] *)
Definition numeric_chars : cset :=
  Class false [CRange (ch "0") (ch "9"); CChar (ch "."); CChar (ch ",")].

(** [(.+?)], always group 1. *)
Definition TEST_NAME : regex := Group 1 (Plus false Dot).
(** [([0-9.,]+)] as group [n]. *)
Definition NUMERIC_VALUE (n : nat) : regex := Group n (Plus true numeric_chars).
Definition ONE_OR_MORE_SPACES : regex := Plus true (Class false [CSpace]).
Definition ZERO_OR_MORE_SPACES : regex := Star true (Class false [CSpace]).
(** [[-–]], hyphen or en dash (U+2013). *)
Definition RANGE_SEPARATOR : regex := Chars (Class false [CChar (ch "-"); CChar 0x2013%N]).
(** [[<>≤≥]] (U+2264, U+2265). *)
Definition comparison_ops : cset :=
  Class false [CChar (ch "<"); CChar (ch ">"); CChar 0x2264%N; CChar 0x2265%N].
Definition COMPARISON_OP : regex := Chars comparison_ops.

Definition status_words : list regex :=
  [lit (str "normal"); lit (str "high"); lit (str "low"); lit (str "critical");
   lit (str "abnormal"); lit (str "borderline")].

(** [(normal|high|low|critical|abnormal|borderline)?] as group [n]. *)
Definition STATUS_VALUES (n : nat) : regex := Opt (Group n (alt status_words)).

(** [(COMPARISON_OP\s*[0-9.,]+)] as group [n]. *)
Definition comparison_group (n : nat) : regex :=
  Group n (seq [COMPARISON_OP; ZERO_OR_MORE_SPACES; Plus true numeric_chars]).

Module REGEX_PATTERNS.

(** Pattern 1: "Test Name: 123.4 mg/dL (Normal range: 70-100)". *)
Definition FULL_PATTERN : RegExpObject :=
  regexp
    (seq [Bol; TEST_NAME; chr (ch ":"); ZERO_OR_MORE_SPACES; NUMERIC_VALUE 2;
          ZERO_OR_MORE_SPACES; Opt (Group 3 UNIT_PATTERN); ZERO_OR_MORE_SPACES;
          Opt (alt
            [seq [chr (ch "(");
                  Opt (seq [Star false Dot; lit (str "range"); Star false Dot;
                            chr (ch ":"); ZERO_OR_MORE_SPACES]);
                  NUMERIC_VALUE 4; ZERO_OR_MORE_SPACES; RANGE_SEPARATOR;
                  ZERO_OR_MORE_SPACES; NUMERIC_VALUE 5; Star false Dot; chr (ch ")")];
             seq [chr (ch "("); comparison_group 6; chr (ch ")")];
             seq [chr (ch "("); lit (str "Not"); ONE_OR_MORE_SPACES; lit (str "Estab");
                  Opt (chr (ch ".")); chr (ch ")")];
             Group 7 (seq [chr (ch "("); Star true (Class true [CChar (ch ")")]);
                           chr (ch ")")])])])
    true.

(** Pattern 2: "Glucose    123.4    mg/dL    70-100    Normal". *)
Definition TABULAR_PATTERN : RegExpObject :=
  regexp
    (seq [Bol; TEST_NAME; ONE_OR_MORE_SPACES; NUMERIC_VALUE 2; ONE_OR_MORE_SPACES;
          Group 3 UNIT_PATTERN; ONE_OR_MORE_SPACES;
          Alt (seq [NUMERIC_VALUE 4; ZERO_OR_MORE_SPACES; RANGE_SEPARATOR;
                    ZERO_OR_MORE_SPACES; NUMERIC_VALUE 5])
              (comparison_group 6);
          ZERO_OR_MORE_SPACES; STATUS_VALUES 7])
    true.

(** Pattern 3: "Test Name  Value  Unit". *)
Definition SIMPLE_PATTERN : RegExpObject :=
  regexp
    (seq [Bol; TEST_NAME; ONE_OR_MORE_SPACES; NUMERIC_VALUE 2; ONE_OR_MORE_SPACES;
          Group 3 UNIT_PATTERN])
    true.

(** Pattern 4: CSV-like "Test,Value,Unit,Range,Status". *)
Definition CSV_PATTERN : RegExpObject :=
  let sep := Plus true (Class false [CChar (ch ","); CChar 9%N]) in
  let field n := Group n (Star false (Class true [CChar (ch ","); CChar 9%N])) in
  regexp
    (seq [Bol; TEST_NAME; sep; NUMERIC_VALUE 2; sep; Group 3 UNIT_PATTERN;
          Opt (Seq sep (field 4%nat)); Opt (Seq sep (field 5%nat)); Eol])
    true.

End REGEX_PATTERNS.

(** The regular-expression literals inside [parseText]. *)

(** [/[,;:]+$/] *)
Definition trailing_punctuation : RegExpObject :=
  regexp (Seq (Plus true (Class false [CChar (ch ","); CChar (ch ";"); CChar (ch ":")])) Eol)
         false.
(** [/,/g] *)
Definition commas : cset := Class false [CChar (ch ",")].
(** [/[()]/g] *)
Definition parentheses : cset := Class false [CChar (ch "("); CChar (ch ")")].
(** [/^([<>≤≥])\s*([0-9.,]+)$/] *)
Definition comparison_regexp : RegExpObject :=
  regexp (seq [Bol; Group 1 COMPARISON_OP; ZERO_OR_MORE_SPACES; NUMERIC_VALUE 2; Eol])
         false.
(** [/\(Not\s+Estab\.?\)/i] *)
Definition not_estab_regexp : RegExpObject :=
  regexp (seq [chr (ch "("); lit (str "Not"); ONE_OR_MORE_SPACES; lit (str "Estab");
               Opt (chr (ch ".")); chr (ch ")")])
         true.
(** [/\[(high|low|critical|abnormal|borderline)\]/i] *)
Definition bracket_status_regexp : RegExpObject :=
  regexp (seq [chr (ch "["); Group 1 (alt (tl status_words)); chr (ch "]")]) true.
(** [/\b(normal|high|low|critical|abnormal|borderline)\b/i] *)
Definition plain_status_regexp : RegExpObject :=
  regexp (seq [WordBoundary; Group 1 (alt status_words); WordBoundary]) true.
(** [/\(([A-Z0-9]+)\)/] *)
Definition abbreviation_regexp : RegExpObject :=
  regexp (seq [chr (ch "(");
               Group 1 (Plus true (Class false [CRange (ch "A") (ch "Z");
                                                CRange (ch "0") (ch "9")]));
               chr (ch ")")])
         false.
(** [/\s*\([^)]+\)/] *)
Definition parenthetical_regexp : RegExpObject :=
  regexp (seq [ZERO_OR_MORE_SPACES; chr (ch "(");
               Plus true (Class true [CChar (ch ")")]); chr (ch ")")])
         false.
(** [/^(.+?)\s+([0-9.,]+)/] *)
Definition fallback_regexp : RegExpObject :=
  regexp (seq [Bol; TEST_NAME; ONE_OR_MORE_SPACES; NUMERIC_VALUE 2]) false.

(** ** Parsed records *)

(** [interface ParsedTestComponent].  A field with [?] is [None] while it is
    undefined.  [value] is declared [number | null]; the parser only ever
    stores a number. *)
Record ParsedTestComponent := {
  test_name : jsstring;
  abbreviation : option jsstring;
  canonical_test_name : option jsstring;
  value : number;
  unit : jsstring;
  ref_range_min : option number;
  ref_range_max : option number;
  ref_range_text : option jsstring;
  status : option jsstring;
  category : option jsstring;
  loinc_code : option jsstring;
  original_line : jsstring;
  confidence : number;
  issues : list jsstring
}.

(** Field assignments. *)
Definition set_test_name v p :=
  {| test_name := v; abbreviation := abbreviation p;
     canonical_test_name := canonical_test_name p; value := value p; unit := unit p;
     ref_range_min := ref_range_min p; ref_range_max := ref_range_max p;
     ref_range_text := ref_range_text p; status := status p; category := category p;
     loinc_code := loinc_code p; original_line := original_line p;
     confidence := confidence p; issues := issues p |}.
Definition set_abbreviation v p :=
  {| test_name := test_name p; abbreviation := v;
     canonical_test_name := canonical_test_name p; value := value p; unit := unit p;
     ref_range_min := ref_range_min p; ref_range_max := ref_range_max p;
     ref_range_text := ref_range_text p; status := status p; category := category p;
     loinc_code := loinc_code p; original_line := original_line p;
     confidence := confidence p; issues := issues p |}.
Definition set_canonical_test_name v p :=
  {| test_name := test_name p; abbreviation := abbreviation p;
     canonical_test_name := v; value := value p; unit := unit p;
     ref_range_min := ref_range_min p; ref_range_max := ref_range_max p;
     ref_range_text := ref_range_text p; status := status p; category := category p;
     loinc_code := loinc_code p; original_line := original_line p;
     confidence := confidence p; issues := issues p |}.
Definition set_unit v p :=
  {| test_name := test_name p; abbreviation := abbreviation p;
     canonical_test_name := canonical_test_name p; value := value p; unit := v;
     ref_range_min := ref_range_min p; ref_range_max := ref_range_max p;
     ref_range_text := ref_range_text p; status := status p; category := category p;
     loinc_code := loinc_code p; original_line := original_line p;
     confidence := confidence p; issues := issues p |}.
Definition set_ref_range_min v p :=
  {| test_name := test_name p; abbreviation := abbreviation p;
     canonical_test_name := canonical_test_name p; value := value p; unit := unit p;
     ref_range_min := v; ref_range_max := ref_range_max p;
     ref_range_text := ref_range_text p; status := status p; category := category p;
     loinc_code := loinc_code p; original_line := original_line p;
     confidence := confidence p; issues := issues p |}.
Definition set_ref_range_max v p :=
  {| test_name := test_name p; abbreviation := abbreviation p;
     canonical_test_name := canonical_test_name p; value := value p; unit := unit p;
     ref_range_min := ref_range_min p; ref_range_max := v;
     ref_range_text := ref_range_text p; status := status p; category := category p;
     loinc_code := loinc_code p; original_line := original_line p;
     confidence := confidence p; issues := issues p |}.
Definition set_ref_range_text v p :=
  {| test_name := test_name p; abbreviation := abbreviation p;
     canonical_test_name := canonical_test_name p; value := value p; unit := unit p;
     ref_range_min := ref_range_min p; ref_range_max := ref_range_max p;
     ref_range_text := v; status := status p; category := category p;
     loinc_code := loinc_code p; original_line := original_line p;
     confidence := confidence p; issues := issues p |}.
Definition set_status v p :=
  {| test_name := test_name p; abbreviation := abbreviation p;
     canonical_test_name := canonical_test_name p; value := value p; unit := unit p;
     ref_range_min := ref_range_min p; ref_range_max := ref_range_max p;
     ref_range_text := ref_range_text p; status := v; category := category p;
     loinc_code := loinc_code p; original_line := original_line p;
     confidence := confidence p; issues := issues p |}.
Definition set_category v p :=
  {| test_name := test_name p; abbreviation := abbreviation p;
     canonical_test_name := canonical_test_name p; value := value p; unit := unit p;
     ref_range_min := ref_range_min p; ref_range_max := ref_range_max p;
     ref_range_text := ref_range_text p; status := status p; category := v;
     loinc_code := loinc_code p; original_line := original_line p;
     confidence := confidence p; issues := issues p |}.
Definition set_loinc_code v p :=
  {| test_name := test_name p; abbreviation := abbreviation p;
     canonical_test_name := canonical_test_name p; value := value p; unit := unit p;
     ref_range_min := ref_range_min p; ref_range_max := ref_range_max p;
     ref_range_text := ref_range_text p; status := status p; category := category p;
     loinc_code := v; original_line := original_line p;
     confidence := confidence p; issues := issues p |}.
Definition set_confidence v p :=
  {| test_name := test_name p; abbreviation := abbreviation p;
     canonical_test_name := canonical_test_name p; value := value p; unit := unit p;
     ref_range_min := ref_range_min p; ref_range_max := ref_range_max p;
     ref_range_text := ref_range_text p; status := status p; category := category p;
     loinc_code := loinc_code p; original_line := original_line p;
     confidence := v; issues := issues p |}.
Definition set_issues v p :=
  {| test_name := test_name p; abbreviation := abbreviation p;
     canonical_test_name := canonical_test_name p; value := value p; unit := unit p;
     ref_range_min := ref_range_min p; ref_range_max := ref_range_max p;
     ref_range_text := ref_range_text p; status := status p; category := category p;
     loinc_code := loinc_code p; original_line := original_line p;
     confidence := confidence p; issues := v |}.

(** The settings [parseText] closes over (the state [parseSettings]); it
    reads [skipEmptyLines] and [detectHeaders] only. *)
Record ParseSettings := {
  detectHeaders : bool;
  assumeFirstColumnIsName : bool;
  detectUnits : bool;
  detectRanges : bool;
  skipEmptyLines : bool;
  caseSensitive : bool
}.

Inductive patternName := fullPattern | tabularPattern | simplePattern | csvPattern.

(** [Object.entries(patterns)], in insertion order. *)
Definition patterns : list (patternName * RegExpObject) :=
  [(fullPattern, REGEX_PATTERNS.FULL_PATTERN);
   (tabularPattern, REGEX_PATTERNS.TABULAR_PATTERN);
   (simplePattern, REGEX_PATTERNS.SIMPLE_PATTERN);
   (csvPattern, REGEX_PATTERNS.CSV_PATTERN)].

Definition is_fullPattern (n : patternName) : bool :=
  match n with
  | fullPattern => true
  | _ => false
  end.

(** The numeric literals of the source. *)
Definition c0_05 : number := decimal 5 (-2).
Definition c0_1 : number := decimal 1 (-1).
Definition c0_15 : number := decimal 15 (-2).
Definition c0_2 : number := decimal 2 (-1).
Definition c0_3 : number := decimal 3 (-1).
Definition c0_5 : number := decimal 5 (-1).
Definition c1_0 : number := decimal 10 (-1).
Definition c0 : number := decimal 0 0.

(** ** parseText *)

Definition defined (o : option jsstring) : jsstring :=
  match o with
  | Some s => s
  | None => []
  end.

Definition nonempty (s : jsstring) : bool :=
  match s with
  | [] => false
  | _ :: _ => true
  end.

Definition push (issue : jsstring) (p : ParsedTestComponent) : ParsedTestComponent :=
  set_issues (issues p ++ [issue]) p.

(** The numeric bound of a comparison text such as "< 0.41". *)
Definition comparison_bound (compText : jsstring) (parsed : ParsedTestComponent)
  : ParsedTestComponent :=
  match exec comparison_regexp compText with
  | Some compMatch =>
      let op := defined (group 1 compMatch) in
      let num := parseFloat (remove_all commas (defined (group 2 compMatch))) in
      if negb (isNaN num) then
        if jsstring_eqb op (str "<") || jsstring_eqb op [0x2264%N]
        then set_ref_range_max (Some num) parsed
        else if jsstring_eqb op (str ">") || jsstring_eqb op [0x2265%N]
        then set_ref_range_min (Some num) parsed
        else parsed
      else parsed
  | None => parsed
  end.

(** "Parse reference range if available": [match[4]] and [match[5]] as the
    bounds, else [match[6]] as a comparison, else [match[7]] as free text. *)
Definition parse_reference_range (m : match_result)
           (pc : ParsedTestComponent * number) : ParsedTestComponent * number :=
  let (parsed, confidence) := pc in
  if truthy (group 4 m) && truthy (group 5 m) then
    let rangeMin := parseFloat (remove_all commas (defined (group 4 m))) in
    let rangeMax := parseFloat (remove_all commas (defined (group 5 m))) in
    if negb (isNaN rangeMin) && negb (isNaN rangeMax)
    then (set_ref_range_max (Some rangeMax) (set_ref_range_min (Some rangeMin) parsed),
          num_add confidence c0_2)
    else (parsed, confidence)
  else if truthy (group 6 m) then
    let compText := trim (defined (group 6 m)) in
    (comparison_bound compText (set_ref_range_text (Some compText) parsed),
     num_add confidence c0_1)
  else if truthy (group 7 m) then
    (set_ref_range_text (Some (trim (remove_all parentheses (defined (group 7 m))))) parsed,
     num_add confidence c0_05)
  else (parsed, confidence).

(** No range at all, as the source tests it: each field is falsy. *)
Definition no_range (parsed : ParsedTestComponent) : bool :=
  falsy_num (ref_range_min parsed) && falsy_num (ref_range_max parsed)
  && negb (truthy (ref_range_text parsed)).

(** "Check if "Not Estab." appears anywhere in the line". *)
Definition check_not_estab (trimmedLine : jsstring)
           (pc : ParsedTestComponent * number) : ParsedTestComponent * number :=
  let (parsed, confidence) := pc in
  if no_range parsed then
    match exec not_estab_regexp trimmedLine with
    | Some _ => (set_ref_range_text (Some (str "Not Estab.")) parsed, num_add confidence c0_1)
    | None => pc
    end
  else pc.

(** "Parse status - check for [High], [Low], etc. first, then plain text". *)
Definition parse_status (trimmedLine : jsstring)
           (pc : ParsedTestComponent * number) : ParsedTestComponent * number :=
  let (parsed, confidence) := pc in
  match exec bracket_status_regexp trimmedLine with
  | Some statusMatch =>
      (set_status (Some (toLowerCase (defined (group 1 statusMatch)))) parsed,
       num_add confidence c0_1)
  | None =>
      match exec plain_status_regexp trimmedLine with
      | Some statusMatch =>
          (set_status (Some (toLowerCase (defined (group 1 statusMatch)))) parsed,
           num_add confidence c0_05)
      | None => pc
      end
  end.

(** "Auto-detect abbreviations". *)
Definition detect_abbreviation (testName : jsstring)
           (pc : ParsedTestComponent * number) : ParsedTestComponent * number :=
  let (parsed, confidence) := pc in
  match exec abbreviation_regexp testName with
  | Some abbreviationMatch =>
      (set_test_name (trim (remove_first parenthetical_regexp testName))
                     (set_abbreviation (group 1 abbreviationMatch) parsed),
       num_add confidence c0_05)
  | None => pc
  end.

(** "Auto-calculate status if not already set and we have reference range
    data". *)
Definition auto_status (parsed : ParsedTestComponent) : ParsedTestComponent :=
  if negb (truthy (status parsed)) then
    match ref_range_min parsed, ref_range_max parsed with
    | Some rmin, Some rmax =>
        if num_gt (value parsed) rmax then set_status (Some (str "high")) parsed
        else if num_lt (value parsed) rmin then set_status (Some (str "low")) parsed
        else set_status (Some (str "normal")) parsed
    | None, Some rmax =>
        set_status (Some (if num_gt (value parsed) rmax then str "high" else str "normal"))
                   parsed
    | Some rmin, None =>
        set_status (Some (if num_lt (value parsed) rmin then str "low" else str "normal"))
                   parsed
    | None, None => parsed
    end
  else parsed.

(** The body of the loop over the pattern table once [pattern] has matched
    with [m]; [None] is [continue] (no name, no value, or a value that is not
    a number).  The local array [issues] of the source, to which 'Could not
    parse numeric value' is pushed, is never read. *)
Definition build_record (name : patternName) (trimmedLine : jsstring) (m : match_result)
  : option ParsedTestComponent :=
  let testName :=
    option_map (fun s => remove_first trailing_punctuation (trim s)) (group 1 m) in
  let valueStr := option_map (remove_all commas) (group 2 m) in
  let unit := defined (option_map trim (group 3 m)) in
  if negb (truthy testName) || negb (truthy valueStr) then None
  else
    let value := parseFloat (defined valueStr) in
    if isNaN value then None
    else
      let parsed :=
        {| test_name := defined testName; abbreviation := None;
           canonical_test_name := None; value := value; unit := unit;
           ref_range_min := None; ref_range_max := None; ref_range_text := None;
           status := None; category := None; loinc_code := None;
           original_line := trimmedLine; confidence := c0; issues := [] |} in
      let confidence := c0_5 in
      let confidence := if nonempty unit then num_add confidence c0_2 else confidence in
      let confidence :=
        if is_fullPattern name then num_add confidence c0_3 else confidence in
      let pc := parse_reference_range m (parsed, confidence) in
      let pc := check_not_estab trimmedLine pc in
      let pc := parse_status trimmedLine pc in
      let pc := detect_abbreviation (defined testName) pc in
      let parsed := auto_status (fst pc) in
      Some (set_confidence (Math_min (snd pc) c1_0) parsed).

(** One turn of the loop: [trimmedLine.match(pattern)], then the body. *)
Definition try_pattern (trimmedLine : jsstring) (entry : patternName * RegExpObject)
  : option ParsedTestComponent :=
  match exec (snd entry) trimmedLine with
  | None => None
  | Some m => build_record (fst entry) trimmedLine m
  end.

(** "Try patterns in order of specificity": the first pattern that yields a
    record ends the loop. *)
Fixpoint match_patterns (trimmedLine : jsstring)
         (entries : list (patternName * RegExpObject)) : option ParsedTestComponent :=
  match entries with
  | [] => None
  | entry :: more =>
      match try_pattern trimmedLine entry with
      | Some parsed => Some parsed
      | None => match_patterns trimmedLine more
      end
  end.

(** "Fallback: try to extract at least test name and value". *)
Definition fallback (trimmedLine : jsstring) : option ParsedTestComponent :=
  match exec fallback_regexp trimmedLine with
  | Some fallbackMatch =>
      let value := parseFloat (remove_all commas (defined (group 2 fallbackMatch))) in
      if negb (isNaN value) then
        Some {| test_name :=
                  remove_first trailing_punctuation (trim (defined (group 1 fallbackMatch)));
                abbreviation := None; canonical_test_name := None;
                value := value; unit := [];
                ref_range_min := None; ref_range_max := None; ref_range_text := None;
                status := None; category := None; loinc_code := None;
                original_line := trimmedLine; confidence := c0_2;
                issues := [str "Could not detect unit";
                           str "Could not detect reference range"] |}
      else None
  | None => None
  end.

(** The record of a line before validation: pattern table, then fallback. *)
Definition extract (trimmedLine : jsstring) : option ParsedTestComponent :=
  match match_patterns trimmedLine patterns with
  | Some parsed => Some parsed
  | None => fallback trimmedLine
  end.

(** "Validate parsed data" and "Reduce confidence based on number of
    issues". *)
Definition validate (parsed : ParsedTestComponent) : ParsedTestComponent :=
  let parsed :=
    if Nat.ltb (length (test_name parsed)) 2
    then set_confidence (Math_max c0 (num_sub (confidence parsed) c0_3))
                        (push (str "Test name too short") parsed)
    else parsed in
  let parsed :=
    if negb (nonempty (unit parsed)) then push (str "Unit not detected") parsed
    else parsed in
  let parsed :=
    if no_range parsed then push (str "Reference range not detected") parsed
    else parsed in
  if Nat.ltb 0 (length (issues parsed)) then
    let issueReduction :=
      Math_min (num_mul (of_nat (length (issues parsed))) c0_15) c0_5 in
    set_confidence (Math_max c0_1 (num_sub (confidence parsed) issueReduction)) parsed
  else parsed.

Definition headerKeywords : list jsstring :=
  [str "test"; str "name"; str "value"; str "result"; str "unit"; str "range";
   str "status"; str "reference"].

(** What one call of the [forEach] callback does with a line. *)
Inductive outcome :=
| Skipped
| Parsed (parsed : ParsedTestComponent)
| Failed.

Definition process_line (parseSettings : ParseSettings) (index : nat) (line : jsstring)
  : outcome :=
  let trimmedLine := trim line in
  if negb (nonempty trimmedLine) then Skipped
  else if detectHeaders parseSettings && Nat.eqb index 0
          && existsb (fun keyword => includes (toLowerCase trimmedLine) keyword)
                     headerKeywords
  then Skipped
  else
    match extract trimmedLine with
    | Some parsed => Parsed (validate parsed)
    | None => Failed
    end.

Record ParseResult := {
  components : list ParsedTestComponent;
  failedLineCount : nat
}.

Fixpoint forEach (parseSettings : ParseSettings) (index : nat) (lines : list jsstring)
         (acc : ParseResult) : ParseResult :=
  match lines with
  | [] => acc
  | line :: more =>
      forEach parseSettings (S index) more
        match process_line parseSettings index line with
        | Skipped => acc
        | Parsed parsed =>
            {| components := components acc ++ [parsed];
               failedLineCount := failedLineCount acc |}
        | Failed =>
            {| components := components acc;
               failedLineCount := S (failedLineCount acc) |}
        end
  end.

Definition parseText (parseSettings : ParseSettings) (text : jsstring) : ParseResult :=
  let lines :=
    filter (fun line =>
              if skipEmptyLines parseSettings then Nat.ltb 0 (length (trim line))
              else true)
           (split_lines text) in
  forEach parseSettings 0 lines {| components := []; failedLineCount := 0 |}.

(** ** enrichWithStandardizedTests *)

(** [interface TestLibraryItem] (constants/testLibraryTypes.ts). *)
Module TestLibraryItem.
Record t := {
  test_name : jsstring;
  abbreviation : option jsstring;
  test_code : option jsstring;
  default_unit : jsstring;
  category : jsstring;
  common_names : option (list jsstring);
  is_common : bool;
  display_order : option number
}.
End TestLibraryItem.

(** [issues.indexOf(x)] followed by [issues.splice(index, 1)] when found. *)
Fixpoint remove_first_occurrence (x : jsstring) (l : list jsstring) : list jsstring :=
  match l with
  | [] => []
  | y :: t => if jsstring_eqb y x then t else y :: remove_first_occurrence x t
  end.

Section Enrichment.

(** [searchTests(query, limit)] of constants/testLibrary, the catalog lookup. *)
Variable searchTests : jsstring -> nat -> list TestLibraryItem.t.

(** [matches.length > 0 ? matches[0] : null]. *)
Definition lookup (component : ParsedTestComponent) : option TestLibraryItem.t :=
  match searchTests (test_name component) 1 with
  | standardizedTest :: _ => Some standardizedTest
  | [] => None
  end.

(** The callback of [components.map]. *)
Definition enrich (component : ParsedTestComponent) : ParsedTestComponent :=
  match lookup component with
  | Some standardizedTest =>
      let component :=
        set_canonical_test_name (Some (TestLibraryItem.test_name standardizedTest))
                                component in
      let component :=
        if negb (truthy (abbreviation component))
           && truthy (TestLibraryItem.abbreviation standardizedTest)
        then set_abbreviation (TestLibraryItem.abbreviation standardizedTest) component
        else component in
      let component :=
        if negb (nonempty (unit component))
           && nonempty (TestLibraryItem.default_unit standardizedTest)
        then set_issues (remove_first_occurrence (str "Unit not detected") (issues component))
                        (set_unit (TestLibraryItem.default_unit standardizedTest) component)
        else component in
      let component :=
        if nonempty (TestLibraryItem.category standardizedTest)
        then set_category (Some (TestLibraryItem.category standardizedTest)) component
        else component in
      if truthy (TestLibraryItem.test_code standardizedTest)
      then set_loinc_code (TestLibraryItem.test_code standardizedTest) component
      else component
  | None => component
  end.

Definition enrichWithStandardizedTests (components : list ParsedTestComponent)
  : list ParsedTestComponent :=
  map enrich components.

(** What [handleManualParse] and the auto-parse effect compute: [parseText],
    then the enrichment pass over its components. *)
Definition parse (parseSettings : ParseSettings) (text : jsstring)
  : list ParsedTestComponent * nat :=
  let r := parseText parseSettings text in
  (enrichWithStandardizedTests (components r), failedLineCount r).

End Enrichment.

(** ** The shared RegExp objects as state *)

(** The four patterns are module-level RegExp objects, exported and shared by
    every call of [parseText]; the one slot of such an object that matching
    can read or write is [lastIndex].  The definitions below are [parseText]
    again with these four slots threaded through the loop. *)
Definition regexp_store := patternName -> nat.

Definition patternName_eqb (a b : patternName) : bool :=
  match a, b with
  | fullPattern, fullPattern | tabularPattern, tabularPattern
  | simplePattern, simplePattern | csvPattern, csvPattern => true
  | _, _ => false
  end.

Definition set_lastIndex (s : regexp_store) (n : patternName) (i : nat) : regexp_store :=
  fun n' => if patternName_eqb n' n then i else s n'.

Definition try_pattern_st (trimmedLine : jsstring) (entry : patternName * RegExpObject)
           (s : regexp_store) : option ParsedTestComponent * regexp_store :=
  let (om, i) := RegExpBuiltinExec (snd entry) (s (fst entry)) trimmedLine in
  (match om with
   | None => None
   | Some m => build_record (fst entry) trimmedLine m
   end,
   set_lastIndex s (fst entry) i).

Fixpoint match_patterns_st (trimmedLine : jsstring)
         (entries : list (patternName * RegExpObject)) (s : regexp_store)
  : option ParsedTestComponent * regexp_store :=
  match entries with
  | [] => (None, s)
  | entry :: more =>
      match try_pattern_st trimmedLine entry s with
      | (Some parsed, s') => (Some parsed, s')
      | (None, s') => match_patterns_st trimmedLine more s'
      end
  end.

Definition process_line_st (parseSettings : ParseSettings) (index : nat) (line : jsstring)
           (s : regexp_store) : outcome * regexp_store :=
  let trimmedLine := trim line in
  if negb (nonempty trimmedLine) then (Skipped, s)
  else if detectHeaders parseSettings && Nat.eqb index 0
          && existsb (fun keyword => includes (toLowerCase trimmedLine) keyword)
                     headerKeywords
  then (Skipped, s)
  else
    match match_patterns_st trimmedLine patterns s with
    | (Some parsed, s') => (Parsed (validate parsed), s')
    | (None, s') =>
        match fallback trimmedLine with
        | Some parsed => (Parsed (validate parsed), s')
        | None => (Failed, s')
        end
    end.

Fixpoint forEach_st (parseSettings : ParseSettings) (index : nat) (lines : list jsstring)
         (acc : ParseResult) (s : regexp_store) : ParseResult * regexp_store :=
  match lines with
  | [] => (acc, s)
  | line :: more =>
      let (o, s') := process_line_st parseSettings index line s in
      forEach_st parseSettings (S index) more
        match o with
        | Skipped => acc
        | Parsed parsed =>
            {| components := components acc ++ [parsed];
               failedLineCount := failedLineCount acc |}
        | Failed =>
            {| components := components acc;
               failedLineCount := S (failedLineCount acc) |}
        end
        s'
  end.

Definition parseText_st (parseSettings : ParseSettings) (text : jsstring)
           (s : regexp_store) : ParseResult * regexp_store :=
  let lines :=
    filter (fun line =>
              if skipEmptyLines parseSettings then Nat.ltb 0 (length (trim line))
              else true)
           (split_lines text) in
  forEach_st parseSettings 0 lines {| components := []; failedLineCount := 0 |} s.

(** [parse] on the shared objects: the result and the store it leaves. *)
Definition parse_st (searchTests : jsstring -> nat -> list TestLibraryItem.t)
           (parseSettings : ParseSettings) (text : jsstring) (s : regexp_store)
  : (list ParsedTestComponent * nat) * regexp_store :=
  let (r, s') := parseText_st parseSettings text s in
  ((enrichWithStandardizedTests searchTests (components r), failedLineCount r), s').

(** ** What a match can be *)

(** [sem i r w c c']: the pattern [r] can consume the text [w] while turning
    the captures [c] into [c'], whatever the order in which the matcher tries
    its choices and whatever surrounds [w] (the assertions [^], [$] and [\b]
    consume nothing and are not constrained here). *)
Fixpoint sem (i : bool) (r : regex) (w : jsstring) (c c' : captures) : Prop :=
  match r with
  | Empty | Bol | Eol | WordBoundary => w = [] /\ c' = c
  | Chars cs => exists x, w = [x] /\ cset_match i cs x = true /\ c' = c
  | Seq r1 r2 =>
      exists w1 w2 c1, w = w1 ++ w2 /\ sem i r1 w1 c c1 /\ sem i r2 w2 c1 c'
  | Alt r1 r2 => sem i r1 w c c' \/ sem i r2 w c c'
  | Group n r1 => exists c1, sem i r1 w c c1 /\ c' = (n, w) :: c1
  | Opt r1 =>
      (w <> [] /\ sem i r1 w (clear_caps (groups_of r1) c) c') \/ (w = [] /\ c' = c)
  | Star _ cs => Forall (fun x => cset_match i cs x = true) w /\ c' = c
  | Plus _ cs => w <> [] /\ Forall (fun x => cset_match i cs x = true) w /\ c' = c
  end.

(** A property of every captured text, group by group. *)
Definition cap_inv (P : nat -> jsstring -> Prop) (c : captures) : Prop :=
  forall n v, cap n c = Some v -> P n v.

(** Every group of [r] can only capture a text with property [P]. *)
Fixpoint groups_ok (i : bool) (P : nat -> jsstring -> Prop) (r : regex) : Prop :=
  match r with
  | Group n r1 => groups_ok i P r1 /\ (forall w c c', sem i r1 w c c' -> P n w)
  | Seq a b | Alt a b => groups_ok i P a /\ groups_ok i P b
  | Opt a => groups_ok i P a
  | _ => True
  end.

(** The text of group 2, the value, holds no minus sign. *)
Definition value_unsigned (n : nat) (v : jsstring) : Prop :=
  n = 2%nat -> Forall (fun x => x <> 45) v.

(** The shape of a comparison text: an operator, white space, then digits,
    periods and commas. *)
Definition comparison_text (v : jsstring) : Prop :=
  exists op ws ds,
    v = op :: ws ++ ds
    /\ cset_match false comparison_ops op = true
    /\ Forall (fun x => isWhiteSpace x = true) ws
    /\ Forall (fun x => cset_match false numeric_chars x = true) ds
    /\ ds <> [].

Definition comparison_captured (n : nat) (v : jsstring) : Prop :=
  n = 6%nat -> comparison_text v.

(** ** Notions the properties are stated with *)

(** The initial [parseSettings] of the component. *)
Definition initial_parseSettings : ParseSettings :=
  {| detectHeaders := true; assumeFirstColumnIsName := true; detectUnits := true;
     detectRanges := true; skipEmptyLines := true; caseSensitive := false |}.

(** The record a turn of the loop starts from ([parsed = {...}]). *)
Definition initial_record (trimmedLine testName : jsstring) (v : number) (u : jsstring)
  : ParsedTestComponent :=
  {| test_name := testName; abbreviation := None; canonical_test_name := None;
     value := v; unit := u;
     ref_range_min := None; ref_range_max := None; ref_range_text := None;
     status := None; category := None; loinc_code := None;
     original_line := trimmedLine; confidence := c0; issues := [] |}.

(** The pattern of the table whose turn of the loop yields the record of a
    line, with its match array. *)
Fixpoint deciding_match (trimmedLine : jsstring)
         (entries : list (patternName * RegExpObject))
  : option (patternName * match_result) :=
  match entries with
  | [] => None
  | entry :: more =>
      match try_pattern trimmedLine entry with
      | Some _ => option_map (pair (fst entry)) (exec (snd entry) trimmedLine)
      | None => deciding_match trimmedLine more
      end
  end.

(** The fields the repository's parser tests look at, for one line. *)
Definition tested_fields (line : jsstring)
  : option (jsstring * number * jsstring * option number * option number
            * option jsstring * option jsstring) :=
  option_map (fun p => (test_name p, value p, unit p, ref_range_min p,
                        ref_range_max p, ref_range_text p, status p))
             (extract (trim line)).

(** The line carries no status of its own: neither a bracketed token nor a
    bare status word. *)
Definition no_status_token (trimmedLine : jsstring) : Prop :=
  exec bracket_status_regexp trimmedLine = None
  /\ exec plain_status_regexp trimmedLine = None.

(** The status [auto_status] computes from a value and the bounds at hand. *)
Definition derived_status (v : number) (rmin rmax : option number) : option jsstring :=
  match rmin, rmax with
  | Some a, Some b =>
      Some (if num_gt v b then str "high" else if num_lt v a then str "low"
            else str "normal")
  | None, Some b => Some (if num_gt v b then str "high" else str "normal")
  | Some a, None => Some (if num_lt v a then str "low" else str "normal")
  | None, None => None
  end.

(** The number that follows the operator of a comparison text. *)
Definition comparison_operand (compText : jsstring) : number :=
  parseFloat (remove_all commas (tl compText)).

(** [<] and U+2264 bound from above, [>] and U+2265 from below. *)
Definition upper_operator (op : char16) : bool := (op =? 60) || (op =? 0x2264).
Definition lower_operator (op : char16) : bool := (op =? 62) || (op =? 0x2265).

(** Sign of a number: NaN has none. *)
Definition nonnegative (x : number) : Prop :=
  match x with
  | S754_zero s | S754_infinity s | S754_finite s _ _ => s = false
  | S754_nan => True
  end.

(** The confidence a record can carry out of the pattern table (before
    [validate]): every combination of the increments of [build_record]. *)
Definition either (d : number) (l : list number) : list number :=
  flat_map (fun c => [c; num_add c d]) l.

Definition seed_confidences : list number :=
  map (fun c => Math_min c c1_0)
      (either c0_05
         (flat_map (fun c => [c; num_add c c0_1; num_add c c0_05])
            (either c0_1
               (flat_map (fun c => [c; num_add c c0_2; num_add c c0_1; num_add c c0_05])
                  (either c0_3 (either c0_2 [c0_5])))))).

(** The confidence [validate] leaves, from the confidence it finds, whether
    the name is too short, and the number of issues after its pushes. *)
Definition validated_confidence (c : number) (short : bool) (n : nat) : number :=
  let c := if short then Math_max c0 (num_sub c c0_3) else c in
  if Nat.ltb 0 n
  then Math_max c0_1 (num_sub c (Math_min (num_mul (of_nat n) c0_15) c0_5))
  else c.

(** The two wordings with which a record reports that no unit was found. *)
Definition missing_unit_issue (issue : jsstring) : bool :=
  jsstring_eqb issue (str "Could not detect unit")
  || jsstring_eqb issue (str "Unit not detected").

(** A one-entry catalog, to run the enrichment on. *)
Definition sample_item : TestLibraryItem.t :=
  {| TestLibraryItem.test_name := str "White Blood Cell Count";
     TestLibraryItem.abbreviation := Some (str "WBC");
     TestLibraryItem.test_code := Some (str "6690-2");
     TestLibraryItem.default_unit := str "x10E3/uL";
     TestLibraryItem.category := str "hematology";
     TestLibraryItem.common_names := Some [str "Leukozyten"; str "Leukocytes"];
     TestLibraryItem.is_common := true;
     TestLibraryItem.display_order := None |}.

Definition sample_searchTests (query : jsstring) (limit : nat) : list TestLibraryItem.t :=
  if existsb (jsstring_eqb query) [str "WBC"; str "Leukozyten"]
  then firstn limit [sample_item]
  else [].

(** ** The helper of the parser tests *)

(** The tests of the pattern table do not call [parseText]: they run a helper
    of their own, [parseLine], written "using the same logic as
    TestComponentBulkEntry", over [Object.entries(REGEX_PATTERNS)].  Its
    result starts with every range field and the status [null]. *)
Module ParseLine.

Record result := {
  patternName : jsstring;
  test_name : jsstring;
  value : number;
  unit : jsstring;
  ref_range_min : option number;
  ref_range_max : option number;
  ref_range_text : option jsstring;
  status : option jsstring
}.

Definition set_ref_range_min v r :=
  {| patternName := patternName r; test_name := test_name r; value := value r;
     unit := unit r; ref_range_min := v; ref_range_max := ref_range_max r;
     ref_range_text := ref_range_text r; status := status r |}.
Definition set_ref_range_max v r :=
  {| patternName := patternName r; test_name := test_name r; value := value r;
     unit := unit r; ref_range_min := ref_range_min r; ref_range_max := v;
     ref_range_text := ref_range_text r; status := status r |}.
Definition set_ref_range_text v r :=
  {| patternName := patternName r; test_name := test_name r; value := value r;
     unit := unit r; ref_range_min := ref_range_min r; ref_range_max := ref_range_max r;
     ref_range_text := v; status := status r |}.
Definition set_status v r :=
  {| patternName := patternName r; test_name := test_name r; value := value r;
     unit := unit r; ref_range_min := ref_range_min r; ref_range_max := ref_range_max r;
     ref_range_text := ref_range_text r; status := v |}.

End ParseLine.

(** [Object.entries(REGEX_PATTERNS)], in insertion order. *)
Definition REGEX_PATTERNS_entries : list (jsstring * RegExpObject) :=
  [(str "FULL_PATTERN", REGEX_PATTERNS.FULL_PATTERN);
   (str "TABULAR_PATTERN", REGEX_PATTERNS.TABULAR_PATTERN);
   (str "SIMPLE_PATTERN", REGEX_PATTERNS.SIMPLE_PATTERN);
   (str "CSV_PATTERN", REGEX_PATTERNS.CSV_PATTERN)].

(** "Parse reference range" of the helper: [match[4]] and [match[5]], else
    [match[6]]; it has no branch for [match[7]]. *)
Definition parseLine_range (m : match_result) (result : ParseLine.result)
  : ParseLine.result :=
  if truthy (group 4 m) && truthy (group 5 m) then
    let rangeMin := parseFloat (remove_all commas (defined (group 4 m))) in
    let rangeMax := parseFloat (remove_all commas (defined (group 5 m))) in
    if negb (isNaN rangeMin) && negb (isNaN rangeMax)
    then ParseLine.set_ref_range_max (Some rangeMax)
           (ParseLine.set_ref_range_min (Some rangeMin) result)
    else result
  else if truthy (group 6 m) then
    let compText := trim (defined (group 6 m)) in
    let result := ParseLine.set_ref_range_text (Some compText) result in
    match exec comparison_regexp compText with
    | Some compMatch =>
        let op := defined (group 1 compMatch) in
        let num := parseFloat (remove_all commas (defined (group 2 compMatch))) in
        if negb (isNaN num) then
          if jsstring_eqb op (str "<") || jsstring_eqb op [0x2264%N]
          then ParseLine.set_ref_range_max (Some num) result
          else if jsstring_eqb op (str ">") || jsstring_eqb op [0x2265%N]
          then ParseLine.set_ref_range_min (Some num) result
          else result
        else result
    | None => result
    end
  else result.

(** "Auto-calculate status" of the helper; its [result.value] is a number,
    never [null]. *)
Definition parseLine_status (result : ParseLine.result) : ParseLine.result :=
  match ParseLine.ref_range_min result, ParseLine.ref_range_max result with
  | Some rmin, Some rmax =>
      if num_gt (ParseLine.value result) rmax
      then ParseLine.set_status (Some (str "high")) result
      else if num_lt (ParseLine.value result) rmin
      then ParseLine.set_status (Some (str "low")) result
      else ParseLine.set_status (Some (str "normal")) result
  | None, Some rmax =>
      ParseLine.set_status
        (Some (if num_gt (ParseLine.value result) rmax then str "high" else str "normal"))
        result
  | Some rmin, None =>
      ParseLine.set_status
        (Some (if num_lt (ParseLine.value result) rmin then str "low" else str "normal"))
        result
  | None, None => result
  end.

(** The body of the helper's loop once [pattern] has matched with [m];
    [None] is [continue]. *)
Definition parseLine_body (patternName : jsstring) (m : match_result)
  : option ParseLine.result :=
  let testName :=
    option_map (fun s => remove_first trailing_punctuation (trim s)) (group 1 m) in
  let valueStr := option_map (remove_all commas) (group 2 m) in
  let unit := defined (option_map trim (group 3 m)) in
  if negb (truthy testName) || negb (truthy valueStr) then None
  else
    let value := parseFloat (defined valueStr) in
    if isNaN value then None
    else
      Some (parseLine_status
              (parseLine_range m
                 {| ParseLine.patternName := patternName;
                    ParseLine.test_name := defined testName;
                    ParseLine.value := value;
                    ParseLine.unit := unit;
                    ParseLine.ref_range_min := None;
                    ParseLine.ref_range_max := None;
                    ParseLine.ref_range_text := None;
                    ParseLine.status := None |})).

Fixpoint parseLine_loop (trimmedLine : jsstring) (entries : list (jsstring * RegExpObject))
  : option ParseLine.result :=
  match entries with
  | [] => None
  | (patternName, pattern) :: more =>
      match exec pattern trimmedLine with
      | None => parseLine_loop trimmedLine more
      | Some m =>
          match parseLine_body patternName m with
          | Some result => Some result
          | None => parseLine_loop trimmedLine more
          end
      end
  end.

Definition parseLine (line : jsstring) : option ParseLine.result :=
  parseLine_loop (trim line) REGEX_PATTERNS_entries.

(** ** The preview list and what is submitted *)

(** [type ComponentStatus] (constants/labCategories.ts), the values the
    status of a submitted component is cast to. *)
Definition ComponentStatus : list jsstring :=
  [str "normal"; str "high"; str "low"; str "critical"; str "abnormal";
   str "borderline"].

(** [Array.prototype.filter] and [Array.prototype.map] with a callback that
    also takes the index. *)
Fixpoint filter_indexed (A : Type) (f : A -> nat -> bool) (i : nat) (l : list A)
  : list A :=
  match l with
  | [] => []
  | x :: t =>
      if f x i then x :: filter_indexed f (S i) t else filter_indexed f (S i) t
  end.

Fixpoint map_indexed (A B : Type) (f : A -> nat -> B) (i : nat) (l : list A) : list B :=
  match l with
  | [] => []
  | x :: t => f x i :: map_indexed f (S i) t
  end.

(** [Array.prototype.join]. *)
Fixpoint join (separator : jsstring) (l : list jsstring) : jsstring :=
  match l with
  | [] => []
  | [x] => x
  | x :: t => x ++ separator ++ join separator t
  end.

(** [prev.filter((_, i) => i !== index)], the state update of the remove
    button of a row. *)
Definition handleComponentRemove (index : nat) (prev : list ParsedTestComponent)
  : list ParsedTestComponent :=
  filter_indexed (fun _ i => negb (Nat.eqb i index)) 0 prev.

(** [validComponents]: [comp.value !== null && comp.test_name.trim()].  The
    value of a record of the parser is a number, so the first test holds. *)
Definition validComponents (parsedComponents : list ParsedTestComponent)
  : list ParsedTestComponent :=
  filter (fun comp => nonempty (trim (test_name comp))) parsedComponents.

Definition num_ge (a b : number) : bool := num_le b a.

Definition c0_4 : number := decimal 4 (-1).
Definition c0_6 : number := decimal 6 (-1).
Definition c0_8 : number := decimal 8 (-1).

Definition getConfidenceColor (confidence : number) : jsstring :=
  if num_ge confidence c0_8 then str "green"
  else if num_ge confidence c0_6 then str "yellow"
  else if num_ge confidence c0_4 then str "orange"
  else str "red".

(** The objects [handleSubmit] sends ([LabTestComponentCreate]); a field
    that is [null] or undefined is [None]. *)
Module LabTestComponentCreate.
Record t := {
  lab_result_id : nat;
  test_name : jsstring;
  abbreviation : option jsstring;
  canonical_test_name : option jsstring;
  test_code : option jsstring;
  value : number;
  unit : jsstring;
  ref_range_min : option number;
  ref_range_max : option number;
  ref_range_text : option jsstring;
  status : option jsstring;
  category : option jsstring;
  display_order : nat;
  notes : option jsstring
}.
End LabTestComponentCreate.

(** [x || null] on a possibly undefined string. *)
Definition or_null (o : option jsstring) : option jsstring :=
  if truthy o then o else None.

(** [componentsToCreate] of [handleSubmit]. *)
Definition componentsToCreate (labResultId : nat)
           (parsedComponents : list ParsedTestComponent)
  : list LabTestComponentCreate.t :=
  map_indexed
    (fun comp index =>
       {| LabTestComponentCreate.lab_result_id := labResultId;
          LabTestComponentCreate.test_name := test_name comp;
          LabTestComponentCreate.abbreviation := or_null (abbreviation comp);
          LabTestComponentCreate.canonical_test_name :=
            or_null (canonical_test_name comp);
          LabTestComponentCreate.test_code := None;
          LabTestComponentCreate.value := value comp;
          LabTestComponentCreate.unit :=
            (let u := trim (unit comp) in if nonempty u then u else str "ratio");
          LabTestComponentCreate.ref_range_min := ref_range_min comp;
          LabTestComponentCreate.ref_range_max := ref_range_max comp;
          LabTestComponentCreate.ref_range_text := or_null (ref_range_text comp);
          LabTestComponentCreate.status := or_null (status comp);
          LabTestComponentCreate.category := or_null (category comp);
          LabTestComponentCreate.display_order := (index + 1)%nat;
          LabTestComponentCreate.notes :=
            if Nat.ltb 0 (length (issues comp))
            then Some (str "Parsing notes: " ++ join (str ", ") (issues comp))
            else None |})
    0
    (filter (fun comp => nonempty (trim (test_name comp))) parsedComponents).

(** The effect "Auto-parse when debounced text changes", on the pair of
    states [parsedComponents] and [failedLineCount]. *)
Inductive ParseMode := parseMode_auto | parseMode_manual.

Definition is_auto (parseMode : ParseMode) : bool :=
  match parseMode with
  | parseMode_auto => true
  | parseMode_manual => false
  end.

Definition auto_parse_effect (searchTests : jsstring -> nat -> list TestLibraryItem.t)
           (parseSettings : ParseSettings) (parseMode : ParseMode)
           (debouncedText : jsstring) (state : list ParsedTestComponent * nat)
  : list ParsedTestComponent * nat :=
  if is_auto parseMode && nonempty (trim debouncedText)
  then parse searchTests parseSettings debouncedText
  else if is_auto parseMode && negb (nonempty (trim debouncedText))
  then ([], 0%nat)
  else state.

(** ** Notions for the properties of the whole text *)

Definition empty_result : ParseResult := {| components := []; failedLineCount := 0 |}.

(** The results of two texts, one after the other. *)
Definition merge_results (a b : ParseResult) : ParseResult :=
  {| components := components a ++ components b;
     failedLineCount := failedLineCount a + failedLineCount b |}.

(** The settings with "Auto-detect headers" switched off. *)
Definition without_headers (parseSettings : ParseSettings) : ParseSettings :=
  {| detectHeaders := false;
     assumeFirstColumnIsName := assumeFirstColumnIsName parseSettings;
     detectUnits := detectUnits parseSettings;
     detectRanges := detectRanges parseSettings;
     skipEmptyLines := skipEmptyLines parseSettings;
     caseSensitive := caseSensitive parseSettings |}.

(** [isHeader] of the loop body. *)
Definition isHeader (trimmedLine : jsstring) : bool :=
  existsb (fun keyword => includes (toLowerCase trimmedLine) keyword) headerKeywords.

Definition nonblank (line : jsstring) : bool := nonempty (trim line).

(** The lines the loop runs over. *)
Definition kept_lines (parseSettings : ParseSettings) (text : jsstring) : list jsstring :=
  filter (fun line =>
            if skipEmptyLines parseSettings then Nat.ltb 0 (length (trim line))
            else true)
         (split_lines text).

(** 1 when the line at index 0 is dropped as a header, 0 otherwise. *)
Definition skipped_header (parseSettings : ParseSettings) (text : jsstring) : nat :=
  match kept_lines parseSettings text with
  | line :: _ =>
      if detectHeaders parseSettings && nonblank line && isHeader (trim line)
      then 1%nat else 0%nat
  | [] => 0%nat
  end.

(** [l] is [l'] with some elements left out, the order kept. *)
Inductive subsequence (A : Type) : list A -> list A -> Prop :=
| subsequence_nil : subsequence [] []
| subsequence_skip (x : A) (l l' : list A) :
    subsequence l l' -> subsequence l (x :: l')
| subsequence_take (x : A) (l l' : list A) :
    subsequence l l' -> subsequence (x :: l) (x :: l').

(** The issues [validate] can push, in the order of its tests. *)
Definition validation_issues (short unitless rangeless : bool) : list jsstring :=
  (if short then [str "Test name too short"] else [])
  ++ (if unitless then [str "Unit not detected"] else [])
  ++ (if rangeless then [str "Reference range not detected"] else []).

(** The two lists of issues a record can come out of the extraction with:
    none (pattern table) or the two of the fallback. *)
Definition extraction_issues : list (list jsstring) :=
  [[]; [str "Could not detect unit"; str "Could not detect reference range"]].

(** The code units a unit can be made of: ASCII letters and digits, the
    slash, the percent sign and, because the patterns ignore case, the three
    code units that fold to the mu of [UNIT_PATTERN] (U+00B5, U+039C,
    U+03BC). *)
Definition unit_char (x : char16) : bool :=
  isLower x || isUpper x || isDigit x || (x =? 47) || (x =? 37)
  || (x =? 0xB5) || (x =? 0x39C) || (x =? 0x3BC).

(** What the patterns capture in group 2 and in group 3. *)
Definition value_numeric (n : nat) (v : jsstring) : Prop :=
  n = 2%nat -> Forall (fun x => cset_match false numeric_chars x = true) v.

Definition unit_captured (n : nat) (v : jsstring) : Prop :=
  n = 3%nat -> v <> [] /\ Forall (fun x => unit_char x = true) v.

(** No bound of the record is NaN. *)
Definition bounds_are_numbers (p : ParsedTestComponent) : Prop :=
  (forall x, ref_range_min p = Some x -> isNaN x = false)
  /\ (forall x, ref_range_max p = Some x -> isNaN x = false).

(** The status is absent or one of the values of [ComponentStatus]. *)
Definition status_is_valid (p : ParsedTestComponent) : Prop :=
  match status p with
  | None => True
  | Some s => In s ComponentStatus
  end.

(** What the abbreviation expression captures. *)
Definition abbreviation_captured (n : nat) (v : jsstring) : Prop :=
  n = 1%nat -> v <> [] /\ Forall (fun x => isUpper x || isDigit x = true) v.

(** The name and the unit [build_record] starts from. *)
Definition name_of_match (m : match_result) : jsstring :=
  remove_first trailing_punctuation (trim (defined (group 1 m))).

Definition unit_of_match (m : match_result) : jsstring :=
  defined (option_map trim (group 3 m)).

(** The members of [[,;:]]. *)
Definition punctuation (x : char16) : bool := (x =? 44) || (x =? 59) || (x =? 58).

(** The first, and the last, code unit of a text satisfies [f], if there is
    one. *)
Definition starts_with (f : char16 -> bool) (s : jsstring) : Prop :=
  match s with
  | [] => True
  | a :: _ => f a = true
  end.

Definition ends_with (f : char16 -> bool) (s : jsstring) : Prop :=
  starts_with f (rev s).

(** What the helper of the tests and the parser have in common on a line
    both accept: the value, the unit and the bounds always; the name unless
    the parser split an abbreviation off it; the comparison text the helper
    keeps; and the status when the line names none. *)
Definition same_fields (trimmedLine : jsstring) (r : ParseLine.result)
           (q : ParsedTestComponent) : Prop :=
  value q = ParseLine.value r
  /\ unit q = ParseLine.unit r
  /\ ref_range_min q = ParseLine.ref_range_min r
  /\ ref_range_max q = ParseLine.ref_range_max r
  /\ (abbreviation q = None -> test_name q = ParseLine.test_name r)
  /\ (forall text, ParseLine.ref_range_text r = Some text ->
                   ref_range_text q = Some text)
  /\ (no_status_token trimmedLine -> status q = ParseLine.status r).

(** Every match of [r] sets group [n]. *)
Definition sets_group (i : bool) (n : nat) (r : regex) : Prop :=
  forall w c c', sem i r w c c' -> cap n c' <> None.

(** The status a line asks for: the bracketed token if it has one, else the
    bare status word if it has one, else what its bounds give. *)
Definition status_of_line (trimmedLine : jsstring) (computed : option jsstring)
  : option jsstring :=
  match exec bracket_status_regexp trimmedLine with
  | Some statusMatch => Some (toLowerCase (defined (group 1 statusMatch)))
  | None =>
      match exec plain_status_regexp trimmedLine with
      | Some statusMatch => Some (toLowerCase (defined (group 1 statusMatch)))
      | None => computed
      end
  end.

(** What can stand between the name and the value of a line: white space and
    the members of [[,;:]]. *)
Definition separator_char (x : char16) : bool := isWhiteSpace x || punctuation x.

(** The name a record is given, from the text [name] cut out of the line. *)
Definition name_given (name : jsstring) (abbreviation : option jsstring) : jsstring :=
  match abbreviation with
  | None => name
  | Some _ => trim (remove_first parenthetical_regexp name)
  end.

(** * Properties *)

Unset Implicit Arguments.

(** Numbers and matches are computed on closed inputs only, never unfolded
    while reasoning. *)
Arguments num_add : simpl never.
Arguments num_sub : simpl never.
Arguments num_mul : simpl never.
Arguments num_lt : simpl never.
Arguments num_le : simpl never.
Arguments num_gt : simpl never.
Arguments Math_min : simpl never.
Arguments Math_max : simpl never.
Arguments of_nat : simpl never.
Arguments decimal : simpl never.
Arguments parseFloat : simpl never.
Arguments c0 : simpl never.
Arguments c0_05 : simpl never.
Arguments c0_1 : simpl never.
Arguments c0_15 : simpl never.
Arguments c0_2 : simpl never.
Arguments c0_3 : simpl never.
Arguments c0_5 : simpl never.
Arguments c1_0 : simpl never.
Arguments exec : simpl never.
Arguments remove_first : simpl never.
Arguments remove_all : simpl never.
Arguments trim : simpl never.
Arguments toLowerCase : simpl never.
Arguments str : simpl never.
Arguments cset_match : simpl never.
Arguments jsstring_eqb : simpl never.
Arguments derived_status : simpl never.

(** ** The repository's parser tests, replayed *)

(** The expectations of the test suite of the pattern table (tabular and
    colon layouts, comparison ranges, boundary values), evaluated on the
    embedding. *)

Example test_tabular_range :
  tested_fields (str "Leukozyten 4.4 /nl 3.6-10.0")
  = Some (str "Leukozyten", decimal 44 (-1), str "/nl",
          Some (decimal 36 (-1)), Some (decimal 10 0), None, Some (str "normal")).
Proof. vm_compute. reflexivity. Qed.

Example test_tabular_high :
  tested_fields (str "Leukozyten 12.5 /nl 3.6-10.0")
  = Some (str "Leukozyten", decimal 125 (-1), str "/nl",
          Some (decimal 36 (-1)), Some (decimal 10 0), None, Some (str "high")).
Proof. vm_compute. reflexivity. Qed.

Example test_tabular_low :
  tested_fields (str "Leukozyten 2.1 /nl 3.6-10.0")
  = Some (str "Leukozyten", decimal 21 (-1), str "/nl",
          Some (decimal 36 (-1)), Some (decimal 10 0), None, Some (str "low")).
Proof. vm_compute. reflexivity. Qed.

Example test_integer_range :
  tested_fields (str "Hemoglobin 14 g/dL 12-17")
  = Some (str "Hemoglobin", decimal 14 0, str "g/dL",
          Some (decimal 12 0), Some (decimal 17 0), None, Some (str "normal")).
Proof. vm_compute. reflexivity. Qed.

Example test_en_dash :
  tested_fields (str "Glucose 95 mg/dL 70" ++ [0x2013] ++ str "99")
  = Some (str "Glucose", decimal 95 0, str "mg/dL",
          Some (decimal 70 0), Some (decimal 99 0), None, Some (str "normal")).
Proof. vm_compute. reflexivity. Qed.

Example test_spaces_around_separator :
  tested_fields (str "WBC 7.5 K/uL 4.5 - 11.0")
  = Some (str "WBC", decimal 75 (-1), str "K/uL",
          Some (decimal 45 (-1)), Some (decimal 11 0), None, Some (str "normal")).
Proof. vm_compute. reflexivity. Qed.

Example test_upper_bound :
  tested_fields (str "Eosinophile abs. 0.19 /nl < 0.41")
  = Some (str "Eosinophile abs.", decimal 19 (-2), str "/nl",
          None, Some (decimal 41 (-2)), Some (str "< 0.41"), Some (str "normal")).
Proof. vm_compute. reflexivity. Qed.

Example test_lower_bound :
  tested_fields (str "Test 30 mg/dL > 39")
  = Some (str "Test", decimal 30 0, str "mg/dL",
          Some (decimal 39 0), None, Some (str "> 39"), Some (str "low")).
Proof. vm_compute. reflexivity. Qed.

Example test_comparison_without_space :
  tested_fields (str "CRP 0.3 mg/dL <0.5")
  = Some (str "CRP", decimal 3 (-1), str "mg/dL",
          None, Some (decimal 5 (-1)), Some (str "<0.5"), Some (str "normal")).
Proof. vm_compute. reflexivity. Qed.

Example test_colon_range :
  tested_fields (str "WBC: 7.5 x10E3/uL (3.6-10.0)")
  = Some (str "WBC", decimal 75 (-1), str "x10E3/uL",
          Some (decimal 36 (-1)), Some (decimal 10 0), None, Some (str "normal")).
Proof. vm_compute. reflexivity. Qed.

Example test_colon_range_prefix :
  tested_fields (str "Glucose: 95 mg/dL (Normal range: 70-100)")
  = Some (str "Glucose", decimal 95 0, str "mg/dL",
          Some (decimal 70 0), Some (decimal 100 0), None, Some (str "normal")).
Proof. vm_compute. reflexivity. Qed.

Example test_colon_comparison :
  tested_fields (str "TSH: 0.30 mIU/L (<0.41)")
  = Some (str "TSH", decimal 3 (-1), str "mIU/L",
          None, Some (decimal 41 (-2)), Some (str "<0.41"), Some (str "normal")).
Proof. vm_compute. reflexivity. Qed.

Example test_colon_greater_than :
  tested_fields (str "HDL: 55 mg/dL (>40)")
  = Some (str "HDL", decimal 55 0, str "mg/dL",
          Some (decimal 40 0), None, Some (str ">40"), Some (str "normal")).
Proof. vm_compute. reflexivity. Qed.

Example test_colon_comparison_high :
  tested_fields (str "CRP: 2.5 mg/dL (<1.0)")
  = Some (str "CRP", decimal 25 (-1), str "mg/dL",
          None, Some (decimal 1 0), Some (str "<1.0"), Some (str "high")).
Proof. vm_compute. reflexivity. Qed.

Example test_value_equals_min :
  option_map (fun r => snd r) (tested_fields (str "Test 3.6 unit 3.6-10.0"))
  = Some (Some (str "normal")).
Proof. vm_compute. reflexivity. Qed.

Example test_value_equals_max :
  option_map (fun r => snd r) (tested_fields (str "Test 10.0 unit 3.6-10.0"))
  = Some (Some (str "normal")).
Proof. vm_compute. reflexivity. Qed.

Example test_value_equals_upper_bound :
  option_map (fun r => snd r) (tested_fields (str "Test 0.41 unit < 0.41"))
  = Some (Some (str "normal")).
Proof. vm_compute. reflexivity. Qed.

Example test_value_equals_lower_bound :
  option_map (fun r => snd r) (tested_fields (str "Test 39 unit > 39"))
  = Some (Some (str "normal")).
Proof. vm_compute. reflexivity. Qed.

(** ** The matcher only reports what the pattern allows *)

Section MatcherSound.

Variable i : bool.
Variable A : Type.

Lemma repeat_set_sound (g : bool) (cs : cset) (r d : jsstring)
      (k : jsstring -> jsstring -> option A) (a : A) :
  repeat_set i g cs d r k = Some a ->
  exists w r', Forall (fun x => cset_match i cs x = true) w
               /\ r = w ++ r' /\ k (rev w ++ d) r' = Some a.
Proof.
  revert d.
  induction r as [|c t IH]; intros d H; simpl in H.
  - exists [], []; auto.
  - destruct (cset_match i cs c) eqn:Hc.
    + assert (Hstep : repeat_set i g cs (c :: d) t k = Some a \/ k d (c :: t) = Some a).
      { destruct g.
        - destruct (repeat_set i true cs (c :: d) t k); [left | right]; assumption.
        - destruct (k d (c :: t)); [right | left]; assumption. }
      destruct Hstep as [Hm | Hk].
      * destruct (IH _ Hm) as (w & r' & Hw & -> & Hk).
        exists (c :: w), r'. repeat split; auto.
        simpl. rewrite <- app_assoc. exact Hk.
      * exists [], (c :: t); auto.
    + exists [], (c :: t); auto.
Qed.

Lemma consumed_app (w d r0 r1 : jsstring) (c0 c1 : captures) :
  consumed (MState d r0 c0) (MState (rev w ++ d) r1 c1) = w.
Proof.
  unfold consumed, position; simpl.
  rewrite length_app, Nat.add_sub.
  rewrite <- (Nat.add_0_r (length (rev w))), firstn_app_2.
  simpl. rewrite app_nil_r. apply rev_involutive.
Qed.

Lemma rmatch_sound (r : regex) :
  forall (st : mstate) (k : mstate -> option A) (a : A),
    rmatch i r st k = Some a ->
    exists w st',
      sem i r w (caps st) (caps st')
      /\ done st' = rev w ++ done st
      /\ rest st = w ++ rest st'
      /\ k st' = Some a.
Proof.
  induction r as [ | cs | r1 IH1 r2 IH2 | r1 IH1 r2 IH2 | n r1 IH1 | r1 IH1
                 | g cs | g cs | | | ]; intros st k a H; simpl in H.
  - exists [], st; simpl; repeat split; auto.
  - destruct (rest st) as [|c t] eqn:Hr; [discriminate|].
    destruct (cset_match i cs c) eqn:Hc; [|discriminate].
    exists [c], (MState (c :: done st) t (caps st)); simpl.
    repeat split; eauto.
  - destruct (IH1 _ _ _ H) as (w1 & st1 & S1 & D1 & R1 & K1).
    destruct (IH2 _ _ _ K1) as (w2 & st2 & S2 & D2 & R2 & K2).
    exists (w1 ++ w2), st2; simpl. repeat split.
    + exists w1, w2, (caps st1); auto.
    + rewrite D2, D1, rev_app_distr, app_assoc; reflexivity.
    + rewrite R1, R2, app_assoc; reflexivity.
    + exact K2.
  - destruct (rmatch i r1 st k) eqn:H1.
    + destruct (IH1 _ _ _ H1) as (w & st' & S1 & D1 & R1 & K1).
      exists w, st'; simpl; rewrite <- H; auto.
    + destruct (IH2 _ _ _ H) as (w & st' & S1 & D1 & R1 & K1).
      exists w, st'; simpl; auto.
  - destruct (IH1 _ _ _ H) as (w & st' & S1 & D1 & R1 & K1).
    exists w, (MState (done st') (rest st') ((n, consumed st st') :: caps st')); simpl.
    assert (Hc : consumed st st' = w).
    { destruct st as [d0 r0 c0], st' as [d1 r1' c1]; simpl in D1; subst d1.
      apply consumed_app. }
    rewrite Hc in *. repeat split; auto.
    exists (caps st'); auto.
  - set (st0 := MState (done st) (rest st) (clear_caps (groups_of r1) (caps st))) in H.
    destruct (rmatch i r1 st0 _) eqn:H1.
    + destruct (IH1 _ _ _ H1) as (w & st' & S1 & D1 & R1 & K1).
      destruct (Nat.eqb (position st') (position st)) eqn:Hp; [discriminate|].
      exists w, st'; simpl. repeat split; auto.
      * left; split; [|exact S1].
        intros ->. unfold position in Hp. rewrite D1 in Hp. simpl in Hp.
        rewrite Nat.eqb_refl in Hp; discriminate.
      * rewrite <- H; exact K1.
    + exists [], st; simpl; repeat split; auto.
  - apply repeat_set_sound in H. destruct H as (w & r' & Hw & Hr & Hk).
    exists w, (MState (rev w ++ done st) r' (caps st)); simpl; auto.
  - destruct (rest st) as [|c t] eqn:Hr; [discriminate|].
    destruct (cset_match i cs c) eqn:Hc; [|discriminate].
    apply repeat_set_sound in H. destruct H as (w & r' & Hw & Ht & Hk).
    exists (c :: w), (MState (rev w ++ c :: done st) r' (caps st)); simpl.
    repeat split; auto.
    + discriminate.
    + rewrite <- app_assoc; reflexivity.
    + rewrite Ht; reflexivity.
  - destruct (done st) eqn:Hd; [|discriminate]. exists [], st; simpl; repeat split; auto.
  - destruct (rest st) eqn:Hr; [|discriminate]. exists [], st; simpl; repeat split; auto.
  - match type of H with (if ?b then _ else _) = _ => destruct b end; [|discriminate].
    exists [], st; simpl; repeat split; auto.
Qed.

End MatcherSound.

Lemma match_at_sound (R : RegExpObject) (d r : jsstring) (m : match_result) :
  match_at R d r = Some m ->
  exists post, r = matched m ++ post
               /\ sem (ignoreCase R) (source R) (matched m) [] (groups m).
Proof.
  unfold match_at. intros H.
  apply rmatch_sound in H. destruct H as (w & st' & Hs & Hd & Hr & Hk).
  simpl in *. injection Hk as <-. simpl.
  destruct st' as [d1 r1 c1]; simpl in *; subst d1.
  rewrite consumed_app. exists r1; auto.
Qed.

Lemma search_sound (R : RegExpObject) (r d : jsstring) (m : match_result) :
  search R d r = Some m ->
  exists pre post, r = pre ++ matched m ++ post
                   /\ sem (ignoreCase R) (source R) (matched m) [] (groups m).
Proof.
  revert d. induction r as [|c t IH]; intros d H; simpl in H.
  - destruct (match_at R d []) eqn:Hm; [|discriminate].
    injection H as ->. apply match_at_sound in Hm. destruct Hm as (post & Hr & Hs).
    exists [], post; auto.
  - destruct (match_at R d (c :: t)) eqn:Hm.
    + injection H as ->. apply match_at_sound in Hm. destruct Hm as (post & Hr & Hs).
      exists [], post; auto.
    + destruct (IH _ H) as (pre & post & Hr & Hs).
      exists (c :: pre), post; simpl; rewrite <- Hr; auto.
Qed.

(** Every match [exec] returns is a match of the pattern somewhere in the
    subject. *)
Lemma exec_sound (R : RegExpObject) (S : jsstring) (m : match_result) :
  exec R S = Some m ->
  exists pre post, S = pre ++ matched m ++ post
                   /\ sem (ignoreCase R) (source R) (matched m) [] (groups m).
Proof.
  unfold exec, RegExpBuiltinExec.
  replace (if global R || sticky R then 0%nat else 0%nat) with 0%nat
    by (destruct (global R || sticky R); reflexivity).
  simpl.
  destruct (sticky R).
  - destruct (match_at R [] S) eqn:Hm; simpl; [|discriminate].
    intros [= ->]. apply match_at_sound in Hm. destruct Hm as (post & Hr & Hs).
    exists [], post; auto.
  - destruct (search R [] S) eqn:Hm; simpl; [|discriminate].
    intros [= ->]. eapply search_sound; eauto.
Qed.

(** ** Properties of the captured groups *)

Lemma cap_clear_caps (ns : list nat) (c : captures) (n : nat) :
  cap n (clear_caps ns c) = if existsb (Nat.eqb n) ns then None else cap n c.
Proof.
  induction c as [|[k x] c IH]; simpl.
  - destruct (existsb (Nat.eqb n) ns); reflexivity.
  - destruct (existsb (Nat.eqb k) ns) eqn:Hk; simpl.
    + rewrite IH. destruct (existsb (Nat.eqb n) ns) eqn:Hn; [reflexivity|].
      destruct (Nat.eqb n k) eqn:E; [|reflexivity].
      apply Nat.eqb_eq in E. subst k. congruence.
    + destruct (Nat.eqb n k) eqn:E.
      * apply Nat.eqb_eq in E. subst k. rewrite Hk. reflexivity.
      * exact IH.
Qed.

Lemma cap_inv_clear (P : nat -> jsstring -> Prop) (ns : list nat) (c : captures) :
  cap_inv P c -> cap_inv P (clear_caps ns c).
Proof.
  intros H n v Hc. rewrite cap_clear_caps in Hc.
  destruct (existsb (Nat.eqb n) ns); [discriminate | auto].
Qed.

(** A match keeps every property its groups guarantee. *)
Lemma sem_cap_inv (i : bool) (P : nat -> jsstring -> Prop) (r : regex) :
  groups_ok i P r ->
  forall w c c', sem i r w c c' -> cap_inv P c -> cap_inv P c'.
Proof.
  induction r as [ | cs | r1 IH1 r2 IH2 | r1 IH1 r2 IH2 | n r1 IH1 | r1 IH1
                 | g cs | g cs | | | ]; simpl; intros G w c c' H Hc.
  - destruct H as [_ ->]; exact Hc.
  - destruct H as (x & _ & _ & ->); exact Hc.
  - destruct G as [G1 G2]. destruct H as (w1 & w2 & c1 & _ & H1 & H2).
    eapply IH2; eauto.
  - destruct G as [G1 G2]. destruct H as [H | H]; eauto.
  - destruct G as [G1 G2]. destruct H as (c1 & H1 & ->).
    intros k v. simpl. destruct (Nat.eqb k n) eqn:E.
    + intros [= <-]. apply Nat.eqb_eq in E. subst k. eapply G2; eauto.
    + apply (IH1 G1 _ _ _ H1 Hc).
  - destruct H as [[_ H] | [_ ->]]; [|exact Hc].
    eapply IH1; eauto. apply cap_inv_clear; exact Hc.
  - destruct H as [_ ->]; exact Hc.
  - destruct H as (_ & _ & ->); exact Hc.
  - destruct H as [_ ->]; exact Hc.
  - destruct H as [_ ->]; exact Hc.
  - destruct H as [_ ->]; exact Hc.
Qed.

Lemma exec_cap_inv (P : nat -> jsstring -> Prop) (R : RegExpObject) (S : jsstring)
      (m : match_result) :
  groups_ok (ignoreCase R) P (source R) ->
  exec R S = Some m -> cap_inv P (groups m).
Proof.
  intros G H. apply exec_sound in H. destruct H as (pre & post & _ & H).
  eapply sem_cap_inv; eauto. intros n v; discriminate.
Qed.

(** ** Numbers: order and sign *)

Lemma SFcompare_antisym (a b : number) :
  SFcompare b a = option_map CompOpp (SFcompare a b).
Proof.
  destruct a as [sa|sa| |sa ma ea], b as [sb|sb| |sb mb eb]; simpl;
    try reflexivity;
    try (destruct sa; reflexivity); try (destruct sb; reflexivity);
    try (destruct sa, sb; reflexivity).
  rewrite (Z.compare_antisym ea eb).
  change (Pos.compare_cont Eq mb ma) with (Pos.compare mb ma).
  change (Pos.compare_cont Eq ma mb) with (Pos.compare ma mb).
  rewrite (Pos.compare_antisym ma mb).
  destruct sa, sb; simpl; try reflexivity;
    destruct (ea ?= eb)%Z; simpl; try reflexivity;
    destruct (ma ?= mb)%positive; reflexivity.
Qed.

Lemma SFcompare_defined (a b : number) :
  isNaN a = false -> isNaN b = false -> exists c, SFcompare a b = Some c.
Proof.
  destruct a as [sa|sa| |sa ma ea], b as [sb|sb| |sb mb eb]; simpl;
    intros; try discriminate; eauto.
Qed.

(** On numbers, [a < b] fails exactly when [b <= a]. *)
Lemma num_lt_false_iff (a b : number) :
  isNaN a = false -> isNaN b = false ->
  (num_lt a b = false <-> num_le b a = true).
Proof.
  intros Ha Hb. unfold num_lt, num_le, SFltb, SFleb.
  rewrite (SFcompare_antisym a b).
  destruct (SFcompare_defined a b Ha Hb) as [c ->].
  destruct c; simpl; split; intros; congruence.
Qed.

Lemma nonnegative_le (x : number) :
  nonnegative x -> isNaN x = false -> num_le c0 x = true.
Proof.
  destruct x as [s|s| |s m e]; simpl; intros Hs H; try discriminate; subst; reflexivity.
Qed.

Lemma binary_round_aux_sign (s : bool) (m e : Z) (l : location) :
  match binary_round_aux prec emax s m e l with
  | S754_zero s' | S754_infinity s' | S754_finite s' _ _ => s' = s
  | S754_nan => True
  end.
Proof.
  unfold binary_round_aux.
  destruct (shr_fexp prec emax m e l) as [mrs' e'].
  destruct (shr_fexp prec emax _ e' loc_Exact) as [mrs'' e''].
  destruct (shr_m mrs''); auto.
  destruct (Z.leb e'' (emax - prec)); auto.
Qed.

Lemma decimal_nonnegative (m : N) (e : Z) : nonnegative (decimal m e).
Proof.
  unfold decimal, nonnegative.
  destruct m as [|p]; [reflexivity|].
  destruct e as [|k|k].
  - unfold binary_normalize.
    destruct (Z.pos p * 10 ^ 0)%Z eqn:E; try reflexivity; try lia.
    unfold binary_round. destruct (shl_align _ _ _) as [mz ez].
    apply (binary_round_aux_sign false).
  - unfold binary_normalize.
    destruct (Z.pos p * 10 ^ Z.pos k)%Z eqn:E; try reflexivity.
    + unfold binary_round. destruct (shl_align _ _ _) as [mz ez].
      apply (binary_round_aux_sign false).
    + pose proof (Z.pow_pos_nonneg 10 (Z.pos k)). lia.
  - destruct (SFdiv_core_binary _ _ _ _ _ _) as [[q e'] l].
    apply (binary_round_aux_sign false).
Qed.

Lemma StrUnsignedDecimalLiteral_nonnegative (s : jsstring) :
  nonnegative (StrUnsignedDecimalLiteral s).
Proof.
  unfold StrUnsignedDecimalLiteral.
  destruct (startsWith s (str "Infinity")); [reflexivity|].
  destruct (span_digits s) as [ip r1].
  destruct r1 as [|c t].
  - destruct ip; [exact I | apply decimal_nonnegative].
  - destruct (c =? 46).
    + destruct (span_digits t) as [fp r2].
      destruct ip, fp; try exact I; apply decimal_nonnegative.
    + destruct ip; [exact I | apply decimal_nonnegative].
Qed.

Lemma dropWhile_Forall (P : char16 -> Prop) (p : char16 -> bool) (s : jsstring) :
  Forall P s -> Forall P (dropWhile p s).
Proof.
  induction 1 as [|c t Hc Ht IH]; simpl; [constructor|].
  destruct (p c); [exact IH | constructor; assumption].
Qed.

(** A text without a minus sign never reads as a negative number. *)
Lemma parseFloat_nonnegative (s : jsstring) :
  Forall (fun c => c <> 45) s -> nonnegative (parseFloat s).
Proof.
  intros H. unfold parseFloat, trimStart.
  apply (dropWhile_Forall _ isWhiteSpace) in H.
  destruct (dropWhile isWhiteSpace s) as [|c t]; [exact I|].
  inversion H as [|? ? Hc Ht]; subst.
  destruct (c =? 45) eqn:E; [apply N.eqb_eq in E; contradiction|].
  destruct (c =? 43); apply StrUnsignedDecimalLiteral_nonnegative.
Qed.

Lemma num_lt_le_trans (a b c : number) :
  num_lt a b = true -> num_le b c = true -> num_lt a c = true.
Proof.
  unfold num_lt, num_le, SFltb, SFleb.
  destruct a as [sa|sa| |sa ma ea], b as [sb|sb| |sb mb eb], c as [sc|sc| |sc mc ec];
    simpl; try discriminate; try reflexivity;
    try (destruct sa; try discriminate; try reflexivity);
    try (destruct sb; try discriminate; try reflexivity);
    try (destruct sc; try discriminate; try reflexivity).
  all: change (Pos.compare_cont Eq ma mb) with (Pos.compare ma mb);
       change (Pos.compare_cont Eq mb mc) with (Pos.compare mb mc);
       change (Pos.compare_cont Eq ma mc) with (Pos.compare ma mc).
  all: destruct (Z.compare_spec ea eb), (Z.compare_spec eb ec), (Z.compare_spec ea ec);
       try discriminate; try reflexivity; try lia;
       destruct (Pos.compare_spec ma mb), (Pos.compare_spec mb mc),
                (Pos.compare_spec ma mc);
       simpl; try discriminate; try reflexivity; try lia.
Qed.

Lemma num_lt_asym (a b : number) : num_lt a b = true -> num_lt b a = false.
Proof.
  unfold num_lt, SFltb. rewrite (SFcompare_antisym a b).
  destruct (SFcompare a b) as [[| |]|]; simpl; congruence.
Qed.

(** ** Character classes that ignore case for nothing *)

Ltac bool_cases :=
  repeat match goal with
         | |- context [N.leb ?a ?b] => destruct (N.leb_spec a b); try lia
         | |- context [N.eqb ?a ?b] => destruct (N.eqb_spec a b); try lia
         end; simpl; try reflexivity; try lia.

Ltac unfold_classes :=
  cbn [existsb citem_mem orb xorb];
  repeat (progress (try unfold isWhiteSpace; try unfold isDigit; try unfold in_range)).

Ltac case_blind x :=
  try unfold numeric_chars; try unfold comparison_ops; try unfold ch;
  simpl N_of_ascii;
  unfold cset_match, case_variants, isLower, isUpper, in_range;
  let E := fresh "E" in
  destruct ((97 <=? x) && (x <=? 122)) eqn:E;
  [ apply andb_prop in E; destruct E as [?%N.leb_le ?%N.leb_le];
    unfold_classes; bool_cases
  | clear E; destruct ((65 <=? x) && (x <=? 90)) eqn:E;
    [ apply andb_prop in E; destruct E as [?%N.leb_le ?%N.leb_le];
      unfold_classes; bool_cases
    | clear E; destruct ((x =? 181) || (x =? 924) || (x =? 956)) eqn:E;
      [ apply orb_prop in E; destruct E as [E | E];
        [apply orb_prop in E; destruct E as [E | E]|];
        apply N.eqb_eq in E; subst x; reflexivity
      | reflexivity ] ] ].

Lemma numeric_case_blind (x : char16) :
  cset_match true numeric_chars x = cset_match false numeric_chars x.
Proof. case_blind x. Qed.

Lemma space_case_blind (x : char16) :
  cset_match true (Class false [CSpace]) x = cset_match false (Class false [CSpace]) x.
Proof. case_blind x. Qed.

Lemma comparison_case_blind (x : char16) :
  cset_match true comparison_ops x = cset_match false comparison_ops x.
Proof. case_blind x. Qed.

Lemma space_class (x : char16) :
  cset_match false (Class false [CSpace]) x = isWhiteSpace x.
Proof. unfold cset_match. simpl. rewrite !orb_false_r. reflexivity. Qed.

Lemma numeric_not_space (x : char16) :
  cset_match false numeric_chars x = true -> isWhiteSpace x = false.
Proof.
  unfold numeric_chars, ch, cset_match. simpl N_of_ascii. unfold_classes.
  bool_cases; discriminate.
Qed.

Lemma comparison_op_cases (x : char16) :
  cset_match false comparison_ops x = true ->
  x = 60 \/ x = 62 \/ x = 0x2264 \/ x = 0x2265.
Proof.
  unfold comparison_ops, ch, cset_match. simpl N_of_ascii. unfold_classes.
  bool_cases; auto; discriminate.
Qed.

(** ** Running the comparison expression on a comparison text *)

(** A greedy repetition takes the whole run when the rest of the pattern
    succeeds there. *)
Lemma repeat_set_greedy_run (i : bool) (A : Type) (cs : cset) (l : jsstring) :
  Forall (fun x => cset_match i cs x = true) l ->
  forall (d r : jsstring) (k : jsstring -> jsstring -> option A) (a : A),
    match r with [] => True | x :: _ => cset_match i cs x = false end ->
    k (rev l ++ d) r = Some a ->
    repeat_set i true cs d (l ++ r) k = Some a.
Proof.
  induction 1 as [|c l Hc Hl IH]; intros d r k a Hr Hk; simpl in *.
  - destruct r as [|x t]; simpl; [exact Hk|]. rewrite Hr. exact Hk.
  - rewrite Hc. rewrite (IH (c :: d) r k a Hr); [reflexivity|].
    rewrite <- app_assoc in Hk. exact Hk.
Qed.

Lemma repeat_set_greedy_all (i : bool) (A : Type) (cs : cset) (l d : jsstring)
      (k : jsstring -> jsstring -> option A) (a : A) :
  Forall (fun x => cset_match i cs x = true) l ->
  k (rev l ++ d) [] = Some a ->
  repeat_set i true cs d l k = Some a.
Proof.
  intros Hl Hk. rewrite <- (app_nil_r l) at 1.
  apply repeat_set_greedy_run; auto.
Qed.

Lemma exec_match_at (R : RegExpObject) (S : jsstring) (m : match_result) :
  sticky R = false -> match_at R [] S = Some m -> exec R S = Some m.
Proof.
  intros Hy H. unfold exec, RegExpBuiltinExec. rewrite Hy.
  replace (if global R || false then 0%nat else 0%nat) with 0%nat
    by (destruct (global R || false); reflexivity).
  simpl. destruct S; simpl; rewrite H; reflexivity.
Qed.

Lemma consumed_cons (w d r0 r1 : jsstring) (c0 c1 : captures) (x : char16) :
  consumed (MState d r0 c0) (MState (rev w ++ x :: d) r1 c1) = x :: w.
Proof.
  replace (rev w ++ x :: d) with (rev (x :: w) ++ d)
    by (simpl; rewrite <- app_assoc; reflexivity).
  apply consumed_app.
Qed.

(** On a comparison text, [comparison_regexp] captures the operator and the
    number. *)
Lemma comparison_regexp_exec (op : char16) (ws ds : jsstring) :
  cset_match false comparison_ops op = true ->
  Forall (fun x => isWhiteSpace x = true) ws ->
  Forall (fun x => cset_match false numeric_chars x = true) ds ->
  ds <> [] ->
  exists cm, exec comparison_regexp (op :: ws ++ ds) = Some cm
             /\ group 1 cm = Some [op] /\ group 2 cm = Some ds.
Proof.
  intros Hop Hws Hds Hne.
  destruct ds as [|c ds]; [contradiction|].
  inversion Hds as [|? ? Hc Hds']; subst.
  eexists. split.
  - apply exec_match_at; [reflexivity|].
    unfold match_at. simpl. unfold COMPARISON_OP. rewrite Hop.
    apply repeat_set_greedy_run.
    + eapply Forall_impl; [|exact Hws]. intros x Hx. rewrite space_class. exact Hx.
    + rewrite space_class. apply numeric_not_space. exact Hc.
    + rewrite Hc. apply repeat_set_greedy_all; [exact Hds'|]. reflexivity.
  - unfold group. simpl. split.
    + reflexivity.
    + rewrite consumed_cons. reflexivity.
Qed.

Lemma trim_unchanged (s : jsstring) :
  match s with [] => True | a :: _ => isWhiteSpace a = false end ->
  match rev s with [] => True | b :: _ => isWhiteSpace b = false end ->
  trim s = s.
Proof.
  intros H1 H2. unfold trim.
  destruct s as [|a t]; [reflexivity|].
  simpl dropWhile. rewrite H1.
  destruct (rev (a :: t)) as [|b l] eqn:E.
  - apply (f_equal (@rev _)) in E. rewrite rev_involutive in E. discriminate.
  - simpl. rewrite H2. rewrite <- E. apply rev_involutive.
Qed.

Lemma comparison_text_trim (v : jsstring) : comparison_text v -> trim v = v.
Proof.
  intros (op & ws & ds & -> & Hop & Hws & Hds & Hne).
  apply trim_unchanged.
  - apply comparison_op_cases in Hop.
    destruct Hop as [-> | [-> | [-> | ->]]]; reflexivity.
  - change (op :: ws ++ ds) with ([op] ++ ws ++ ds).
    rewrite !rev_app_distr.
    apply Forall_rev in Hds.
    destruct (rev ds) as [|b l] eqn:E.
    + apply (f_equal (@rev _)) in E. rewrite rev_involutive in E.
      simpl in E. contradiction.
    + simpl. inversion Hds; subst. apply numeric_not_space. assumption.
Qed.

Lemma dropWhile_app (p : char16 -> bool) (l r : jsstring) :
  Forall (fun x => p x = true) l -> dropWhile p (l ++ r) = dropWhile p r.
Proof.
  induction 1 as [|c l Hc Hl IH]; simpl; [reflexivity|]. rewrite Hc. exact IH.
Qed.

Lemma filter_unchanged (f : char16 -> bool) (l : jsstring) :
  Forall (fun x => f x = true) l -> filter f l = l.
Proof.
  induction 1 as [|c l Hc Hl IH]; simpl; [reflexivity|]. rewrite Hc, IH. reflexivity.
Qed.

(** The operand of a comparison text is the number [comparison_bound]
    reads from group 2. *)
Lemma comparison_operand_group (op : char16) (ws ds : jsstring) :
  Forall (fun x => isWhiteSpace x = true) ws ->
  comparison_operand (op :: ws ++ ds) = parseFloat (remove_all commas ds).
Proof.
  intros Hws. unfold comparison_operand, remove_all. simpl tl.
  rewrite filter_app.
  rewrite (filter_unchanged _ ws).
  - unfold parseFloat, trimStart. rewrite dropWhile_app by exact Hws. reflexivity.
  - eapply Forall_impl; [|exact Hws]. intros x Hx.
    destruct (cset_match false commas x) eqn:E; [|reflexivity].
    exfalso. revert E Hx. unfold commas, ch, cset_match. simpl N_of_ascii.
    unfold_classes. bool_cases; discriminate.
Qed.

(** ** Which fields each step of the loop body writes *)

Ltac split_cases :=
  repeat match goal with
         | |- context [match ?x with _ => _ end] => destruct x eqn:?
         | |- context [if ?x then _ else _] => destruct x eqn:?
         end.

Ltac frame := cbv zeta; intros; split_cases; simpl; repeat split; congruence.

Lemma comparison_bound_frame (t : jsstring) (p : ParsedTestComponent) :
  let p' := comparison_bound t p in
  test_name p' = test_name p /\ abbreviation p' = abbreviation p
  /\ canonical_test_name p' = canonical_test_name p /\ value p' = value p
  /\ unit p' = unit p /\ ref_range_text p' = ref_range_text p
  /\ status p' = status p /\ category p' = category p
  /\ loinc_code p' = loinc_code p /\ original_line p' = original_line p
  /\ issues p' = issues p.
Proof. unfold comparison_bound. frame. Qed.

Lemma parse_reference_range_frame (m : match_result) (pc : ParsedTestComponent * number) :
  let p := fst pc in
  let p' := fst (parse_reference_range m pc) in
  test_name p' = test_name p /\ abbreviation p' = abbreviation p
  /\ canonical_test_name p' = canonical_test_name p /\ value p' = value p
  /\ unit p' = unit p /\ status p' = status p /\ category p' = category p
  /\ loinc_code p' = loinc_code p /\ original_line p' = original_line p
  /\ issues p' = issues p.
Proof.
  destruct pc as [p c]. unfold parse_reference_range.
  destruct (truthy (group 4 m) && truthy (group 5 m)).
  - frame.
  - destruct (truthy (group 6 m)); [|frame].
    cbv zeta. simpl fst.
    destruct (comparison_bound_frame (trim (defined (group 6 m)))
                (set_ref_range_text (Some (trim (defined (group 6 m)))) p))
      as (H1 & H2 & H3 & H4 & H5 & H6 & H7 & H8 & H9 & H10 & H11).
    rewrite H1, H2, H3, H4, H5, H7, H8, H9, H10, H11. simpl. repeat split; reflexivity.
Qed.

Lemma check_not_estab_frame (t : jsstring) (pc : ParsedTestComponent * number) :
  let p := fst pc in
  let p' := fst (check_not_estab t pc) in
  test_name p' = test_name p /\ abbreviation p' = abbreviation p
  /\ canonical_test_name p' = canonical_test_name p /\ value p' = value p
  /\ unit p' = unit p /\ ref_range_min p' = ref_range_min p
  /\ ref_range_max p' = ref_range_max p /\ status p' = status p
  /\ category p' = category p /\ loinc_code p' = loinc_code p
  /\ original_line p' = original_line p /\ issues p' = issues p.
Proof. destruct pc as [p c]. unfold check_not_estab. frame. Qed.

Lemma parse_status_frame (t : jsstring) (pc : ParsedTestComponent * number) :
  let p := fst pc in
  let p' := fst (parse_status t pc) in
  test_name p' = test_name p /\ abbreviation p' = abbreviation p
  /\ canonical_test_name p' = canonical_test_name p /\ value p' = value p
  /\ unit p' = unit p /\ ref_range_min p' = ref_range_min p
  /\ ref_range_max p' = ref_range_max p /\ ref_range_text p' = ref_range_text p
  /\ category p' = category p /\ loinc_code p' = loinc_code p
  /\ original_line p' = original_line p /\ issues p' = issues p.
Proof. destruct pc as [p c]. unfold parse_status. frame. Qed.

Lemma detect_abbreviation_frame (t : jsstring) (pc : ParsedTestComponent * number) :
  let p := fst pc in
  let p' := fst (detect_abbreviation t pc) in
  canonical_test_name p' = canonical_test_name p /\ value p' = value p
  /\ unit p' = unit p /\ ref_range_min p' = ref_range_min p
  /\ ref_range_max p' = ref_range_max p /\ ref_range_text p' = ref_range_text p
  /\ status p' = status p /\ category p' = category p
  /\ loinc_code p' = loinc_code p /\ original_line p' = original_line p
  /\ issues p' = issues p.
Proof. destruct pc as [p c]. unfold detect_abbreviation. frame. Qed.

Lemma auto_status_frame (p : ParsedTestComponent) :
  let p' := auto_status p in
  test_name p' = test_name p /\ abbreviation p' = abbreviation p
  /\ canonical_test_name p' = canonical_test_name p /\ value p' = value p
  /\ unit p' = unit p /\ ref_range_min p' = ref_range_min p
  /\ ref_range_max p' = ref_range_max p /\ ref_range_text p' = ref_range_text p
  /\ category p' = category p /\ loinc_code p' = loinc_code p
  /\ original_line p' = original_line p /\ confidence p' = confidence p
  /\ issues p' = issues p.
Proof. unfold auto_status. frame. Qed.

Lemma validate_frame (p : ParsedTestComponent) :
  let p' := validate p in
  test_name p' = test_name p /\ abbreviation p' = abbreviation p
  /\ canonical_test_name p' = canonical_test_name p /\ value p' = value p
  /\ unit p' = unit p /\ ref_range_min p' = ref_range_min p
  /\ ref_range_max p' = ref_range_max p /\ ref_range_text p' = ref_range_text p
  /\ status p' = status p /\ category p' = category p
  /\ loinc_code p' = loinc_code p /\ original_line p' = original_line p.
Proof. unfold validate, push. frame. Qed.

Lemma build_record_inv (n : patternName) (t : jsstring) (m : match_result)
      (p : ParsedTestComponent) :
  build_record n t m = Some p ->
  exists testName v u c,
    v = parseFloat (remove_all commas (defined (group 2 m)))
    /\ isNaN v = false
    /\ In c (either c0_3 (either c0_2 [c0_5]))
    /\ (n = fullPattern -> In c [num_add c0_5 c0_3; num_add (num_add c0_5 c0_2) c0_3])
    /\ let pc1 := parse_reference_range m (initial_record t testName v u, c) in
       let pc2 := check_not_estab t pc1 in
       let pc3 := parse_status t pc2 in
       let pc4 := detect_abbreviation testName pc3 in
       p = set_confidence (Math_min (snd pc4) c1_0) (auto_status (fst pc4)).
Proof.
  unfold build_record. intros H.
  destruct (negb (truthy _) || negb (truthy _)) eqn:Ht; [discriminate|].
  destruct (isNaN _) eqn:Hn; [discriminate|].
  injection H as <-.
  apply orb_false_elim in Ht. destruct Ht as [_ Hv].
  destruct (group 2 m) as [g2|]; [|discriminate]. simpl in Hn |- *.
  eexists _, _, _, _. split; [reflexivity|]. split; [exact Hn|].
  split; [|split; [|reflexivity]].
  - destruct (nonempty _), (is_fullPattern n); simpl; auto 10.
  - intros ->. destruct (nonempty _); simpl; auto.
Qed.

(** ** From the output list back to the line *)

Lemma match_patterns_deciding (t : jsstring) (es : list (patternName * RegExpObject))
      (q : ParsedTestComponent) :
  match_patterns t es = Some q ->
  exists n R m, In (n, R) es /\ exec R t = Some m
                /\ deciding_match t es = Some (n, m)
                /\ build_record n t m = Some q.
Proof.
  induction es as [|[n R] es IH]; simpl; [discriminate|].
  unfold try_pattern at 1 2. simpl.
  destruct (exec R t) as [m|] eqn:He.
  - destruct (build_record n t m) as [q'|] eqn:Hb.
    + intros [= ->]. exists n, R, m. simpl. auto.
    + intros H. destruct (IH H) as (n' & R' & m' & Hin & Hx & Hd & Hq).
      exists n', R', m'. auto.
  - intros H. destruct (IH H) as (n' & R' & m' & Hin & Hx & Hd & Hq).
    exists n', R', m'. auto.
Qed.

Lemma deciding_match_patterns (t : jsstring) (es : list (patternName * RegExpObject))
      (n : patternName) (m : match_result) :
  deciding_match t es = Some (n, m) ->
  exists R q, In (n, R) es /\ exec R t = Some m
              /\ match_patterns t es = Some q
              /\ build_record n t m = Some q.
Proof.
  induction es as [|[n' R] es IH]; simpl; [discriminate|].
  unfold try_pattern at 1 2. simpl.
  destruct (exec R t) as [m'|] eqn:He.
  - destruct (build_record n' t m') as [q'|] eqn:Hb.
    + simpl. intros [= -> ->]. exists R, q'. auto.
    + intros H. destruct (IH H) as (R' & q & Hin & Hx & Hm & Hq).
      exists R', q. auto.
  - intros H. destruct (IH H) as (R' & q & Hin & Hx & Hm & Hq).
    exists R', q. auto.
Qed.

Lemma process_line_inv (s : ParseSettings) (i : nat) (line : jsstring)
      (p : ParsedTestComponent) :
  process_line s i line = Parsed p ->
  exists q, extract (trim line) = Some q /\ p = validate q.
Proof.
  unfold process_line.
  destruct (negb (nonempty (trim line))); [discriminate|].
  destruct (_ && _ && _); [discriminate|].
  destruct (extract (trim line)) as [q|]; [|discriminate].
  intros [= <-]. exists q; auto.
Qed.

Lemma forEach_components (s : ParseSettings) (lines : list jsstring) :
  forall (i : nat) (acc : ParseResult) (p : ParsedTestComponent),
    In p (components (forEach s i lines acc)) ->
    In p (components acc)
    \/ exists index line, In line lines /\ process_line s index line = Parsed p.
Proof.
  induction lines as [|line more IH]; intros i acc p H; simpl in H; [auto|].
  apply IH in H. destruct H as [H | (index & l & Hin & Hp)].
  - destruct (process_line s i line) as [|q|] eqn:Hq; simpl in H; auto.
    apply in_app_or in H. destruct H as [H | [<- | []]]; auto.
    right. exists i, line. simpl; auto.
  - right. exists index, l. simpl; auto.
Qed.

(** Every record of the output list is the outcome of one line of the text. *)
Lemma parseText_components (s : ParseSettings) (text : jsstring)
      (p : ParsedTestComponent) :
  In p (components (parseText s text)) ->
  exists index line, In line (split_lines text)
                     /\ process_line s index line = Parsed p.
Proof.
  unfold parseText. intros H.
  apply forEach_components in H. destruct H as [[] | (index & line & Hin & Hp)].
  apply filter_In in Hin. destruct Hin as [Hin _].
  exists index, line; auto.
Qed.

(** What every record of the pattern table has, whatever the line. *)
Lemma build_record_basic (n : patternName) (t : jsstring) (m : match_result)
      (q : ParsedTestComponent) :
  build_record n t m = Some q ->
  original_line q = t
  /\ canonical_test_name q = None
  /\ category q = None /\ loinc_code q = None
  /\ issues q = []
  /\ value q = parseFloat (remove_all commas (defined (group 2 m)))
  /\ isNaN (value q) = false.
Proof.
  intros H. apply build_record_inv in H.
  destruct H as (tn & v & u & c & Hv & Hn & _ & _ & Hq). cbv zeta in Hq.
  set (pc1 := parse_reference_range m (initial_record t tn v u, c)) in Hq.
  set (pc2 := check_not_estab t pc1) in Hq.
  set (pc3 := parse_status t pc2) in Hq.
  set (pc4 := detect_abbreviation tn pc3) in Hq.
  pose proof (parse_reference_range_frame m (initial_record t tn v u, c)) as F1.
  pose proof (check_not_estab_frame t pc1) as F2.
  pose proof (parse_status_frame t pc2) as F3.
  pose proof (detect_abbreviation_frame tn pc3) as F4.
  pose proof (auto_status_frame (fst pc4)) as F5.
  cbv zeta in F1, F2, F3, F4, F5. fold pc1 in F1. fold pc2 in F2. fold pc3 in F3.
  fold pc4 in F4.
  simpl in F1.
  destruct F1 as (?&?&?&?&?&?&?&?&?&?), F2 as (?&?&?&?&?&?&?&?&?&?&?&?),
           F3 as (?&?&?&?&?&?&?&?&?&?&?&?), F4 as (?&?&?&?&?&?&?&?&?&?&?),
           F5 as (?&?&?&?&?&?&?&?&?&?&?&?&?).
  subst q. simpl. rewrite <- Hv.
  repeat split; congruence.
Qed.

Lemma fallback_basic (t : jsstring) (q : ParsedTestComponent) :
  fallback t = Some q ->
  original_line q = t
  /\ canonical_test_name q = None
  /\ category q = None /\ loinc_code q = None
  /\ issues q = [str "Could not detect unit"; str "Could not detect reference range"]
  /\ unit q = []
  /\ ref_range_min q = None /\ ref_range_max q = None /\ ref_range_text q = None
  /\ confidence q = c0_2
  /\ (exists m, exec fallback_regexp t = Some m
                /\ value q = parseFloat (remove_all commas (defined (group 2 m))))
  /\ isNaN (value q) = false.
Proof.
  unfold fallback. destruct (exec fallback_regexp t) as [m|]; [|discriminate].
  destruct (isNaN _) eqn:Hn; [discriminate|]. simpl.
  intros [= <-]. simpl. repeat split; eauto.
Qed.

Lemma extract_inv (t : jsstring) (q : ParsedTestComponent) :
  extract t = Some q ->
  (exists n R m, In (n, R) patterns /\ exec R t = Some m
                 /\ deciding_match t patterns = Some (n, m)
                 /\ build_record n t m = Some q)
  \/ fallback t = Some q.
Proof.
  unfold extract. destruct (match_patterns t patterns) as [q'|] eqn:Hm.
  - intros [= ->]. left. apply match_patterns_deciding; assumption.
  - auto.
Qed.

(** ** The range and the status of a record of the pattern table *)

Lemma parse_status_none (t : jsstring) (pc : ParsedTestComponent * number) :
  no_status_token t -> parse_status t pc = pc.
Proof.
  intros [H1 H2]. destruct pc as [p c]. unfold parse_status. rewrite H1, H2.
  reflexivity.
Qed.

Lemma auto_status_derived (p : ParsedTestComponent) :
  status p = None ->
  status (auto_status p)
  = derived_status (value p) (ref_range_min p) (ref_range_max p).
Proof.
  intros H. unfold auto_status, derived_status. rewrite H. simpl.
  destruct (ref_range_min p), (ref_range_max p); simpl; try assumption;
    try reflexivity.
  destruct (num_gt (value p) n0); [reflexivity|].
  destruct (num_lt (value p) n); reflexivity.
Qed.

Lemma check_not_estab_text (t : jsstring) (pc : ParsedTestComponent * number) :
  no_range (fst pc) = false -> check_not_estab t pc = pc.
Proof.
  destruct pc as [p c]. simpl. intros H. unfold check_not_estab. rewrite H.
  reflexivity.
Qed.

(** What [build_record] keeps of the range it parsed, and the status it
    derives when the line names none. *)
Lemma build_record_range (n : patternName) (t : jsstring) (m : match_result)
      (q : ParsedTestComponent) :
  build_record n t m = Some q ->
  exists tn v u c,
    let p1 := fst (parse_reference_range m (initial_record t tn v u, c)) in
    v = parseFloat (remove_all commas (defined (group 2 m)))
    /\ isNaN v = false
    /\ value q = v
    /\ ref_range_min q = ref_range_min p1
    /\ ref_range_max q = ref_range_max p1
    /\ (no_range p1 = false -> ref_range_text q = ref_range_text p1)
    /\ (no_status_token t ->
        status q = derived_status v (ref_range_min p1) (ref_range_max p1)).
Proof.
  intros H. apply build_record_inv in H.
  destruct H as (tn & v & u & c & Hv & Hn & _ & _ & Hq). cbv zeta in Hq.
  exists tn, v, u, c. cbv zeta.
  set (pc1 := parse_reference_range m (initial_record t tn v u, c)) in *.
  set (pc2 := check_not_estab t pc1) in *.
  set (pc3 := parse_status t pc2) in *.
  set (pc4 := detect_abbreviation tn pc3) in *.
  pose proof (parse_reference_range_frame m (initial_record t tn v u, c)) as F1.
  pose proof (check_not_estab_frame t pc1) as F2.
  pose proof (parse_status_frame t pc2) as F3.
  pose proof (detect_abbreviation_frame tn pc3) as F4.
  pose proof (auto_status_frame (fst pc4)) as F5.
  cbv zeta in F1, F2, F3, F4, F5. fold pc1 in F1. fold pc2 in F2. fold pc3 in F3.
  fold pc4 in F4.
  simpl in F1.
  destruct F1 as (?&?&?&?&?&?&?&?&?&?), F2 as (?&?&?&?&?&?&?&?&?&?&?&?),
           F3 as (?&?&?&?&?&?&?&?&?&?&?&?), F4 as (?&?&?&?&?&?&?&?&?&?&?),
           F5 as (?&?&?&?&?&?&?&?&?&?&?&?&?).
  subst q. cbn [value ref_range_min ref_range_max ref_range_text status set_confidence].
  split; [exact Hv|]. split; [exact Hn|].
  split; [congruence|]. split; [congruence|]. split; [congruence|]. split.
  - intros Hr. unfold pc2 in *. rewrite (check_not_estab_text t pc1 Hr) in *.
    congruence.
  - intros Ht. unfold pc3 in *. rewrite (parse_status_none t pc2 Ht) in *.
    rewrite auto_status_derived by congruence.
    congruence.
Qed.

Lemma parseFloat_empty : isNaN (parseFloat []) = true.
Proof. reflexivity. Qed.

Lemma parse_reference_range_pair (m : match_result) (p : ParsedTestComponent)
      (c : number) (smin smax : jsstring) :
  group 4 m = Some smin -> group 5 m = Some smax ->
  isNaN (parseFloat (remove_all commas smin)) = false ->
  isNaN (parseFloat (remove_all commas smax)) = false ->
  fst (parse_reference_range m (p, c))
  = set_ref_range_max (Some (parseFloat (remove_all commas smax)))
      (set_ref_range_min (Some (parseFloat (remove_all commas smin))) p).
Proof.
  intros H4 H5 Hmin Hmax. unfold parse_reference_range. rewrite H4, H5.
  destruct smin as [|a smin]; [discriminate Hmin|].
  destruct smax as [|b smax]; [discriminate Hmax|].
  simpl. rewrite Hmin, Hmax. reflexivity.
Qed.

Lemma high_not_normal : Some (str "high") <> Some (str "normal").
Proof. vm_compute. discriminate. Qed.

Lemma low_not_normal : Some (str "low") <> Some (str "normal").
Proof. vm_compute. discriminate. Qed.

(** ** What group 6 holds, and when *)

Ltac sem_inv :=
  repeat match goal with
         | H : exists _, _ |- _ => destruct H
         | H : _ /\ _ |- _ => destruct H
         | H : _ \/ _ |- _ => destruct H
         end.

Lemma comparison_group_text (n : nat) (w : jsstring) (c c' : captures) :
  sem true (seq [COMPARISON_OP; ZERO_OR_MORE_SPACES; Plus true numeric_chars]) w c c' ->
  comparison_text w.
Proof.
  simpl.
  intros (w1 & w2 & c1 & -> & (op & -> & Hop & ->)
          & (ws & ds & c2 & -> & (Hws & ->) & (Hne & Hds & ->))).
  exists op, ws, ds.
  split; [reflexivity|].
  split; [rewrite <- comparison_case_blind; exact Hop|].
  split; [eapply Forall_impl; [|exact Hws]; intros x Hx; cbv beta in Hx;
          rewrite space_case_blind, space_class in Hx; exact Hx|].
  split; [eapply Forall_impl; [|exact Hds]; intros x Hx; cbv beta in Hx;
          rewrite numeric_case_blind in Hx; exact Hx|].
  exact Hne.
Qed.

Lemma patterns_comparison_captured (e : patternName * RegExpObject) :
  In e patterns ->
  groups_ok (ignoreCase (snd e)) comparison_captured (source (snd e)).
Proof.
  simpl. intros [<- | [<- | [<- | [<- | []]]]];
    unfold comparison_captured; simpl; repeat split; intros;
    try discriminate;
    eapply (comparison_group_text 6); simpl; eauto.
Qed.

(** Group 6 is a comparison text, and the pattern that captured it
    captured no group 4. *)
Lemma comparison_group_alone (e : patternName * RegExpObject) (t : jsstring)
      (m : match_result) (comp : jsstring) :
  In e patterns -> exec (snd e) t = Some m -> group 6 m = Some comp ->
  comparison_text comp /\ group 4 m = None.
Proof.
  intros He Hx H6. split.
  - apply (exec_cap_inv comparison_captured (snd e) t m
             (patterns_comparison_captured e He) Hx 6%nat comp H6).
    reflexivity.
  - apply exec_sound in Hx. destruct Hx as (pre & post & _ & Hs).
    unfold group in *. revert H6 Hs. generalize (groups m) (matched m).
    intros c w H6 Hs.
    simpl in He. destruct He as [<- | [<- | [<- | [<- | []]]]];
      simpl in Hs; sem_inv; subst; simpl in H6 |- *;
      try discriminate; reflexivity.
Qed.

Lemma jsstring_eqb_single (x y : char16) : jsstring_eqb [x] [y] = (x =? y).
Proof.
  unfold jsstring_eqb.
  destruct (list_eq_dec N.eq_dec [x] [y]) as [E | E]; destruct (N.eqb_spec x y);
    try reflexivity.
  - injection E as ->. contradiction.
  - subst. contradiction.
Qed.

(** The bound a comparison text sets. *)
Lemma comparison_bound_text (comp : jsstring) (p : ParsedTestComponent) :
  comparison_text comp ->
  isNaN (comparison_operand comp) = false ->
  exists op rest,
    comp = op :: rest
    /\ ((upper_operator op = true
         /\ comparison_bound comp p
            = set_ref_range_max (Some (comparison_operand comp)) p)
        \/ (lower_operator op = true
            /\ comparison_bound comp p
               = set_ref_range_min (Some (comparison_operand comp)) p)).
Proof.
  intros (op & ws & ds & -> & Hop & Hws & Hds & Hne) Hn.
  exists op, (ws ++ ds). split; [reflexivity|].
  destruct (comparison_regexp_exec op ws ds Hop Hws Hds Hne) as (cm & Hx & H1 & H2).
  rewrite (comparison_operand_group op ws ds Hws) in *.
  unfold comparison_bound. rewrite Hx, H1, H2. simpl defined. rewrite Hn. simpl negb.
  cbv iota.
  change (str "<") with [60]. change (str ">") with [62].
  rewrite !jsstring_eqb_single.
  apply comparison_op_cases in Hop.
  destruct Hop as [-> | [-> | [-> | ->]]]; simpl; auto.
Qed.

Lemma parse_reference_range_comparison (m : match_result) (p : ParsedTestComponent)
      (c : number) (comp : jsstring) :
  group 4 m = None -> group 6 m = Some comp -> comparison_text comp ->
  fst (parse_reference_range m (p, c))
  = comparison_bound comp (set_ref_range_text (Some comp) p).
Proof.
  intros H4 H6 Hc. unfold parse_reference_range. rewrite H4, H6. simpl.
  rewrite (comparison_text_trim comp Hc).
  destruct Hc as (op & ws & ds & -> & _). reflexivity.
Qed.

(** ** C1: the colon layout with a numeric range *)

(** C1, as amended.  Take a line that the colon pattern decides and in which
    that pattern captured a minimum and a maximum that read as numbers, with
    no status named in the line.  Its record has [ref_range_min] equal to the
    minimum and [ref_range_max] equal to the maximum; its status is 'normal'
    exactly when minimum <= value <= maximum; a value above the maximum gives
    'high'; a value below the minimum gives 'low' unless it is above the
    maximum as well, which the 'high' test, coming first, decides, and which
    cannot happen when minimum <= maximum. *)
Theorem colon_range_status (parseSettings : ParseSettings) (index : nat)
        (line : jsstring) (p : ParsedTestComponent) (m : match_result)
        (smin smax : jsstring) :
  process_line parseSettings index line = Parsed p ->
  deciding_match (trim line) patterns = Some (fullPattern, m) ->
  group 4 m = Some smin -> group 5 m = Some smax ->
  isNaN (parseFloat (remove_all commas smin)) = false ->
  isNaN (parseFloat (remove_all commas smax)) = false ->
  no_status_token (trim line) ->
  let rmin := parseFloat (remove_all commas smin) in
  let rmax := parseFloat (remove_all commas smax) in
  ref_range_min p = Some rmin
  /\ ref_range_max p = Some rmax
  /\ (status p = Some (str "normal")
      <-> num_le rmin (value p) = true /\ num_le (value p) rmax = true)
  /\ (num_gt (value p) rmax = true -> status p = Some (str "high"))
  /\ (num_lt (value p) rmin = true -> num_gt (value p) rmax = false ->
      status p = Some (str "low"))
  /\ (num_le rmin rmax = true -> num_lt (value p) rmin = true ->
      status p = Some (str "low")).
Proof.
  intros Hp Hd H4 H5 Hmin Hmax Ht rmin rmax.
  apply process_line_inv in Hp. destruct Hp as (q & Hq & ->).
  apply deciding_match_patterns in Hd.
  destruct Hd as (R & q' & _ & _ & Hm & Hb).
  unfold extract in Hq. rewrite Hm in Hq. injection Hq as ->.
  destruct (validate_frame q) as (_&_&_& -> & _ & -> & -> & _ & -> & _).
  apply build_record_range in Hb.
  destruct Hb as (tn & v & u & c & _ & Hn & Hv & Hrmin & Hrmax & _ & Hs).
  cbv zeta in Hrmin, Hrmax, Hs. specialize (Hs Ht).
  rewrite (parse_reference_range_pair m _ c smin smax H4 H5 Hmin Hmax)
    in Hrmin, Hrmax, Hs.
  simpl in Hrmin, Hrmax, Hs. fold rmin in Hrmin, Hs. fold rmax in Hrmax, Hs.
  rewrite Hv, Hrmin, Hrmax, Hs. unfold derived_status.
  pose proof (num_lt_false_iff rmax v Hmax Hn) as Egt.
  pose proof (num_lt_false_iff v rmin Hn Hmin) as Elt.
  split; [reflexivity|]. split; [reflexivity|].
  unfold num_gt in *.
  destruct (num_lt rmax v) eqn:Hgt.
  - split; [|split; [|split]].
    + split; [intros E; exfalso; exact (high_not_normal E)|].
      intros [_ Hle]. apply Egt in Hle. discriminate.
    + reflexivity.
    + discriminate.
    + intros Hr Hl. pose proof (num_lt_le_trans _ _ _ Hl Hr) as Hc.
      apply num_lt_asym in Hc. congruence.
  - destruct (num_lt v rmin) eqn:Hlt.
    + split; [|split; [|split]].
      * split; [intros E; exfalso; exact (low_not_normal E)|].
        intros [Hle _]. apply Elt in Hle. discriminate.
      * discriminate.
      * reflexivity.
      * reflexivity.
    + split; [|split; [|split]].
      * split; [|reflexivity]. intros _. split; [apply Elt | apply Egt]; reflexivity.
      * discriminate.
      * discriminate.
      * discriminate.
Qed.

Lemma colon_range_status_witness :
  exists p,
    process_line initial_parseSettings 0 (str "WBC: 7.5 x10E3/uL (3.6-10.0)") = Parsed p
    /\ ref_range_min p = Some (decimal 36 (-1))
    /\ ref_range_max p = Some (decimal 100 (-1))
    /\ status p = Some (str "normal").
Proof.
  eexists. split; [vm_compute; reflexivity|].
  edestruct (colon_range_status initial_parseSettings 0%nat
               (str "WBC: 7.5 x10E3/uL (3.6-10.0)"))
    as (Hmin & Hmax & Hn & _ & _ & _);
    [ vm_compute; reflexivity | vm_compute; reflexivity | vm_compute; reflexivity
    | vm_compute; reflexivity | vm_compute; reflexivity | vm_compute; reflexivity
    | split; vm_compute; reflexivity | ].
  split; [rewrite Hmin; vm_compute; reflexivity|].
  split; [rewrite Hmax; vm_compute; reflexivity|].
  apply Hn. split; vm_compute; reflexivity.
Defined.

(** C1 as stated fails on an inverted range: in "Hb: 5 g/dL (10-3)" the
    value is below the minimum 10, and the status is 'high', not 'low',
    because the value is above the maximum 3 and that test comes first. *)
Lemma inverted_range_is_high :
  let line := str "Hb: 5 g/dL (10-3)" in
  exists p m,
    process_line initial_parseSettings 0 line = Parsed p
    /\ deciding_match (trim line) patterns = Some (fullPattern, m)
    /\ group 4 m = Some (str "10") /\ group 5 m = Some (str "3")
    /\ no_status_token (trim line)
    /\ ref_range_min p = Some (decimal 10 0)
    /\ ref_range_max p = Some (decimal 3 0)
    /\ num_lt (value p) (decimal 10 0) = true
    /\ status p = Some (str "high")
    /\ status p <> Some (str "low").
Proof.
  cbv zeta. eexists _, _.
  split; [vm_compute; reflexivity|].
  split; [vm_compute; reflexivity|].
  repeat split; try (vm_compute; reflexivity).
  vm_compute. discriminate.
Qed.

(** ** C2: the validator never raises confidence *)

Lemma in_either (d c : number) (l : list number) :
  In c l -> In c (either d l) /\ In (num_add c d) (either d l).
Proof.
  intros H. unfold either. split; apply in_flat_map; exists c; simpl; auto.
Qed.

Lemma parse_reference_range_conf (m : match_result) (pc : ParsedTestComponent * number) :
  In (snd (parse_reference_range m pc))
     [snd pc; num_add (snd pc) c0_2; num_add (snd pc) c0_1; num_add (snd pc) c0_05].
Proof.
  destruct pc as [p c]. unfold parse_reference_range. split_cases; simpl; auto.
Qed.

Lemma check_not_estab_conf (t : jsstring) (pc : ParsedTestComponent * number) :
  In (snd (check_not_estab t pc)) [snd pc; num_add (snd pc) c0_1].
Proof.
  destruct pc as [p c]. unfold check_not_estab. split_cases; simpl; auto.
Qed.

Lemma parse_status_conf (t : jsstring) (pc : ParsedTestComponent * number) :
  In (snd (parse_status t pc)) [snd pc; num_add (snd pc) c0_1; num_add (snd pc) c0_05].
Proof.
  destruct pc as [p c]. unfold parse_status. split_cases; simpl; auto.
Qed.

Lemma detect_abbreviation_conf (t : jsstring) (pc : ParsedTestComponent * number) :
  In (snd (detect_abbreviation t pc)) [snd pc; num_add (snd pc) c0_05].
Proof.
  destruct pc as [p c]. unfold detect_abbreviation. split_cases; simpl; auto.
Qed.

(** The confidence of a record of the pattern table is one of the
    [seed_confidences]. *)
Lemma build_record_confidence (n : patternName) (t : jsstring) (m : match_result)
      (q : ParsedTestComponent) :
  build_record n t m = Some q -> In (confidence q) seed_confidences.
Proof.
  intros H. apply build_record_inv in H.
  destruct H as (tn & v & u & c & _ & _ & Hc & _ & Hq). cbv zeta in Hq.
  set (pc1 := parse_reference_range m (initial_record t tn v u, c)) in Hq.
  set (pc2 := check_not_estab t pc1) in Hq.
  set (pc3 := parse_status t pc2) in Hq.
  set (pc4 := detect_abbreviation tn pc3) in Hq.
  subst q. cbn [confidence set_confidence].
  unfold seed_confidences. apply (in_map (fun c => Math_min c c1_0)).
  set (L1 := flat_map (fun c => [c; num_add c c0_2; num_add c c0_1; num_add c c0_05])
                      (either c0_3 (either c0_2 [c0_5]))).
  set (L3 := flat_map (fun c => [c; num_add c c0_1; num_add c c0_05]) (either c0_1 L1)).
  assert (H1 : In (snd pc1) L1).
  { apply in_flat_map. exists c. split; [exact Hc|].
    apply (parse_reference_range_conf m (initial_record t tn v u, c)). }
  assert (H2 : In (snd pc2) (either c0_1 L1)).
  { destruct (in_either c0_1 _ _ H1) as [Ha Hb].
    destruct (check_not_estab_conf t pc1) as [E | [E | []]];
      fold pc2 in E; rewrite <- E; assumption. }
  assert (H3 : In (snd pc3) L3).
  { apply in_flat_map. exists (snd pc2). split; [exact H2|].
    apply parse_status_conf. }
  destruct (in_either c0_05 _ _ H3) as [Ha Hb].
  destruct (detect_abbreviation_conf tn pc3) as [E | [E | []]];
    fold pc4 in E; rewrite <- E; assumption.
Qed.

Lemma validate_confidence (q : ParsedTestComponent) :
  confidence (validate q)
  = validated_confidence (confidence q) (Nat.ltb (length (test_name q)) 2)
                         (length (issues (validate q)))
  /\ (length (issues (validate q)) <= length (issues q) + 3)%nat.
Proof.
  unfold validate, validated_confidence, push.
  destruct (Nat.ltb (length (test_name q)) 2); simpl;
    destruct (negb (nonempty (unit q))); simpl;
    match goal with |- context [no_range ?p] => destruct (no_range p) end; simpl;
    match goal with |- context [Nat.ltb 0 ?n] => destruct (Nat.ltb 0 n) eqn:E end;
    simpl; rewrite ?E; (split; [reflexivity | rewrite ?length_app; simpl; lia]).
Qed.

(** Every case of [validated_confidence] on the confidences the extraction
    can produce, evaluated. *)
Lemma validated_confidence_le :
  forallb (fun c =>
     forallb (fun short =>
        forallb (fun n => num_le (validated_confidence c short n) c)
                (List.seq 0 6))
        [true; false])
     (c0_2 :: seed_confidences) = true.
Proof. vm_compute. reflexivity. Qed.

(** C2.  For every record the extraction produces (pattern table or
    fallback), the confidence after [validate] is at most the confidence
    before it. *)
Theorem validate_never_increases_confidence (trimmedLine : jsstring)
        (q : ParsedTestComponent) :
  extract trimmedLine = Some q ->
  num_le (confidence (validate q)) (confidence q) = true.
Proof.
  intros H.
  assert (Hq : In (confidence q) (c0_2 :: seed_confidences)
               /\ (length (issues q) <= 2)%nat).
  { apply extract_inv in H. destruct H as [(n & R & m & _ & _ & _ & Hb) | Hf].
    - split; [right; eapply build_record_confidence; eauto|].
      apply build_record_basic in Hb.
      destruct Hb as (_ & _ & _ & _ & -> & _). simpl; lia.
    - apply fallback_basic in Hf.
      destruct Hf as (_ & _ & _ & _ & -> & _ & _ & _ & _ & -> & _).
      split; [left; reflexivity | simpl; lia]. }
  destruct Hq as [Hc Hn].
  destruct (validate_confidence q) as [-> Hl].
  pose proof validated_confidence_le as E.
  rewrite forallb_forall in E. specialize (E _ Hc).
  rewrite forallb_forall in E.
  specialize (E (Nat.ltb (length (test_name q)) 2)
                ltac:(destruct (Nat.ltb (length (test_name q)) 2); simpl; auto)).
  rewrite forallb_forall in E. apply E.
  apply in_seq. lia.
Qed.

Lemma validate_never_increases_confidence_witness :
  exists q, extract (str "Hb 5") = Some q
            /\ confidence q = c0_2
            /\ num_le (confidence (validate q)) (confidence q) = true.
Proof.
  eexists. split; [vm_compute; reflexivity|].
  split; [vm_compute; reflexivity|].
  apply (validate_never_increases_confidence (str "Hb 5")).
  vm_compute. reflexivity.
Defined.

(** ** C3: a comparison as the range *)

(** C3.  Take a line whose deciding pattern captured a comparison text in
    group 6 (an operator among <, >, U+2264, U+2265, then a number).  Its
    record keeps that text verbatim in [ref_range_text] and has exactly one
    bound, the number: the maximum for < and U+2264, the minimum for > and
    U+2265.  When the line names no status, the status comes from that one
    bound: 'high' above a maximum, 'low' below a minimum, 'normal'
    otherwise. *)
Theorem comparison_range_bound (parseSettings : ParseSettings) (index : nat)
        (line : jsstring) (p : ParsedTestComponent) (n : patternName)
        (m : match_result) (comp : jsstring) :
  process_line parseSettings index line = Parsed p ->
  deciding_match (trim line) patterns = Some (n, m) ->
  group 6 m = Some comp ->
  isNaN (comparison_operand comp) = false ->
  let bound := comparison_operand comp in
  ref_range_text p = Some comp
  /\ exists op rest,
      comp = op :: rest
      /\ ((upper_operator op = true
           /\ ref_range_max p = Some bound /\ ref_range_min p = None
           /\ (no_status_token (trim line) ->
               status p = Some (if num_gt (value p) bound then str "high"
                                else str "normal")))
          \/ (lower_operator op = true
              /\ ref_range_min p = Some bound /\ ref_range_max p = None
              /\ (no_status_token (trim line) ->
                  status p = Some (if num_lt (value p) bound then str "low"
                                   else str "normal")))).
Proof.
  intros Hp Hd H6 Hn bound.
  apply process_line_inv in Hp. destruct Hp as (q & Hq & ->).
  apply deciding_match_patterns in Hd.
  destruct Hd as (R & q' & Hin & Hx & Hm & Hb).
  unfold extract in Hq. rewrite Hm in Hq. injection Hq as ->.
  destruct (validate_frame q) as (_&_&_& -> & _ & -> & -> & -> & -> & _).
  destruct (comparison_group_alone (n, R) (trim line) m comp Hin Hx H6) as [Hc H4].
  apply build_record_range in Hb.
  destruct Hb as (tn & v & u & c & _ & _ & Hv & Hrmin & Hrmax & Htxt & Hs).
  cbv zeta in Hrmin, Hrmax, Htxt, Hs.
  rewrite (parse_reference_range_comparison m _ c comp H4 H6 Hc)
    in Hrmin, Hrmax, Htxt, Hs.
  set (p0 := set_ref_range_text (Some comp) (initial_record (trim line) tn v u)) in *.
  destruct (comparison_bound_frame comp p0) as (_&_&_&_&_& Ft &_).
  assert (Hcomp : truthy (Some comp) = true).
  { destruct Hc as (op & ws & ds & -> & _). reflexivity. }
  assert (Hnr : no_range (comparison_bound comp p0) = false).
  { unfold no_range. rewrite Ft. unfold p0. simpl ref_range_text.
    rewrite Hcomp. simpl. rewrite !andb_false_r. reflexivity. }
  specialize (Htxt Hnr). rewrite Ft in Htxt. unfold p0 in Htxt at 1.
  simpl in Htxt.
  split; [exact Htxt|].
  destruct (comparison_bound_text comp p0 Hc Hn)
    as (op & rest & -> & [[Hop Hbd] | [Hop Hbd]]);
    exists op, rest; (split; [reflexivity|]);
    rewrite Hbd in Hrmin, Hrmax, Hs; unfold p0 in Hrmin, Hrmax, Hs;
    simpl in Hrmin, Hrmax, Hs; rewrite Hv; [left | right];
    (split; [exact Hop|]); (split; [assumption|]); (split; [assumption|]);
    intros Ht; rewrite (Hs Ht); reflexivity.
Qed.

Lemma comparison_range_bound_witness :
  (exists p,
      process_line initial_parseSettings 0 (str "Eosinophile abs. 0.19 /nl < 0.41")
      = Parsed p
      /\ ref_range_text p = Some (str "< 0.41")
      /\ ref_range_max p = Some (decimal 41 (-2))
      /\ ref_range_min p = None
      /\ status p = Some (str "normal"))
  /\ (exists p,
         process_line initial_parseSettings 0 (str "Eosinophile abs. 0.50 /nl < 0.41")
         = Parsed p
         /\ status p = Some (str "high")).
Proof.
  split.
  - eexists. split; [vm_compute; reflexivity|].
    edestruct (comparison_range_bound initial_parseSettings 0%nat
                 (str "Eosinophile abs. 0.19 /nl < 0.41"))
      as (Ht & op & rest & Hc & [(_ & Hmax & Hmin & Hs) | (Hop & _)]);
      [ vm_compute; reflexivity | vm_compute; reflexivity | vm_compute; reflexivity
      | vm_compute; reflexivity | | ].
    + split; [rewrite Ht; vm_compute; reflexivity|].
      split; [rewrite Hmax; vm_compute; reflexivity|].
      split; [exact Hmin|].
      rewrite Hs; [vm_compute; reflexivity | split; vm_compute; reflexivity].
    + exfalso. vm_compute in Hc. injection Hc as <- _. vm_compute in Hop.
      discriminate Hop.
  - eexists. split; [vm_compute; reflexivity|].
    edestruct (comparison_range_bound initial_parseSettings 0%nat
                 (str "Eosinophile abs. 0.50 /nl < 0.41"))
      as (_ & op & rest & Hc & [(_ & _ & _ & Hs) | (Hop & _)]);
      [ vm_compute; reflexivity | vm_compute; reflexivity | vm_compute; reflexivity
      | vm_compute; reflexivity | | ].
    + rewrite Hs; [vm_compute; reflexivity | split; vm_compute; reflexivity].
    + exfalso. vm_compute in Hc. injection Hc as <- _. vm_compute in Hop.
      discriminate Hop.
Defined.

(** ** C4: the range of a CSV line *)

(** C4 fails on the code.  On "BUN,18,mg/dL,7-20,Normal" the CSV pattern
    decides the line; its group 4 is the whole range text "7-20" and its
    group 5 the status text "Normal", and the loop body reads them as minimum
    and maximum: [parseFloat] of "Normal" is NaN, so no bound is stored. *)
Theorem csv_range_not_populated :
  let line := str "BUN,18,mg/dL,7-20,Normal" in
  exists p m,
    parseText initial_parseSettings line = {| components := [p]; failedLineCount := 0 |}
    /\ deciding_match line patterns = Some (csvPattern, m)
    /\ group 4 m = Some (str "7-20")
    /\ group 5 m = Some (str "Normal")
    /\ value p = decimal 18 0
    /\ ref_range_min p = None /\ ref_range_max p = None /\ ref_range_text p = None.
Proof.
  cbv zeta. eexists _, _.
  split; [vm_compute; reflexivity|].
  split; [vm_compute; reflexivity|].
  repeat split; vm_compute; reflexivity.
Qed.

(** ** C5: the missing-unit issue of a fallback record *)

(** C5, as amended.  For every record the fallback produces, [validate]
    appends 'Unit not detected' once and without looking at the issues
    already there: the final list reports the missing unit twice, first with
    the pre-seeded 'Could not detect unit', then with 'Unit not detected'. *)
Theorem fallback_missing_unit_issues (trimmedLine : jsstring) (q : ParsedTestComponent) :
  fallback trimmedLine = Some q ->
  filter missing_unit_issue (issues (validate q))
  = [str "Could not detect unit"; str "Unit not detected"].
Proof.
  intros H. apply fallback_basic in H.
  destruct H as (_ & _ & _ & _ & Hi & Hu & Hmin & Hmax & Htxt & _).
  unfold validate, push, no_range.
  destruct (Nat.ltb (length (test_name q)) 2); simpl;
    rewrite Hu; simpl; rewrite Hmin, Hmax, Htxt; simpl;
    rewrite Hi; simpl; vm_compute; reflexivity.
Qed.

Lemma fallback_missing_unit_issues_witness :
  exists q, fallback (str "Glucose 95") = Some q
            /\ filter missing_unit_issue (issues (validate q))
               = [str "Could not detect unit"; str "Unit not detected"].
Proof.
  eexists. split; [vm_compute; reflexivity|].
  apply (fallback_missing_unit_issues (str "Glucose 95")).
  vm_compute. reflexivity.
Defined.

(** C5 as stated fails: the record of "Glucose 95" comes from the fallback
    and its final issues report the missing unit twice. *)
Lemma missing_unit_reported_twice :
  exists p, process_line initial_parseSettings 0 (str "Glucose 95") = Parsed p
            /\ match_patterns (str "Glucose 95") patterns = None
            /\ issues p = [str "Could not detect unit";
                           str "Could not detect reference range";
                           str "Unit not detected";
                           str "Reference range not detected"]
            /\ length (filter missing_unit_issue (issues p)) <> 1%nat.
Proof.
  eexists. split; [vm_compute; reflexivity|].
  split; [vm_compute; reflexivity|].
  split; [vm_compute; reflexivity|].
  vm_compute. discriminate.
Qed.

(** ** C6: numeric pair and free text together *)

(** C6 fails on the code.  The guard before the "Not Estab." check tests the
    bounds for falsiness, and 0 is falsy: a range 0-0 passes for no range, so
    the record of this line carries the numeric pair (0, 0) and the text
    'Not Estab.' at once. *)
Theorem zero_range_and_text_together :
  let line := str "Basophils: 0 % (0-0) (Not Estab.)" in
  exists p,
    parseText initial_parseSettings line = {| components := [p]; failedLineCount := 0 |}
    /\ ref_range_min p = Some (decimal 0 0)
    /\ ref_range_max p = Some (decimal 0 0)
    /\ ref_range_text p = Some (str "Not Estab.").
Proof.
  cbv zeta. eexists.
  split; [vm_compute; reflexivity|].
  repeat split; vm_compute; reflexivity.
Qed.

(** ** C7: the original line *)

(** C7, as amended.  For every input line that produces a record (through a
    pattern of the table or through the fallback), the record's
    [original_line] is the line with its leading and trailing white space
    removed ([line.trim()]). *)
Theorem original_line_is_trimmed_line (parseSettings : ParseSettings) (index : nat)
        (line : jsstring) (p : ParsedTestComponent) :
  process_line parseSettings index line = Parsed p ->
  original_line p = trim line.
Proof.
  intros H. apply process_line_inv in H. destruct H as (q & Hq & ->).
  destruct (validate_frame q) as (_&_&_&_&_&_&_&_&_&_&_&->).
  apply extract_inv in Hq. destruct Hq as [(n & R & m & _ & _ & _ & Hb) | Hf].
  - apply build_record_basic in Hb. tauto.
  - apply fallback_basic in Hf. tauto.
Qed.

Lemma original_line_is_trimmed_line_witness :
  exists p, process_line initial_parseSettings 0 (str " Glucose 95 mg/dL") = Parsed p
            /\ original_line p = str "Glucose 95 mg/dL".
Proof.
  eexists. split; [vm_compute; reflexivity|].
  rewrite (original_line_is_trimmed_line initial_parseSettings 0%nat (str " Glucose 95 mg/dL") _
             ltac:(vm_compute; reflexivity)).
  vm_compute. reflexivity.
Defined.

(** C7 as stated fails: a line that starts with a space yields a record whose
    [original_line] is not the line. *)
Lemma original_line_not_verbatim :
  exists p, process_line initial_parseSettings 0 (str " Glucose 95 mg/dL") = Parsed p
            /\ original_line p <> str " Glucose 95 mg/dL".
Proof.
  eexists. split; [vm_compute; reflexivity|].
  vm_compute. discriminate.
Qed.

(** ** C8: what the enrichment touches *)

Lemma process_line_canonical (s : ParseSettings) (i : nat) (line : jsstring)
      (p : ParsedTestComponent) :
  process_line s i line = Parsed p -> canonical_test_name p = None.
Proof.
  intros H. apply process_line_inv in H. destruct H as (q & Hq & ->).
  destruct (validate_frame q) as (_&_&->&_).
  apply extract_inv in Hq. destruct Hq as [(n & R & m & _ & _ & _ & Hb) | Hf].
  - apply build_record_basic in Hb. tauto.
  - apply fallback_basic in Hf. tauto.
Qed.

Lemma enrich_test_name (searchTests : jsstring -> nat -> list TestLibraryItem.t)
      (c : ParsedTestComponent) :
  test_name (enrich searchTests c) = test_name c.
Proof. unfold enrich. frame. Qed.

Lemma enrich_canonical (searchTests : jsstring -> nat -> list TestLibraryItem.t)
      (c : ParsedTestComponent) (t : TestLibraryItem.t) :
  lookup searchTests c = Some t ->
  canonical_test_name (enrich searchTests c) = Some (TestLibraryItem.test_name t).
Proof. unfold enrich. intros ->. frame. Qed.

(** C8.  For every record of the parser and every catalog [searchTests]:
    the enrichment leaves [test_name] as it is; [canonical_test_name] is set
    exactly when the lookup finds an entry, and then to that entry's name;
    and when the lookup finds nothing the record is unchanged. *)
Theorem enrich_never_changes_test_name
        (searchTests : jsstring -> nat -> list TestLibraryItem.t)
        (parseSettings : ParseSettings) (text : jsstring) (c : ParsedTestComponent) :
  In c (components (parseText parseSettings text)) ->
  test_name (enrich searchTests c) = test_name c
  /\ canonical_test_name (enrich searchTests c)
     = option_map TestLibraryItem.test_name (lookup searchTests c)
  /\ (lookup searchTests c = None -> enrich searchTests c = c).
Proof.
  intros H. apply parseText_components in H. destruct H as (i & line & _ & Hp).
  apply process_line_canonical in Hp.
  split; [apply enrich_test_name|]. split.
  - destruct (lookup searchTests c) as [t|] eqn:Hl; simpl.
    + apply enrich_canonical; assumption.
    + unfold enrich. rewrite Hl. exact Hp.
  - intros Hl. unfold enrich. rewrite Hl. reflexivity.
Qed.

Lemma enrich_never_changes_test_name_witness :
  exists c,
    components (parseText initial_parseSettings (str "Leukozyten 4.4 /nl 3.6-10.0")) = [c]
    /\ test_name (enrich sample_searchTests c) = str "Leukozyten"
    /\ canonical_test_name (enrich sample_searchTests c)
       = Some (str "White Blood Cell Count").
Proof.
  eexists. split; [vm_compute; reflexivity|].
  destruct (enrich_never_changes_test_name sample_searchTests initial_parseSettings
              (str "Leukozyten 4.4 /nl 3.6-10.0") _
              ltac:(vm_compute; left; reflexivity)) as (Hn & Hc & _).
  split; [rewrite Hn | rewrite Hc]; vm_compute; reflexivity.
Defined.

(** ** C9: determinism *)

Lemma RegExpBuiltinExec_stateless (R : RegExpObject) (i : nat) (S : jsstring) :
  global R = false -> sticky R = false ->
  fst (RegExpBuiltinExec R i S) = exec R S.
Proof.
  intros Hg Hy. unfold exec, RegExpBuiltinExec. rewrite Hg, Hy. simpl.
  destruct (search R [] S); reflexivity.
Qed.

Lemma patterns_stateless (e : patternName * RegExpObject) :
  In e patterns -> global (snd e) = false /\ sticky (snd e) = false.
Proof.
  simpl. intros [<- | [<- | [<- | [<- | []]]]]; split; reflexivity.
Qed.

Lemma try_pattern_st_fst (t : jsstring) (e : patternName * RegExpObject)
      (s : regexp_store) :
  In e patterns -> fst (try_pattern_st t e s) = try_pattern t e.
Proof.
  intros H. apply patterns_stateless in H. destruct H as [Hg Hy].
  unfold try_pattern_st, try_pattern.
  rewrite <- (RegExpBuiltinExec_stateless (snd e) (s (fst e)) t Hg Hy).
  destruct (RegExpBuiltinExec (snd e) (s (fst e)) t) as [om i]. reflexivity.
Qed.

Lemma match_patterns_st_fst (t : jsstring) (es : list (patternName * RegExpObject)) :
  incl es patterns ->
  forall s, fst (match_patterns_st t es s) = match_patterns t es.
Proof.
  induction es as [|e es IH]; intros Hi s; simpl; [reflexivity|].
  assert (He : In e patterns) by (apply Hi; left; reflexivity).
  rewrite <- (try_pattern_st_fst t e s He).
  destruct (try_pattern_st t e s) as [[q|] s']; simpl; [reflexivity|].
  apply IH. intros x Hx. apply Hi. right. exact Hx.
Qed.

Lemma process_line_st_fst (ps : ParseSettings) (i : nat) (line : jsstring)
      (s : regexp_store) :
  fst (process_line_st ps i line s) = process_line ps i line.
Proof.
  unfold process_line_st, process_line, extract.
  destruct (negb (nonempty (trim line))); [reflexivity|].
  destruct (_ && _ && _); [reflexivity|].
  rewrite <- (match_patterns_st_fst (trim line) patterns (incl_refl patterns) s).
  destruct (match_patterns_st (trim line) patterns s) as [[q|] s']; simpl;
    [reflexivity|].
  destruct (fallback (trim line)); reflexivity.
Qed.

Lemma forEach_st_fst (ps : ParseSettings) (lines : list jsstring) :
  forall (i : nat) (acc : ParseResult) (s : regexp_store),
    fst (forEach_st ps i lines acc s) = forEach ps i lines acc.
Proof.
  induction lines as [|line more IH]; intros i acc s; simpl; [reflexivity|].
  rewrite <- (process_line_st_fst ps i line s).
  destruct (process_line_st ps i line s) as [o s']. simpl. apply IH.
Qed.

Lemma parse_st_fst (searchTests : jsstring -> nat -> list TestLibraryItem.t)
      (ps : ParseSettings) (text : jsstring) (s : regexp_store) :
  fst (parse_st searchTests ps text s) = parse searchTests ps text.
Proof.
  unfold parse_st, parse, parseText_st, parseText.
  rewrite <- (forEach_st_fst ps _ 0 {| components := []; failedLineCount := 0 |} s).
  destruct (forEach_st _ _ _ _ _) as [r s']. reflexivity.
Qed.

(** C9.  The batch parse, enrichment included, is deterministic: whatever
    the [lastIndex] slots of the shared RegExp objects hold when a run starts
    (in particular what an earlier run left there), the same text, settings
    and catalog give the same components and the same [failedLineCount]. *)
Theorem parse_deterministic
        (searchTests : jsstring -> nat -> list TestLibraryItem.t)
        (parseSettings : ParseSettings) (text : jsstring) (s s' : regexp_store) :
  let (out1, s1) := parse_st searchTests parseSettings text s in
  let (out2, _) := parse_st searchTests parseSettings text s1 in
  out1 = out2
  /\ out1 = fst (parse_st searchTests parseSettings text s')
  /\ out1 = parse searchTests parseSettings text.
Proof.
  pose proof (parse_st_fst searchTests parseSettings text s) as H1.
  pose proof (parse_st_fst searchTests parseSettings text s') as H3.
  destruct (parse_st searchTests parseSettings text s) as [out1 s1].
  pose proof (parse_st_fst searchTests parseSettings text s1) as H2.
  destruct (parse_st searchTests parseSettings text s1) as [out2 s2].
  simpl in *. repeat split; congruence.
Qed.

(** ** C10: no value is negative *)

Lemma numeric_chars_unsigned (i : bool) (x : char16) :
  cset_match i numeric_chars x = true -> x <> 45.
Proof. intros H ->. destruct i; vm_compute in H; discriminate. Qed.

Lemma numeric_value_unsigned (i : bool) (w : jsstring) (c c' : captures) :
  sem i (Plus true numeric_chars) w c c' -> Forall (fun x => x <> 45) w.
Proof.
  simpl. intros (_ & H & _). eapply Forall_impl; [|exact H].
  intros x. apply numeric_chars_unsigned.
Qed.

Ltac groups_ok_tac :=
  simpl; repeat split; intros;
  try discriminate;
  try match goal with
      | H : _ /\ Forall _ ?w /\ _ |- Forall _ ?w =>
          destruct H as (_ & H & _); eapply Forall_impl; [|exact H];
          intros ?; apply numeric_chars_unsigned
      end.

(** In each of the four patterns and in the fallback expression, group 2
    matches digits, periods and commas only. *)
Lemma value_group_unsigned (R : RegExpObject) (S : jsstring) (m : match_result) :
  In R (fallback_regexp :: map snd patterns) ->
  exec R S = Some m -> cap_inv value_unsigned (groups m).
Proof.
  intros HR. apply exec_cap_inv.
  simpl in HR. destruct HR as [<- | [<- | [<- | [<- | [<- | []]]]]];
    unfold value_unsigned; groups_ok_tac.
Qed.

Lemma filter_Forall (P : char16 -> Prop) (f : char16 -> bool) (s : jsstring) :
  Forall P s -> Forall P (filter f s).
Proof.
  induction 1 as [|c t Hc Ht IH]; simpl; [constructor|].
  destruct (f c); [constructor; assumption | exact IH].
Qed.

Lemma value_of_group_nonnegative (R : RegExpObject) (S : jsstring) (m : match_result) :
  In R (fallback_regexp :: map snd patterns) ->
  exec R S = Some m ->
  nonnegative (parseFloat (remove_all commas (defined (group 2 m)))).
Proof.
  intros HR H. pose proof (value_group_unsigned _ _ _ HR H) as Hc.
  unfold group. destruct (cap 2 (groups m)) as [v|] eqn:Hv; simpl.
  - apply parseFloat_nonnegative. unfold remove_all. apply filter_Forall.
    apply (Hc 2%nat v Hv). reflexivity.
  - exact I.
Qed.

(** No record has a negative value: group 2 of each pattern and of the
    fallback expression takes digits, periods and commas only.  Where the
    value stands in the line, and with it what becomes of a minus sign, is
    settled in the last section, once the name of a record is known. *)
Lemma record_value_nonnegative (parseSettings : ParseSettings) (text : jsstring)
      (p : ParsedTestComponent) :
  In p (components (parseText parseSettings text)) ->
  num_le c0 (value p) = true.
Proof.
  intros H.
  apply parseText_components in H. destruct H as (i & line & _ & Hp).
  apply process_line_inv in Hp. destruct Hp as (q & Hq & ->).
  destruct (validate_frame q) as (_&_&_&->&_).
  apply extract_inv in Hq. destruct Hq as [(n & R & m & Hin & Hx & _ & Hb) | Hf].
  - apply build_record_basic in Hb. destruct Hb as (_&_&_&_&_& Hv & Hn).
    apply nonnegative_le; [|exact Hn]. rewrite Hv.
    apply (value_of_group_nonnegative R (trim line) m); [|exact Hx].
    right. apply (in_map snd) in Hin. exact Hin.
  - apply fallback_basic in Hf.
    destruct Hf as (_&_&_&_&_&_&_&_&_&_& (m & Hx & Hv) & Hn).
    apply nonnegative_le; [|exact Hn]. rewrite Hv.
    apply (value_of_group_nonnegative fallback_regexp (trim line) m); [|exact Hx].
    left. reflexivity.
Qed.

(** * Further properties *)


(** ** White space at the ends of a text *)

Lemma dropWhile_split (p : char16 -> bool) (s : jsstring) :
  exists a, s = a ++ dropWhile p s /\ Forall (fun x => p x = true) a.
Proof.
  induction s as [|c t (a & E & Ha)]; simpl.
  - exists []; auto.
  - destruct (p c) eqn:Hc.
    + exists (c :: a). simpl. rewrite <- E. auto.
    + exists []; auto.
Qed.

Lemma dropWhile_head (p : char16 -> bool) (s : jsstring) :
  match dropWhile p s with [] => True | a :: _ => p a = false end.
Proof.
  induction s as [|c t IH]; simpl; [exact I|].
  destruct (p c) eqn:Hc; [exact IH | exact Hc].
Qed.

(** [trim] cuts a run of white space off each end. *)
Lemma trim_split (s : jsstring) :
  exists a b, s = a ++ trim s ++ b
              /\ Forall (fun x => isWhiteSpace x = true) a
              /\ Forall (fun x => isWhiteSpace x = true) b.
Proof.
  unfold trim.
  destruct (dropWhile_split isWhiteSpace s) as (a & Ea & Ha).
  destruct (dropWhile_split isWhiteSpace (rev (dropWhile isWhiteSpace s)))
    as (b & Eb & Hb).
  exists a, (rev b). split; [|split; [exact Ha | apply Forall_rev; exact Hb]].
  rewrite <- rev_app_distr, <- Eb, rev_involutive. exact Ea.
Qed.

Lemma trim_last (s : jsstring) :
  match rev (trim s) with [] => True | b :: _ => isWhiteSpace b = false end.
Proof. unfold trim. rewrite rev_involutive. apply dropWhile_head. Qed.

Lemma trim_head (s : jsstring) :
  match trim s with [] => True | a :: _ => isWhiteSpace a = false end.
Proof.
  pose proof (dropWhile_head isWhiteSpace s) as Hu.
  destruct (dropWhile_split isWhiteSpace (rev (dropWhile isWhiteSpace s)))
    as (b & Eb & Hb).
  apply (f_equal (@rev _)) in Eb. rewrite rev_involutive, rev_app_distr in Eb.
  fold (trim s) in Eb. rewrite Eb in Hu.
  destruct (trim s) as [|x t]; [exact I | exact Hu].
Qed.

Lemma trim_idempotent (s : jsstring) : trim (trim s) = trim s.
Proof. apply trim_unchanged; [apply trim_head | apply trim_last]. Qed.

Lemma trim_blank (s : jsstring) :
  Forall (fun x => isWhiteSpace x = true) s -> trim s = [].
Proof.
  intros H. unfold trim.
  rewrite <- (app_nil_r s) at 1. rewrite dropWhile_app by exact H. reflexivity.
Qed.

Lemma trim_nil_blank (s : jsstring) :
  trim s = [] -> Forall (fun x => isWhiteSpace x = true) s.
Proof.
  intros H. destruct (trim_split s) as (a & b & E & Ha & Hb).
  rewrite H in E. rewrite E. apply Forall_app; auto.
Qed.

(** A text trims to something exactly when it holds a code unit that is not
    white space. *)
Lemma nonempty_trim (s : jsstring) :
  nonempty (trim s) = existsb (fun x => negb (isWhiteSpace x)) s.
Proof.
  destruct (existsb (fun x => negb (isWhiteSpace x)) s) eqn:E.
  - apply existsb_exists in E. destruct E as (x & Hin & Hx).
    destruct (trim s) eqn:Ht; [|reflexivity].
    apply trim_nil_blank in Ht. rewrite Forall_forall in Ht.
    rewrite (Ht x Hin) in Hx. discriminate.
  - rewrite trim_blank; [reflexivity|].
    apply Forall_forall. intros x Hin.
    destruct (isWhiteSpace x) eqn:Hx; [reflexivity|].
    assert (existsb (fun x => negb (isWhiteSpace x)) s = true)
      by (apply existsb_exists; exists x; rewrite Hx; auto).
    congruence.
Qed.

(** ** The lines of a text *)

Lemma split_lines_nonempty (s : jsstring) : split_lines s <> [].
Proof.
  destruct s as [|c t]; simpl; [discriminate|].
  destruct (c =? 10); [discriminate|].
  destruct (split_lines t); discriminate.
Qed.

Lemma split_lines_app (t1 t2 : jsstring) :
  split_lines (t1 ++ 10 :: t2) = split_lines t1 ++ split_lines t2.
Proof.
  induction t1 as [|c t IH]; simpl; [reflexivity|].
  destruct (c =? 10).
  - rewrite IH. reflexivity.
  - rewrite IH. pose proof (split_lines_nonempty t) as Hn.
    destruct (split_lines t) as [|l ls]; [contradiction|]. reflexivity.
Qed.

(** The code units of the lines are those of the text, the separators
    excepted. *)
Lemma split_lines_In (s : jsstring) (l : jsstring) (x : char16) :
  In l (split_lines s) -> In x l -> In x s.
Proof.
  revert l. induction s as [|c t IH]; simpl; intros l Hl Hx.
  - destruct Hl as [<- | []]. destruct Hx.
  - destruct (c =? 10).
    + destruct Hl as [<- | Hl]; [destruct Hx|]. right. eapply IH; eauto.
    + pose proof (split_lines_nonempty t) as Hn.
      destruct (split_lines t) as [|l0 ls]; [contradiction|].
      destruct Hl as [<- | Hl].
      * destruct Hx as [<- | Hx]; [left; reflexivity|].
        right. apply (IH l0); simpl; auto.
      * right. apply (IH l); simpl; auto.
Qed.

Lemma split_lines_single (l : jsstring) :
  Forall (fun x => x <> 10) l -> split_lines l = [l].
Proof.
  induction 1 as [|c t Hc Ht IH]; simpl; [reflexivity|].
  destruct (N.eqb_spec c 10); [contradiction|]. rewrite IH. reflexivity.
Qed.

(** ** The loop over the lines *)

(** ** The loop over the lines *)

Lemma forEach_acc (ps : ParseSettings) (lines : list jsstring) :
  forall (i : nat) (acc : ParseResult),
    forEach ps i lines acc = merge_results acc (forEach ps i lines empty_result).
Proof.
  induction lines as [|line more IH]; intros i acc; simpl.
  - unfold merge_results; simpl. rewrite app_nil_r, Nat.add_0_r.
    destruct acc; reflexivity.
  - rewrite IH.
    rewrite (IH (S i) (match process_line ps i line with
                       | Skipped => empty_result
                       | Parsed p => _
                       | Failed => _
                       end)).
    destruct (process_line ps i line); unfold merge_results; simpl;
      rewrite ?app_nil_r, ?Nat.add_0_r, <- ?app_assoc, ?Nat.add_succ_r; simpl;
      try reflexivity.
Qed.

Lemma forEach_app (ps : ParseSettings) (l1 l2 : list jsstring) :
  forall (i : nat) (acc : ParseResult),
    forEach ps i (l1 ++ l2) acc
    = forEach ps (i + length l1) l2 (forEach ps i l1 acc).
Proof.
  induction l1 as [|line more IH]; intros i acc; simpl.
  - rewrite Nat.add_0_r. reflexivity.
  - rewrite IH. replace (S i + length more)%nat with (i + S (length more))%nat by lia.
    reflexivity.
Qed.

(** Only the line at index 0 can be taken for a header. *)
Lemma process_line_later (ps : ParseSettings) (i j : nat) (line : jsstring) :
  process_line ps (S i) line = process_line (without_headers ps) j line.
Proof.
  unfold process_line. simpl. rewrite andb_false_r. reflexivity.
Qed.

Lemma forEach_without_headers (ps : ParseSettings) (lines : list jsstring) :
  forall (i j : nat) (acc : ParseResult),
    forEach (without_headers ps) i lines acc = forEach (without_headers ps) j lines acc.
Proof.
  induction lines as [|line more IH]; intros i j acc; simpl; [reflexivity|].
  replace (process_line (without_headers ps) i line)
    with (process_line (without_headers ps) j line)
    by (unfold process_line; reflexivity).
  apply IH.
Qed.

Lemma forEach_later (ps : ParseSettings) (lines : list jsstring) :
  forall (i j : nat) (acc : ParseResult),
    forEach ps (S i) lines acc = forEach (without_headers ps) j lines acc.
Proof.
  induction lines as [|line more IH]; intros i j acc; simpl; [reflexivity|].
  rewrite (process_line_later ps i j line). apply IH.
Qed.

Lemma kept_lines_app (ps : ParseSettings) (t1 t2 : jsstring) :
  kept_lines ps (t1 ++ 10 :: t2) = kept_lines ps t1 ++ kept_lines ps t2.
Proof. unfold kept_lines. rewrite split_lines_app, filter_app. reflexivity. Qed.

Lemma parseText_kept_lines (ps : ParseSettings) (text : jsstring) :
  parseText ps text = forEach ps 0 (kept_lines ps text) empty_result.
Proof. reflexivity. Qed.

(** A code unit of the text that is no line feed lies in one of its lines. *)
Lemma In_split_lines (s : jsstring) (x : char16) :
  In x s -> x <> 10 -> exists l, In l (split_lines s) /\ In x l.
Proof.
  induction s as [|c t IH]; simpl; intros Hin Hx; [contradiction|].
  pose proof (split_lines_nonempty t) as Hn.
  destruct Hin as [-> | Hin].
  - destruct (N.eqb_spec x 10); [contradiction|].
    destruct (split_lines t) as [|l ls]; [contradiction|].
    exists (x :: l); simpl; auto.
  - destruct (IH Hin Hx) as (l & Hl & Hxl).
    destruct (c =? 10).
    + exists l; simpl; auto.
    + destruct (split_lines t) as [|l0 ls]; [contradiction|].
      destruct Hl as [<- | Hl].
      * exists (c :: l0); simpl; auto.
      * exists l; simpl; auto.
Qed.

Lemma line_feed_is_space (x : char16) : isWhiteSpace x = false -> x <> 10.
Proof. intros H ->. vm_compute in H. discriminate. Qed.

Lemma kept_lines_nonempty (ps : ParseSettings) (text : jsstring) :
  skipEmptyLines ps = false \/ nonblank text = true ->
  kept_lines ps text <> [].
Proof.
  unfold kept_lines. intros [H | H].
  - rewrite H. pose proof (split_lines_nonempty text) as Hn.
    destruct (split_lines text); [contradiction|]. simpl. discriminate.
  - unfold nonblank in H. rewrite nonempty_trim in H.
    apply existsb_exists in H. destruct H as (x & Hin & Hx).
    apply negb_true_iff in Hx.
    destruct (In_split_lines text x Hin (line_feed_is_space x Hx)) as (l & Hl & Hxl).
    assert (Hk : In l (filter (fun line => if skipEmptyLines ps
                                           then Nat.ltb 0 (length (trim line))
                                           else true) (split_lines text))).
    { apply filter_In. split; [exact Hl|].
      destruct (skipEmptyLines ps); [|reflexivity].
      assert (Hb : nonempty (trim l) = true).
      { rewrite nonempty_trim. apply existsb_exists. exists x. rewrite Hx. auto. }
      destruct (trim l); [discriminate | reflexivity]. }
    intros E. rewrite E in Hk. destruct Hk.
Qed.

(** ** Texts joined by a line feed *)

(** X1.  Parsing is line by line.  For two texts joined by a line feed, the result
    is the result of the first followed by the result of the second parsed
    with header detection off, provided the first text contributes a line to
    the loop (it always does unless empty lines are skipped and it is
    blank). *)
Theorem parseText_joined (parseSettings : ParseSettings) (text1 text2 : jsstring) :
  skipEmptyLines parseSettings = false \/ nonblank text1 = true ->
  parseText parseSettings (text1 ++ 10 :: text2)
  = merge_results (parseText parseSettings text1)
                  (parseText (without_headers parseSettings) text2).
Proof.
  intros H. rewrite !parseText_kept_lines, kept_lines_app, forEach_app.
  pose proof (kept_lines_nonempty parseSettings text1 H) as Hn.
  destruct (kept_lines parseSettings text1) as [|l ls] eqn:E; [contradiction|].
  rewrite <- E. replace (0 + length (kept_lines parseSettings text1))%nat
    with (S (length ls)) by (rewrite E; reflexivity).
  rewrite (forEach_later parseSettings _ (length ls) 0%nat).
  rewrite forEach_acc. reflexivity.
Qed.

Lemma parseText_joined_witness :
  parseText initial_parseSettings (str "Name Value Unit" ++ 10 :: str "Hb 5 g/dL")
  = merge_results (parseText initial_parseSettings (str "Name Value Unit"))
                  (parseText (without_headers initial_parseSettings) (str "Hb 5 g/dL")).
Proof. apply parseText_joined. right. vm_compute. reflexivity. Defined.

(** ** The header line *)

(** X2.  With header detection on, a first line that holds one of the header
    keywords (in any case, anywhere in the line) is dropped without a record
    and without being counted as failed, whatever else it holds; the rest of
    the text is parsed as if header detection were off. *)
Theorem header_line_dropped (parseSettings : ParseSettings) (line rest : jsstring) :
  detectHeaders parseSettings = true ->
  Forall (fun x => x <> 10) line ->
  nonblank line = true ->
  isHeader (trim line) = true ->
  parseText parseSettings (line ++ 10 :: rest)
  = parseText (without_headers parseSettings) rest.
Proof.
  intros Hd Hl Hb Hh.
  rewrite !parseText_kept_lines, kept_lines_app.
  assert (E : kept_lines parseSettings line = [line]).
  { unfold kept_lines. rewrite (split_lines_single line Hl). simpl.
    unfold nonblank in Hb. destruct (trim line); [discriminate|].
    destruct (skipEmptyLines parseSettings); reflexivity. }
  rewrite E. simpl.
  assert (Hp : process_line parseSettings 0 line = Skipped).
  { unfold process_line. unfold nonblank in Hb. rewrite Hb, Hd.
    unfold isHeader in Hh. rewrite Hh. reflexivity. }
  rewrite Hp. apply forEach_later.
Qed.

Lemma header_line_dropped_witness :
  parseText initial_parseSettings
            (str "Testosterone: 5 ng/dL" ++ 10 :: str "Hb 5 g/dL")
  = parseText (without_headers initial_parseSettings) (str "Hb 5 g/dL")
  /\ length (components (parseText (without_headers initial_parseSettings)
                                   (str "Testosterone: 5 ng/dL"))) = 1%nat.
Proof.
  split.
  - apply header_line_dropped.
    + reflexivity.
    + vm_compute. repeat constructor; discriminate.
    + vm_compute. reflexivity.
    + vm_compute. reflexivity.
  - vm_compute. reflexivity.
Defined.

(** ** The switches the parser does not read *)

Lemma process_line_settings (ps ps' : ParseSettings) (i : nat) (line : jsstring) :
  detectHeaders ps = detectHeaders ps' ->
  process_line ps i line = process_line ps' i line.
Proof. intros H. unfold process_line. rewrite H. reflexivity. Qed.

Lemma forEach_settings (ps ps' : ParseSettings) (lines : list jsstring) :
  detectHeaders ps = detectHeaders ps' ->
  forall (i : nat) (acc : ParseResult),
    forEach ps i lines acc = forEach ps' i lines acc.
Proof.
  intros H. induction lines as [|line more IH]; intros i acc; simpl; [reflexivity|].
  rewrite (process_line_settings ps ps' i line H). apply IH.
Qed.

(** X3.  The result depends on the settings through "Auto-detect headers" and
    "Skip empty lines" only: the switches "Assume first column is test name",
    "Auto-detect units" and "Auto-detect reference ranges" (and
    [caseSensitive]) never change it. *)
Theorem unread_settings (parseSettings parseSettings' : ParseSettings)
        (text : jsstring) :
  detectHeaders parseSettings = detectHeaders parseSettings' ->
  skipEmptyLines parseSettings = skipEmptyLines parseSettings' ->
  parseText parseSettings text = parseText parseSettings' text.
Proof.
  intros Hd Hs. rewrite !parseText_kept_lines. unfold kept_lines. rewrite Hs.
  apply forEach_settings. exact Hd.
Qed.

Lemma unread_settings_witness :
  parseText initial_parseSettings (str "Hb 5 g/dL (3-7)")
  = parseText {| detectHeaders := true; assumeFirstColumnIsName := false;
                 detectUnits := false; detectRanges := false;
                 skipEmptyLines := true; caseSensitive := true |}
              (str "Hb 5 g/dL (3-7)").
Proof. apply unread_settings; reflexivity. Defined.

(** ** A blank text *)

Lemma split_lines_blank (text : jsstring) :
  Forall (fun x => isWhiteSpace x = true) text ->
  Forall (fun l => trim l = []) (split_lines text).
Proof.
  intros H. apply Forall_forall. intros l Hl. apply trim_blank.
  apply Forall_forall. intros x Hx. rewrite Forall_forall in H.
  apply H. eapply split_lines_In; eauto.
Qed.

Lemma forEach_blank (ps : ParseSettings) (lines : list jsstring) :
  Forall (fun l => trim l = []) lines ->
  forall (i : nat) (acc : ParseResult), forEach ps i lines acc = acc.
Proof.
  induction 1 as [|line more Hl Hm IH]; intros i acc; simpl; [reflexivity|].
  unfold process_line. rewrite Hl. simpl. apply IH.
Qed.

Lemma Forall_filter (A : Type) (P : A -> Prop) (f : A -> bool) (l : list A) :
  Forall P l -> Forall P (filter f l).
Proof.
  induction 1 as [|x t Hx Ht IH]; simpl; [constructor|].
  destruct (f x); [constructor; assumption | exact IH].
Qed.

Lemma parseText_blank (ps : ParseSettings) (text : jsstring) :
  trim text = [] -> parseText ps text = empty_result.
Proof.
  intros H. rewrite parseText_kept_lines. apply forEach_blank.
  unfold kept_lines. apply Forall_filter. apply split_lines_blank.
  apply trim_nil_blank. exact H.
Qed.

(** X4.  In auto mode the effect leaves the preview equal to what [parse] gives
    on the text, whatever the preview held before: the branch that clears
    the preview of a blank text agrees with the parser, which finds nothing
    in such a text and counts no failed line. *)
Theorem auto_parse_is_parse (searchTests : jsstring -> nat -> list TestLibraryItem.t)
        (parseSettings : ParseSettings) (debouncedText : jsstring)
        (state : list ParsedTestComponent * nat) :
  auto_parse_effect searchTests parseSettings parseMode_auto debouncedText state
  = parse searchTests parseSettings debouncedText
  /\ auto_parse_effect searchTests parseSettings parseMode_manual debouncedText state
     = state.
Proof.
  split; [|reflexivity].
  unfold auto_parse_effect. simpl.
  destruct (trim debouncedText) eqn:E; [|reflexivity]. simpl.
  unfold parse. rewrite (parseText_blank parseSettings debouncedText E). reflexivity.
Qed.

(** ** Counting the lines *)

Lemma nonblank_length (line : jsstring) :
  Nat.ltb 0 (length (trim line)) = nonblank line.
Proof. unfold nonblank. destruct (trim line); reflexivity. Qed.

Lemma forEach_count (ps : ParseSettings) (lines : list jsstring) :
  forall (i : nat) (acc : ParseResult),
    let r := forEach ps i lines acc in
    (length (components r) + failedLineCount r
     + match i, lines with
       | O, line :: _ =>
           if detectHeaders ps && nonblank line && isHeader (trim line)
           then 1 else 0
       | _, _ => 0
       end
     = length (components acc) + failedLineCount acc
       + length (filter nonblank lines))%nat.
Proof.
  induction lines as [|line more IH]; intros i acc; cbv zeta.
  - simpl. destruct i; lia.
  - simpl forEach.
    set (acc' := match process_line ps i line with
                 | Skipped => acc
                 | Parsed p => _
                 | Failed => _
                 end).
    pose proof (IH (S i) acc') as H. cbv zeta iota in H. clear IH.
    assert (Hacc :
      (length (components acc') + failedLineCount acc'
       + match i with
         | O => if detectHeaders ps && nonblank line && isHeader (trim line)
                then 1 else 0
         | S _ => 0
         end
       = length (components acc) + failedLineCount acc
         + (if nonblank line then 1 else 0))%nat).
    { subst acc'. unfold process_line, nonblank, isHeader.
      destruct (nonempty (trim line)); cbn [negb andb].
      - destruct i; cbn [Nat.eqb].
        + rewrite andb_true_r.
          destruct (detectHeaders ps); cbn [andb].
          * destruct (existsb _ headerKeywords); [lia|].
            destruct (extract (trim line)); simpl; rewrite ?length_app; simpl; lia.
          * destruct (extract (trim line)); simpl; rewrite ?length_app; simpl; lia.
        + rewrite andb_false_r.
          destruct (extract (trim line)); simpl; rewrite ?length_app; simpl; lia.
      - rewrite andb_false_r. cbn [andb]. destruct i; lia. }
    cbn [filter]. destruct (nonblank line); cbn [length]; destruct i; lia.
Qed.

Lemma filter_filter_same (A : Type) (f g : A -> bool) (l : list A) :
  (forall x, g x = true -> f x = true) -> filter g (filter f l) = filter g l.
Proof.
  intros H. induction l as [|x t IH]; simpl; [reflexivity|].
  destruct (f x) eqn:Hf; simpl.
  - rewrite IH. reflexivity.
  - destruct (g x) eqn:Hg; [rewrite (H x Hg) in Hf; discriminate | exact IH].
Qed.

(** X5.  Every line of the text that is not blank is accounted for: it gave a
    record, or it was counted as failed, or it was the one header line. *)
Theorem lines_accounted_for (parseSettings : ParseSettings) (text : jsstring) :
  let r := parseText parseSettings text in
  (length (components r) + failedLineCount r + skipped_header parseSettings text
   = length (filter nonblank (split_lines text)))%nat.
Proof.
  cbv zeta. rewrite parseText_kept_lines.
  pose proof (forEach_count parseSettings (kept_lines parseSettings text) 0 empty_result)
    as H.
  cbv zeta in H. unfold skipped_header.
  replace (filter nonblank (split_lines text))
    with (filter nonblank (kept_lines parseSettings text)).
  - destruct (kept_lines parseSettings text); simpl in *; lia.
  - unfold kept_lines. apply filter_filter_same. intros x Hx.
    destruct (skipEmptyLines parseSettings); [|reflexivity].
    rewrite nonblank_length. exact Hx.
Qed.

(** ** The order of the records *)

Lemma forEach_original_lines (ps : ParseSettings) (lines : list jsstring) :
  forall (i : nat),
    subsequence (map original_line (components (forEach ps i lines empty_result)))
                (map trim lines).
Proof.
  induction lines as [|line more IH]; intros i; simpl; [constructor|].
  rewrite forEach_acc. unfold merge_results. simpl. rewrite map_app.
  destruct (process_line ps i line) as [|p|] eqn:Hp; simpl.
  - apply subsequence_skip. apply IH.
  - apply process_line_inv in Hp. destruct Hp as (q & Hq & ->).
    destruct (validate_frame q) as (_&_&_&_&_&_&_&_&_&_&_&->).
    assert (Ho : original_line q = trim line).
    { apply extract_inv in Hq. destruct Hq as [(n & R & m & _ & _ & _ & Hb) | Hf].
      - apply build_record_basic in Hb. tauto.
      - apply fallback_basic in Hf. tauto. }
    rewrite Ho. apply subsequence_take. apply IH.
  - apply subsequence_skip. apply IH.
Qed.

Lemma subsequence_filter (A : Type) (f : A -> bool) (l : list A) :
  subsequence (filter f l) l.
Proof.
  induction l as [|x t IH]; simpl; [constructor|].
  destruct (f x); [apply subsequence_take | apply subsequence_skip]; exact IH.
Qed.

Lemma subsequence_trans (A : Type) (a b c : list A) :
  subsequence a b -> subsequence b c -> subsequence a c.
Proof.
  intros Hab Hbc. revert a Hab.
  induction Hbc; intros a Hab.
  - exact Hab.
  - apply subsequence_skip. apply IHHbc. exact Hab.
  - inversion Hab; subst.
    + apply subsequence_skip. apply IHHbc. assumption.
    + apply subsequence_take. apply IHHbc. assumption.
Qed.

Lemma subsequence_map (A B : Type) (f : A -> B) (l l' : list A) :
  subsequence l l' -> subsequence (map f l) (map f l').
Proof.
  induction 1; simpl;
    [constructor | apply subsequence_skip | apply subsequence_take]; assumption.
Qed.

(** X6.  The records come in the order of their lines, at most one per line: the
    list of their [original_line]s is the list of the trimmed lines of the
    text with some of them left out. *)
Theorem records_follow_lines (parseSettings : ParseSettings) (text : jsstring) :
  subsequence (map original_line (components (parseText parseSettings text)))
              (map trim (split_lines text)).
Proof.
  rewrite parseText_kept_lines.
  eapply subsequence_trans; [apply forEach_original_lines|].
  apply subsequence_map. unfold kept_lines. apply subsequence_filter.
Qed.

(** ** What [validate] pushes *)

Lemma validate_issues (q : ParsedTestComponent) :
  issues (validate q)
  = issues q ++ validation_issues (Nat.ltb (length (test_name q)) 2)
                                  (negb (nonempty (unit q))) (no_range q).
Proof.
  unfold validate, validation_issues, push, no_range.
  destruct (Nat.ltb (length (test_name q)) 2); simpl;
    destruct (negb (nonempty (unit q))); simpl;
    destruct (falsy_num (ref_range_min q) && falsy_num (ref_range_max q)
              && negb (truthy (ref_range_text q))); simpl;
    match goal with |- context [Nat.ltb 0 ?n] => destruct (Nat.ltb 0 n) end;
    simpl; rewrite <- ?app_assoc, ?app_nil_r; reflexivity.
Qed.

Lemma extract_issues (t : jsstring) (q : ParsedTestComponent) :
  extract t = Some q -> In (issues q) extraction_issues.
Proof.
  intros H. apply extract_inv in H. destruct H as [(n & R & m & _ & _ & _ & Hb) | Hf].
  - apply build_record_basic in Hb. destruct Hb as (_ & _ & _ & _ & -> & _).
    left. reflexivity.
  - apply fallback_basic in Hf. destruct Hf as (_ & _ & _ & _ & -> & _).
    right. left. reflexivity.
Qed.

Lemma extract_confidence (t : jsstring) (q : ParsedTestComponent) :
  extract t = Some q -> In (confidence q) (c0_2 :: seed_confidences).
Proof.
  intros H. apply extract_inv in H. destruct H as [(n & R & m & _ & _ & _ & Hb) | Hf].
  - right. eapply build_record_confidence; eauto.
  - apply fallback_basic in Hf.
    destruct Hf as (_ & _ & _ & _ & _ & _ & _ & _ & _ & -> & _). left. reflexivity.
Qed.

(** Every record of the output was extracted from a trimmed line and then
    validated. *)
Lemma parseText_validated (ps : ParseSettings) (text : jsstring)
      (p : ParsedTestComponent) :
  In p (components (parseText ps text)) ->
  exists line q, In line (split_lines text)
                 /\ extract (trim line) = Some q /\ p = validate q.
Proof.
  intros H. apply parseText_components in H. destruct H as (i & line & Hl & Hp).
  apply process_line_inv in Hp. destruct Hp as (q & Hq & ->).
  exists line, q. auto.
Qed.

Lemma validated_issue_count (q : ParsedTestComponent) :
  let short := Nat.ltb (length (test_name q)) 2 in
  ((if short then 1 else 0) <= length (issues (validate q))
   /\ length (issues q) <= length (issues (validate q))
   /\ length (issues (validate q)) <= length (issues q) + 3)%nat.
Proof.
  cbv zeta. rewrite validate_issues, length_app. unfold validation_issues.
  destruct (Nat.ltb (length (test_name q)) 2), (negb (nonempty (unit q))),
    (no_range q); simpl; lia.
Qed.

(** ** The confidence of a record *)

(** Every case of [validated_confidence] on the confidences the extraction
    can produce, evaluated: the result lies between 0.1 and 1. *)
Lemma validated_confidence_bounds :
  forallb (fun c =>
     forallb (fun short =>
        forallb (fun n =>
                   num_le c0_1 (validated_confidence c short n)
                   && num_le (validated_confidence c short n) c1_0)
                (List.seq (if short then 1 else 0) 6))
        [true; false])
     (c0_2 :: seed_confidences) = true.
Proof. vm_compute. reflexivity. Qed.

Lemma enrich_frame (searchTests : jsstring -> nat -> list TestLibraryItem.t)
      (c : ParsedTestComponent) :
  let c' := enrich searchTests c in
  test_name c' = test_name c /\ value c' = value c
  /\ ref_range_min c' = ref_range_min c /\ ref_range_max c' = ref_range_max c
  /\ ref_range_text c' = ref_range_text c /\ status c' = status c
  /\ original_line c' = original_line c /\ confidence c' = confidence c.
Proof. unfold enrich. frame. Qed.

Lemma parse_enriched (searchTests : jsstring -> nat -> list TestLibraryItem.t)
      (ps : ParseSettings) (text : jsstring) (p : ParsedTestComponent) :
  In p (fst (parse searchTests ps text)) ->
  exists c, In c (components (parseText ps text)) /\ p = enrich searchTests c.
Proof.
  unfold parse, enrichWithStandardizedTests. simpl. intros H.
  apply in_map_iff in H. destruct H as (c & <- & Hc). exists c; auto.
Qed.

(** X7.  The confidence of every record of [parse] is a score between 0.1 and 1. *)
Theorem confidence_in_range (searchTests : jsstring -> nat -> list TestLibraryItem.t)
        (parseSettings : ParseSettings) (text : jsstring) (p : ParsedTestComponent) :
  In p (fst (parse searchTests parseSettings text)) ->
  num_le c0_1 (confidence p) = true /\ num_le (confidence p) c1_0 = true.
Proof.
  intros H. apply parse_enriched in H. destruct H as (c & Hc & ->).
  destruct (enrich_frame searchTests c) as (_&_&_&_&_&_&_&->).
  apply parseText_validated in Hc. destruct Hc as (line & q & _ & Hq & ->).
  pose proof (extract_confidence _ _ Hq) as Hconf.
  pose proof (extract_issues _ _ Hq) as Hiss.
  destruct (validate_confidence q) as [-> _].
  destruct (validated_issue_count q) as (Hlo & _ & Hhi). 
  assert (Hn : (length (issues q) <= 2)%nat).
  { destruct Hiss as [<- | [<- | []]]; simpl; lia. }
  pose proof validated_confidence_bounds as E.
  rewrite forallb_forall in E. specialize (E _ Hconf).
  rewrite forallb_forall in E.
  specialize (E (Nat.ltb (length (test_name q)) 2)
                ltac:(destruct (Nat.ltb (length (test_name q)) 2); simpl; auto)).
  rewrite forallb_forall in E.
  apply andb_prop. apply E. apply in_seq.
  destruct (Nat.ltb (length (test_name q)) 2); lia.
Qed.

Lemma confidence_in_range_witness :
  exists p,
    fst (parse sample_searchTests initial_parseSettings (str "Hb 5")) = [p]
    /\ confidence p = c0_1
    /\ num_le c0_1 (confidence p) = true /\ num_le (confidence p) c1_0 = true.
Proof.
  eexists. split; [vm_compute; reflexivity|].
  split; [vm_compute; reflexivity|].
  apply (confidence_in_range sample_searchTests initial_parseSettings (str "Hb 5")).
  vm_compute. left. reflexivity.
Defined.

(** ** Records of the fallback *)

(** X8.  A record of the fallback always ends the same way: no unit, no range, no
    status, the two issues of the fallback followed by those of the
    validation, a confidence of exactly 0.1, and so the colour red. *)
Theorem fallback_record_is_red (trimmedLine : jsstring) (q : ParsedTestComponent) :
  fallback trimmedLine = Some q ->
  let p := validate q in
  confidence p = c0_1
  /\ getConfidenceColor (confidence p) = str "red"
  /\ unit p = [] /\ status p = None /\ abbreviation p = None
  /\ ref_range_min p = None /\ ref_range_max p = None /\ ref_range_text p = None
  /\ issues p
     = [str "Could not detect unit"; str "Could not detect reference range"]
       ++ validation_issues (Nat.ltb (length (test_name q)) 2) true true.
Proof.
  intros H. cbv zeta.
  assert (Hs : status q = None /\ abbreviation q = None).
  { unfold fallback in H. destruct (exec fallback_regexp trimmedLine); [|discriminate].
    destruct (negb _); [|discriminate]. injection H as <-. auto. }
  destruct Hs as [Hs Ha].
  apply fallback_basic in H.
  destruct H as (_ & _ & _ & _ & Hi & Hu & Hmin & Hmax & Htxt & Hc & _ & _).
  assert (Hiss : issues (validate q)
                 = [str "Could not detect unit"; str "Could not detect reference range"]
                   ++ validation_issues (Nat.ltb (length (test_name q)) 2) true true).
  { rewrite validate_issues, Hi, Hu. unfold no_range. rewrite Hmin, Hmax, Htxt.
    reflexivity. }
  assert (Hconf : confidence (validate q) = c0_1).
  { destruct (validate_confidence q) as [-> _]. rewrite Hiss, Hc.
    destruct (Nat.ltb (length (test_name q)) 2); vm_compute; reflexivity. }
  destruct (validate_frame q) as (_ & Ha' & _ & _ & Hu' & Hmin' & Hmax' & Htxt' & Hs' & _).
  rewrite Hconf, Hu', Hs', Ha', Hmin', Hmax', Htxt', Hiss.
  split; [reflexivity|]. split; [vm_compute; reflexivity|].
  rewrite Hu, Hs, Ha, Hmin, Hmax, Htxt. repeat split.
Qed.

Lemma fallback_record_is_red_witness :
  exists q, fallback (str "Hb 5") = Some q
            /\ confidence (validate q) = c0_1
            /\ getConfidenceColor (confidence (validate q)) = str "red".
Proof.
  eexists. split; [vm_compute; reflexivity|].
  destruct (fallback_record_is_red (str "Hb 5") _ ltac:(vm_compute; reflexivity))
    as (H1 & H2 & _).
  split; assumption.
Defined.

(** ** Issues *)

Lemma validated_not_green :
  forallb (fun c =>
     forallb (fun short =>
        forallb (fun n =>
                   negb (jsstring_eqb (getConfidenceColor (validated_confidence c short n))
                                      (str "green")))
                (List.seq 2 4))
        [true; false])
     (c0_2 :: seed_confidences) = true.
Proof. vm_compute. reflexivity. Qed.

Lemma remove_first_occurrence_length (x : jsstring) (l : list jsstring) :
  (length (remove_first_occurrence x l) <= length l)%nat.
Proof.
  induction l as [|y t IH]; simpl; [lia|].
  destruct (jsstring_eqb y x); simpl; lia.
Qed.

(** What the enrichment does to the unit and to the issues: nothing, or it
    fills an empty unit and takes the first 'Unit not detected' out. *)
Lemma enrich_unit_cases (searchTests : jsstring -> nat -> list TestLibraryItem.t)
      (c : ParsedTestComponent) :
  let c' := enrich searchTests c in
  (unit c' = unit c /\ issues c' = issues c)
  \/ (unit c = [] /\ nonempty (unit c') = true
      /\ issues c'
         = remove_first_occurrence (str "Unit not detected") (issues c)).
Proof.
  cbv zeta. unfold enrich.
  destruct (lookup searchTests c) as [t|]; [|left; auto].
  destruct c as [tn ab cn v u rmin rmax rtxt st cat lc ol cf iss].
  destruct u as [|x u]; cbn -[remove_first_occurrence str]; split_cases;
    cbn -[remove_first_occurrence str];
    try (left; split; reflexivity);
    try match goal with
        | H : negb _ && _ = true |- _ => simpl in H; discriminate H
        end;
    right; (split; [reflexivity|]); (split; [|reflexivity]);
    match goal with
    | H : _ && nonempty (TestLibraryItem.default_unit _) = true |- _ =>
        apply andb_prop in H; destruct H as [_ H]; exact H
    end.
Qed.

(** X9.  A row of [parse] that carries two issues or more is never shown green. *)
Theorem two_issues_never_green
        (searchTests : jsstring -> nat -> list TestLibraryItem.t)
        (parseSettings : ParseSettings) (text : jsstring) (p : ParsedTestComponent) :
  In p (fst (parse searchTests parseSettings text)) ->
  (2 <= length (issues p))%nat ->
  getConfidenceColor (confidence p) <> str "green".
Proof.
  intros H Hn. apply parse_enriched in H. destruct H as (c & Hc & ->).
  destruct (enrich_frame searchTests c) as (_&_&_&_&_&_&_&->).
  assert (Hn' : (2 <= length (issues c))%nat).
  { destruct (enrich_unit_cases searchTests c) as [[_ E] | (_ & _ & E)];
      rewrite E in Hn; [exact Hn|].
    pose proof (remove_first_occurrence_length (str "Unit not detected") (issues c)).
    lia. }
  clear Hn.
  apply parseText_validated in Hc. destruct Hc as (line & q & _ & Hq & ->).
  pose proof (extract_confidence _ _ Hq) as Hconf.
  pose proof (extract_issues _ _ Hq) as Hiss.
  destruct (validate_confidence q) as [-> _].
  destruct (validated_issue_count q) as (_ & _ & Hhi).
  assert (Hq2 : (length (issues q) <= 2)%nat).
  { destruct Hiss as [<- | [<- | []]]; simpl; lia. }
  pose proof validated_not_green as E.
  rewrite forallb_forall in E. specialize (E _ Hconf).
  rewrite forallb_forall in E.
  specialize (E (Nat.ltb (length (test_name q)) 2)
                ltac:(destruct (Nat.ltb (length (test_name q)) 2); simpl; auto)).
  rewrite forallb_forall in E.
  specialize (E (length (issues (validate q))) ltac:(apply in_seq; lia)).
  intros Heq. rewrite Heq in E. vm_compute in E. discriminate.
Qed.

Lemma two_issues_never_green_witness :
  exists p,
    fst (parse sample_searchTests initial_parseSettings (str "K: 4")) = [p]
    /\ length (issues p) = 3%nat
    /\ getConfidenceColor (confidence p) <> str "green".
Proof.
  eexists. split; [vm_compute; reflexivity|].
  split; [vm_compute; reflexivity|].
  apply (two_issues_never_green sample_searchTests initial_parseSettings (str "K: 4")).
  - vm_compute. left. reflexivity.
  - vm_compute. lia.
Defined.

Ltac decide_issue_lists :=
  repeat match goal with
         | |- NoDup [] => constructor
         | |- NoDup (_ :: _) => constructor
         | |- ~ In _ _ =>
             let H := fresh in
             intros H; simpl in H;
             repeat (destruct H as [H | H]; [vm_compute in H; discriminate H|]);
             exact H
         end.

Lemma issue_lists_NoDup (l : list jsstring) (short unitless rangeless : bool) :
  In l extraction_issues ->
  NoDup (l ++ validation_issues short unitless rangeless).
Proof.
  intros [<- | [<- | []]]; destruct short, unitless, rangeless;
    unfold validation_issues; simpl; decide_issue_lists.
Qed.

Lemma NoDup_remove_first_occurrence (x : jsstring) (l : list jsstring) :
  NoDup l ->
  NoDup (remove_first_occurrence x l) /\ ~ In x (remove_first_occurrence x l).
Proof.
  induction 1 as [|y t Hy Ht [IH1 IH2]]; simpl.
  - split; [constructor | tauto].
  - unfold jsstring_eqb. destruct (list_eq_dec N.eq_dec y x) as [-> | Hne].
    + split; assumption.
    + assert (Hincl : forall z, In z (remove_first_occurrence x t) -> In z t).
      { clear. induction t as [|a t IH]; simpl; [tauto|].
        intros z. unfold jsstring_eqb. destruct (list_eq_dec N.eq_dec a x); simpl; auto.
        intros [-> | H]; auto. }
      split.
      * constructor; [|exact IH1]. intros H. apply Hy. apply Hincl. exact H.
      * simpl. intros [E | H]; [contradiction | contradiction].
Qed.

(** X10.  No record of [parse] lists the same issue twice. *)
Theorem issues_without_duplicates
        (searchTests : jsstring -> nat -> list TestLibraryItem.t)
        (parseSettings : ParseSettings) (text : jsstring) (p : ParsedTestComponent) :
  In p (fst (parse searchTests parseSettings text)) -> NoDup (issues p).
Proof.
  intros H. apply parse_enriched in H. destruct H as (c & Hc & ->).
  apply parseText_validated in Hc. destruct Hc as (line & q & _ & Hq & ->).
  assert (Hn : NoDup (issues (validate q))).
  { rewrite validate_issues. apply issue_lists_NoDup. eapply extract_issues; eauto. }
  destruct (enrich_unit_cases searchTests (validate q)) as [[_ ->] | (_ & _ & ->)];
    [exact Hn|].
  apply NoDup_remove_first_occurrence. exact Hn.
Qed.

Lemma issues_without_duplicates_witness :
  exists p,
    fst (parse sample_searchTests initial_parseSettings (str "Hb 5")) = [p]
    /\ length (issues p) = 4%nat /\ NoDup (issues p).
Proof.
  eexists. split; [vm_compute; reflexivity|].
  split; [vm_compute; reflexivity|].
  apply (issues_without_duplicates sample_searchTests initial_parseSettings (str "Hb 5")).
  vm_compute. left. reflexivity.
Defined.

Lemma unit_not_detected_pushed (l : list jsstring) (short unitless rangeless : bool) :
  In l extraction_issues ->
  (In (str "Unit not detected") (l ++ validation_issues short unitless rangeless)
   <-> unitless = true).
Proof.
  intros [<- | [<- | []]]; destruct short, unitless, rangeless;
    unfold validation_issues; simpl; split; intros H; try reflexivity;
    try discriminate; auto 10;
    repeat (destruct H as [H | H]; [vm_compute in H; discriminate H|]);
    destruct H.
Qed.

(** X11.  After [parse], a record has an empty unit exactly when its issues hold
    'Unit not detected': the validation raises the issue for an empty unit
    only, and the enrichment takes it out when it fills the unit in. *)
Theorem unit_empty_iff_flagged
        (searchTests : jsstring -> nat -> list TestLibraryItem.t)
        (parseSettings : ParseSettings) (text : jsstring) (p : ParsedTestComponent) :
  In p (fst (parse searchTests parseSettings text)) ->
  (unit p = [] <-> In (str "Unit not detected") (issues p)).
Proof.
  intros H. apply parse_enriched in H. destruct H as (c & Hc & ->).
  apply parseText_validated in Hc. destruct Hc as (line & q & _ & Hq & ->).
  pose proof (extract_issues _ _ Hq) as Hiss.
  assert (Hv : unit (validate q) = []
               <-> In (str "Unit not detected") (issues (validate q))).
  { rewrite validate_issues, (unit_not_detected_pushed _ _ _ _ Hiss).
    destruct (validate_frame q) as (_&_&_&_& -> &_).
    destruct (unit q); simpl; split; intros; congruence. }
  assert (Hn : NoDup (issues (validate q))).
  { rewrite validate_issues. apply issue_lists_NoDup. exact Hiss. }
  destruct (enrich_unit_cases searchTests (validate q)) as [[-> ->] | (_ & Hu & ->)];
    [exact Hv|].
  split.
  - intros E. rewrite E in Hu. discriminate.
  - intros Hin. exfalso.
    apply (proj2 (NoDup_remove_first_occurrence (str "Unit not detected") _ Hn)).
    exact Hin.
Qed.

Lemma unit_empty_iff_flagged_witness :
  exists p,
    fst (parse sample_searchTests initial_parseSettings (str "WBC: 7.5")) = [p]
    /\ unit p = str "x10E3/uL"
    /\ (unit p = [] <-> In (str "Unit not detected") (issues p)).
Proof.
  eexists. split; [vm_compute; reflexivity|].
  split; [vm_compute; reflexivity|].
  apply (unit_empty_iff_flagged sample_searchTests initial_parseSettings (str "WBC: 7.5")).
  vm_compute. left. reflexivity.
Defined.

(** ** The enrichment *)

(** The record the enrichment returns when the catalog has an entry, field
    by field. *)
Lemma enrich_found (searchTests : jsstring -> nat -> list TestLibraryItem.t)
      (c : ParsedTestComponent) (t : TestLibraryItem.t) :
  lookup searchTests c = Some t ->
  let fill := negb (nonempty (unit c)) && nonempty (TestLibraryItem.default_unit t) in
  enrich searchTests c
  = {| test_name := test_name c;
       abbreviation :=
         if negb (truthy (abbreviation c)) && truthy (TestLibraryItem.abbreviation t)
         then TestLibraryItem.abbreviation t else abbreviation c;
       canonical_test_name := Some (TestLibraryItem.test_name t);
       value := value c;
       unit := if fill then TestLibraryItem.default_unit t else unit c;
       ref_range_min := ref_range_min c; ref_range_max := ref_range_max c;
       ref_range_text := ref_range_text c; status := status c;
       category := if nonempty (TestLibraryItem.category t)
                   then Some (TestLibraryItem.category t) else category c;
       loinc_code := if truthy (TestLibraryItem.test_code t)
                     then TestLibraryItem.test_code t else loinc_code c;
       original_line := original_line c; confidence := confidence c;
       issues := if fill
                 then remove_first_occurrence (str "Unit not detected") (issues c)
                 else issues c |}.
Proof.
  intros Hl. cbv zeta. unfold enrich. rewrite Hl. cbv zeta.
  destruct c as [tn ab cn v u rmin rmax rtxt st cat lc ol cf iss].
  cbn -[remove_first_occurrence str truthy nonempty negb andb].
  destruct (negb (truthy ab) && truthy (TestLibraryItem.abbreviation t));
    cbn -[remove_first_occurrence str truthy nonempty negb andb];
    destruct (negb (nonempty u) && nonempty (TestLibraryItem.default_unit t));
    cbn -[remove_first_occurrence str truthy nonempty negb andb];
    destruct (nonempty (TestLibraryItem.category t));
    cbn -[remove_first_occurrence str truthy nonempty negb andb];
    destruct (truthy (TestLibraryItem.test_code t));
    reflexivity.
Qed.

(** X12.  Running the enrichment on its own output changes nothing. *)
Theorem enrich_idempotent (searchTests : jsstring -> nat -> list TestLibraryItem.t)
        (components : list ParsedTestComponent) :
  enrichWithStandardizedTests searchTests
    (enrichWithStandardizedTests searchTests components)
  = enrichWithStandardizedTests searchTests components.
Proof.
  unfold enrichWithStandardizedTests. rewrite map_map. apply map_ext.
  intros c.
  assert (Hl : lookup searchTests (enrich searchTests c) = lookup searchTests c).
  { unfold lookup. rewrite enrich_test_name. reflexivity. }
  destruct (lookup searchTests c) as [t|] eqn:Ht.
  - rewrite (enrich_found searchTests (enrich searchTests c) t Hl).
    rewrite (enrich_found searchTests c t Ht).
    cbn [test_name abbreviation canonical_test_name value unit ref_range_min
         ref_range_max ref_range_text status category loinc_code original_line
         confidence issues].
    assert (Ha : forall a b : option jsstring,
               (if negb (truthy (if negb (truthy a) && truthy b then b else a))
                   && truthy b
                then b else if negb (truthy a) && truthy b then b else a)
               = (if negb (truthy a) && truthy b then b else a)).
    { intros a b. destruct (truthy a) eqn:Ea, (truthy b) eqn:Eb; simpl;
        rewrite ?Ea, ?Eb; reflexivity. }
    assert (Hu : forall u d : jsstring,
               negb (nonempty (if negb (nonempty u) && nonempty d then d else u))
               && nonempty d = false).
    { intros u d. destruct (nonempty u) eqn:Eu, (nonempty d) eqn:Ed; simpl;
        rewrite ?Eu, ?Ed; reflexivity. }
    rewrite Ha, Hu.
    destruct (nonempty (TestLibraryItem.category t)),
      (truthy (TestLibraryItem.test_code t)); reflexivity.
  - unfold enrich at 1. rewrite Hl. reflexivity.
Qed.

(** X13.  What was read from the line wins over the catalog: the enrichment never
    changes the value, the range, the status, the confidence or the original
    line, it leaves a unit that is not empty and the issues that go with it
    alone, and it keeps an abbreviation that was detected. *)
Theorem enrich_keeps_parsed_data
        (searchTests : jsstring -> nat -> list TestLibraryItem.t)
        (c : ParsedTestComponent) :
  let c' := enrich searchTests c in
  value c' = value c
  /\ ref_range_min c' = ref_range_min c /\ ref_range_max c' = ref_range_max c
  /\ ref_range_text c' = ref_range_text c /\ status c' = status c
  /\ confidence c' = confidence c /\ original_line c' = original_line c
  /\ (nonempty (unit c) = true -> unit c' = unit c /\ issues c' = issues c)
  /\ (truthy (abbreviation c) = true -> abbreviation c' = abbreviation c).
Proof.
  cbv zeta.
  destruct (enrich_frame searchTests c) as (_ & Hv & Hmin & Hmax & Htxt & Hs & Ho & Hc).
  repeat (split; [assumption|]). split.
  - intros Hu.
    destruct (enrich_unit_cases searchTests c) as [H | (E & _)]; [exact H|].
    rewrite E in Hu. discriminate.
  - unfold enrich. destruct (lookup searchTests c) as [t|]; [|reflexivity].
    intros Ha. cbv zeta. cbn [abbreviation set_canonical_test_name]. rewrite Ha.
    cbn [negb andb]. split_cases; reflexivity.
Qed.

Lemma enrich_keeps_parsed_data_witness :
  exists c,
    extract (str "WBC 7.5 K/uL 4.5-11.0") = Some c
    /\ unit (enrich sample_searchTests c) = str "K/uL"
    /\ category (enrich sample_searchTests c) = Some (str "hematology").
Proof.
  eexists. split; [vm_compute; reflexivity|].
  split; [|vm_compute; reflexivity].
  destruct (enrich_keeps_parsed_data sample_searchTests
              (match extract (str "WBC 7.5 K/uL 4.5-11.0") with
               | Some c => c
               | None => initial_record [] [] c0 []
               end))
    as (_&_&_&_&_&_&_& Hu &_).
  specialize (Hu ltac:(vm_compute; reflexivity)). destruct Hu as [Hu _].
  vm_compute in Hu |- *. exact Hu.
Defined.

(** ** The remove button of a row *)

Lemma filter_indexed_remove (index : nat) (l : list ParsedTestComponent) :
  forall i : nat,
    filter_indexed (fun _ k => negb (Nat.eqb k index)) i l
    = if Nat.ltb index i then l
      else firstn (index - i) l ++ skipn (S (index - i)) l.
Proof.
  induction l as [|x t IH]; intros i; simpl.
  - destruct (Nat.ltb index i); [reflexivity|].
    rewrite firstn_nil. reflexivity.
  - rewrite IH. destruct (Nat.eqb_spec i index) as [-> | Hne]; simpl.
    + rewrite Nat.ltb_irrefl, Nat.sub_diag.
      replace (Nat.ltb index (S index)) with true
        by (symmetry; apply Nat.ltb_lt; lia).
      reflexivity.
    + destruct (Nat.ltb_spec index i) as [Hlt | Hge].
      * replace (Nat.ltb index (S i)) with true by (symmetry; apply Nat.ltb_lt; lia).
        reflexivity.
      * replace (Nat.ltb index (S i)) with false by (symmetry; apply Nat.ltb_ge; lia).
        replace (index - i)%nat with (S (index - S i)) by lia. reflexivity.
Qed.

(** X14.  Removing row [index] leaves the rows before it where they are and moves
    each later row up by one; with an index past the end the list is
    unchanged. *)
Theorem remove_row (index : nat) (prev : list ParsedTestComponent) :
  handleComponentRemove index prev = firstn index prev ++ skipn (S index) prev
  /\ (forall i : nat,
        nth_error (handleComponentRemove index prev) i
        = if Nat.ltb i index then nth_error prev i else nth_error prev (S i))
  /\ (length prev <= index -> handleComponentRemove index prev = prev)%nat
  /\ (index < length prev ->
      S (length (handleComponentRemove index prev)) = length prev)%nat.
Proof.
  assert (E : handleComponentRemove index prev
              = firstn index prev ++ skipn (S index) prev).
  { unfold handleComponentRemove. rewrite filter_indexed_remove. simpl.
    rewrite Nat.sub_0_r. reflexivity. }
  rewrite E. split; [reflexivity|]. split; [|split].
  - intros i. destruct (Nat.ltb_spec i index) as [Hlt | Hge].
    + destruct (Nat.lt_ge_cases i (length prev)) as [Hi | Hi].
      * rewrite nth_error_app1 by (rewrite length_firstn; lia).
        rewrite nth_error_firstn.
        replace (Nat.ltb i index) with true by (symmetry; apply Nat.ltb_lt; lia).
        reflexivity.
      * rewrite (proj2 (nth_error_None prev i)) by exact Hi.
        apply nth_error_None. rewrite length_app, length_firstn, length_skipn. lia.
    + destruct (Nat.le_gt_cases (length prev) index) as [Hl | Hl].
      * rewrite (proj2 (nth_error_None prev (S i))) by lia.
        apply nth_error_None. rewrite length_app, length_firstn, length_skipn. lia.
      * rewrite nth_error_app2 by (rewrite length_firstn; lia).
        rewrite length_firstn, nth_error_skipn.
        f_equal. lia.
  - intros Hl. rewrite firstn_all2 by exact Hl.
    rewrite skipn_all2 by lia. apply app_nil_r.
  - intros Hl. rewrite length_app, length_firstn, length_skipn. lia.
Qed.

Lemma remove_row_witness :
  let a := initial_record [] (str "a") c0 [] in
  let b := initial_record [] (str "b") c0 [] in
  let c := initial_record [] (str "c") c0 [] in
  handleComponentRemove 1 [a; b; c] = [a; c]
  /\ handleComponentRemove 3 [a; b; c] = [a; b; c].
Proof.
  intros a b c.
  destruct (remove_row 1 [a; b; c]) as (E1 & _).
  destruct (remove_row 3 [a; b; c]) as (_ & _ & E3 & _).
  split; [exact E1 | apply E3; simpl; lia].
Defined.

(** ** What is submitted *)

Lemma nth_error_map_indexed (A B : Type) (f : A -> nat -> B) (l : list A) :
  forall (i k : nat),
    nth_error (map_indexed f i l) k = option_map (fun x => f x (i + k)%nat) (nth_error l k).
Proof.
  induction l as [|x t IH]; intros i k; simpl.
  - destruct k; reflexivity.
  - destruct k; simpl.
    + rewrite Nat.add_0_r. reflexivity.
    + rewrite IH. replace (S i + k)%nat with (i + S k)%nat by lia. reflexivity.
Qed.

Lemma length_map_indexed (A B : Type) (f : A -> nat -> B) (l : list A) :
  forall i : nat, length (map_indexed f i l) = length l.
Proof. induction l as [|x t IH]; intros i; simpl; [reflexivity|]. rewrite IH. reflexivity. Qed.

Lemma trim_ratio : trim (str "ratio") = str "ratio".
Proof. vm_compute. reflexivity. Qed.

(** X15.  The objects sent are the rows with a name that is not blank, in their
    order and numbered from 1: row [k] of [validComponents] becomes object [k]
    with [display_order] k + 1, the same name and value, and a unit that is
    never empty nor padded ('ratio' stands in for a blank unit); its notes
    are absent exactly when the row has no issue. *)
Theorem submitted_components (labResultId : nat)
        (parsedComponents : list ParsedTestComponent) :
  length (componentsToCreate labResultId parsedComponents)
  = length (validComponents parsedComponents)
  /\ forall (k : nat) (r : LabTestComponentCreate.t),
       nth_error (componentsToCreate labResultId parsedComponents) k = Some r ->
       exists comp,
         nth_error (validComponents parsedComponents) k = Some comp
         /\ LabTestComponentCreate.display_order r = S k
         /\ LabTestComponentCreate.lab_result_id r = labResultId
         /\ LabTestComponentCreate.test_name r = test_name comp
         /\ LabTestComponentCreate.value r = value comp
         /\ LabTestComponentCreate.unit r <> []
         /\ trim (LabTestComponentCreate.unit r) = LabTestComponentCreate.unit r
         /\ (nonempty (trim (unit comp)) = false ->
             LabTestComponentCreate.unit r = str "ratio")
         /\ (LabTestComponentCreate.notes r = None <-> issues comp = []).
Proof.
  unfold componentsToCreate, validComponents. split; [apply length_map_indexed|].
  intros k r. rewrite nth_error_map_indexed.
  destruct (nth_error _ k) as [comp|]; [|discriminate].
  simpl. intros [= <-]. exists comp. cbn -[trim str].
  split; [reflexivity|]. split; [lia|]. split; [reflexivity|].
  split; [reflexivity|]. split; [reflexivity|].
  split; [|split; [|split]].
  - destruct (trim (unit comp)); simpl; [vm_compute|]; discriminate.
  - destruct (trim (unit comp)) eqn:E; simpl; [apply trim_ratio|].
    rewrite <- E. apply trim_idempotent.
  - intros ->. reflexivity.
  - destruct (issues comp); simpl; split; intros; try reflexivity; discriminate.
Qed.

Lemma submitted_components_witness :
  exists r,
    componentsToCreate 7 (fst (parse sample_searchTests initial_parseSettings
                                     (str "Hb 5")))
    = [r]
    /\ LabTestComponentCreate.unit r = str "ratio"
    /\ LabTestComponentCreate.display_order r = 1%nat.
Proof.
  eexists. split; [vm_compute; reflexivity|].
  destruct (submitted_components 7
              (fst (parse sample_searchTests initial_parseSettings (str "Hb 5"))))
    as [_ H].
  destruct (H 0%nat _ ltac:(vm_compute; reflexivity))
    as (comp & Hc & Hd & _ & _ & _ & _ & _ & Hu & _).
  split; [|exact Hd].
  apply Hu. vm_compute in Hc. injection Hc as <-. vm_compute. reflexivity.
Defined.

(** ** More on captured groups *)

Lemma clear_caps_nil (c : captures) : clear_caps [] c = c.
Proof.
  unfold clear_caps. induction c as [|p c IH]; simpl; [reflexivity|].
  f_equal. exact IH.
Qed.

(** A pattern without groups leaves the captures alone. *)
Lemma sem_no_groups (i : bool) (r : regex) :
  groups_of r = [] -> forall w c c', sem i r w c c' -> c' = c.
Proof.
  induction r as [ | cs | r1 IH1 r2 IH2 | r1 IH1 r2 IH2 | n r1 IH1 | r1 IH1
                 | g cs | g cs | | | ]; simpl; intros G w c c' H.
  - tauto.
  - destruct H as (x & _ & _ & ->); reflexivity.
  - apply app_eq_nil in G. destruct G as [G1 G2].
    destruct H as (w1 & w2 & c1 & _ & H1 & H2).
    rewrite (IH2 G2 _ _ _ H2). eapply IH1; eauto.
  - apply app_eq_nil in G. destruct G as [G1 G2]. destruct H as [H | H]; eauto.
  - discriminate.
  - destruct H as [[_ H] | [_ ->]]; [|reflexivity].
    rewrite G, clear_caps_nil in H. eapply IH1; eauto.
  - tauto.
  - tauto.
  - tauto.
  - tauto.
  - tauto.
Qed.

(** A group between two patterns without groups is set by every match. *)
Lemma sem_sandwich (i : bool) (a b r : regex) (n : nat) (w : jsstring)
      (c c' : captures) :
  groups_of a = [] -> groups_of b = [] ->
  sem i (seq [a; Group n r; b]) w c c' ->
  exists v c1, sem i r v c c1 /\ cap n c' = Some v.
Proof.
  intros Ga Gb H. simpl in H.
  destruct H as (w1 & w2 & c1 & _ & Ha & (w3 & w4 & c2 & _ & (c3 & Hr & ->) & Hb)).
  apply (sem_no_groups i a Ga) in Ha. apply (sem_no_groups i b Gb) in Hb. subst.
  exists w3, c3. split; [exact Hr|]. simpl. rewrite Nat.eqb_refl. reflexivity.
Qed.

(** A captured text is a piece of the text the pattern consumed. *)
Lemma sem_cap_infix (i : bool) (r : regex) :
  forall w c c', sem i r w c c' ->
  forall n v, cap n c' = Some v ->
              cap n c = Some v \/ exists a b, w = a ++ v ++ b.
Proof.
  induction r as [ | cs | r1 IH1 r2 IH2 | r1 IH1 r2 IH2 | k r1 IH1 | r1 IH1
                 | g cs | g cs | | | ]; simpl; intros w c c' H n v Hv.
  - destruct H as [_ ->]; auto.
  - destruct H as (x & _ & _ & ->); auto.
  - destruct H as (w1 & w2 & c1 & -> & H1 & H2).
    destruct (IH2 _ _ _ H2 n v Hv) as [Hc | (a & b & ->)].
    + destruct (IH1 _ _ _ H1 n v Hc) as [Hc' | (a & b & ->)]; [auto|].
      right. exists a, (b ++ w2). rewrite <- !app_assoc. reflexivity.
    + right. exists (w1 ++ a), b. rewrite <- !app_assoc. reflexivity.
  - destruct H as [H | H]; eauto.
  - destruct H as (c1 & H1 & ->). simpl in Hv.
    destruct (Nat.eqb n k).
    + injection Hv as <-. right. exists [], []. rewrite app_nil_r. reflexivity.
    + eauto.
  - destruct H as [[_ H] | [_ ->]]; [|auto].
    destruct (IH1 _ _ _ H n v Hv) as [Hc | Hw]; [|auto].
    left. rewrite cap_clear_caps in Hc.
    destruct (existsb (Nat.eqb n) (groups_of r1)); [discriminate | exact Hc].
  - destruct H as [_ ->]; auto.
  - destruct H as (_ & _ & ->); auto.
  - destruct H as [_ ->]; auto.
  - destruct H as [_ ->]; auto.
  - destruct H as [_ ->]; auto.
Qed.

Lemma exec_group_infix (R : RegExpObject) (S : jsstring) (m : match_result)
      (n : nat) (v : jsstring) :
  exec R S = Some m -> group n m = Some v -> exists a b, S = a ++ v ++ b.
Proof.
  intros H Hv. apply exec_sound in H. destruct H as (pre & post & -> & Hs).
  destruct (sem_cap_infix _ _ _ _ _ Hs n v Hv) as [Hc | (a & b & ->)];
    [discriminate|].
  exists (pre ++ a), (b ++ post). rewrite <- !app_assoc. reflexivity.
Qed.

Lemma sem_alt (i : bool) (rs : list regex) (w : jsstring) (c c' : captures) :
  rs <> [] -> sem i (alt rs) w c c' -> exists r, In r rs /\ sem i r w c c'.
Proof.
  induction rs as [|r rs IH]; [contradiction|]. intros _ H.
  destruct rs as [|r' rs].
  - exists r. simpl; auto.
  - change (alt (r :: r' :: rs)) with (Alt r (alt (r' :: rs))) in H.
    simpl in H. destruct H as [H | H].
    + exists r. simpl; auto.
    + destruct (IH ltac:(discriminate) H) as (x & Hx & Hs). exists x. simpl; auto.
Qed.

(** ** Words matched without regard to case *)

Ltac char_cases :=
  unfold cset_match, case_variants, toLowerCase1, unit_char, isLower, isUpper,
    isDigit, isWhiteSpace, in_range;
  repeat (cbn [existsb citem_mem orb xorb andb negb];
          unfold isWhiteSpace, isDigit, in_range;
          match goal with
          | |- context [N.leb ?a ?b] => destruct (N.leb_spec a b); try lia
          | |- context [N.eqb ?a ?b] => destruct (N.eqb_spec a b); try lia
          end);
  cbn [existsb citem_mem orb xorb andb negb];
  intros; try discriminate; try reflexivity; try (f_equal; lia).

Lemma chr_ignore_case (a x : char16) :
  isLower a = true ->
  cset_match true (Class false [CChar a]) x = true ->
  toLowerCase1 x = [a].
Proof. char_cases. Qed.

Lemma lit_lower (s : jsstring) :
  Forall (fun a => isLower a = true) s ->
  forall w c c', sem true (lit s) w c c' -> toLowerCase w = s.
Proof.
  induction 1 as [|a s Ha Hs IH]; intros w c c' H.
  - simpl in H. destruct H as [-> _]. reflexivity.
  - destruct s as [|b s].
    + simpl in H. destruct H as (x & -> & Hx & _).
      unfold toLowerCase. simpl. rewrite (chr_ignore_case a x Ha Hx). reflexivity.
    + change (lit (a :: b :: s)) with (Seq (chr a) (lit (b :: s))) in H.
      simpl in H. destruct H as (w1 & w2 & c1 & -> & (x & -> & Hx & _) & H2).
      unfold toLowerCase in *. simpl. rewrite (chr_ignore_case a x Ha Hx).
      simpl. f_equal. eapply IH; eauto.
Qed.

Lemma status_word_lower (w : jsstring) (c c' : captures) :
  sem true (alt status_words) w c c' -> In (toLowerCase w) ComponentStatus.
Proof.
  intros H. apply sem_alt in H; [|discriminate].
  destruct H as (r & Hr & Hs).
  unfold status_words in Hr.
  destruct Hr as [<- | [<- | [<- | [<- | [<- | [<- | []]]]]]];
    apply lit_lower in Hs;
    try (rewrite Hs; unfold ComponentStatus; simpl; auto 10; fail);
    vm_compute; repeat constructor.
Qed.

Lemma bracket_word_lower (w : jsstring) (c c' : captures) :
  sem true (alt (tl status_words)) w c c' -> In (toLowerCase w) ComponentStatus.
Proof.
  intros H. apply sem_alt in H; [|discriminate].
  destruct H as (r & Hr & Hs).
  apply (status_word_lower w c c').
  assert (Hin : In r status_words) by (right; exact Hr).
  clear Hr. revert Hin Hs. generalize status_words. intros rs. 
  induction rs as [|r0 rs IH]; [contradiction|].
  intros Hin Hs. destruct rs as [|r1 rs].
  - destruct Hin as [<- | []]. exact Hs.
  - change (alt (r0 :: r1 :: rs)) with (Alt r0 (alt (r1 :: rs))). simpl.
    destruct Hin as [<- | Hin]; [left; exact Hs | right; apply IH; assumption].
Qed.

Lemma component_status_nonempty (s : jsstring) : In s ComponentStatus -> truthy (Some s) = true.
Proof.
  unfold ComponentStatus. simpl.
  intros [<- | [<- | [<- | [<- | [<- | [<- | []]]]]]]; reflexivity.
Qed.

Lemma parse_status_valid (t : jsstring) (pc : ParsedTestComponent * number) :
  status_is_valid (fst pc) -> status_is_valid (fst (parse_status t pc)).
Proof.
  destruct pc as [p c]. unfold parse_status, status_is_valid. simpl. intros Hp.
  destruct (exec bracket_status_regexp t) as [sm|] eqn:Hb.
  - simpl. apply exec_sound in Hb. destruct Hb as (pre & post & _ & Hs).
    apply (sem_sandwich true (chr (ch "[")) (chr (ch "]"))) in Hs;
      [|reflexivity|reflexivity].
    destruct Hs as (v & c1 & Hv & Hc). unfold group. rewrite Hc. simpl.
    eapply bracket_word_lower; eauto.
  - destruct (exec plain_status_regexp t) as [sm|] eqn:Hpl; [|exact Hp].
    simpl. apply exec_sound in Hpl. destruct Hpl as (pre & post & _ & Hs).
    apply (sem_sandwich true WordBoundary WordBoundary) in Hs;
      [|reflexivity|reflexivity].
    destruct Hs as (v & c1 & Hv & Hc). unfold group. rewrite Hc. simpl.
    eapply status_word_lower; eauto.
Qed.

Lemma auto_status_valid (p : ParsedTestComponent) :
  status_is_valid p -> status_is_valid (auto_status p).
Proof.
  unfold status_is_valid, auto_status. intros H.
  destruct (status p) as [s|] eqn:Hs.
  - rewrite (component_status_nonempty s H). simpl. rewrite Hs. exact H.
  - simpl. destruct (ref_range_min p), (ref_range_max p); simpl;
      try (rewrite Hs; exact I);
      repeat match goal with
             | |- context [if ?b then _ else _] => destruct b
             end;
      simpl; unfold ComponentStatus; simpl; auto 10.
Qed.

(** [build_record], with the name, the value and the unit it starts from
    spelt out. *)
Lemma build_record_explicit (n : patternName) (t : jsstring) (m : match_result)
      (q : ParsedTestComponent) :
  build_record n t m = Some q ->
  exists c,
    let v := parseFloat (remove_all commas (defined (group 2 m))) in
    let pc1 := parse_reference_range m
                 (initial_record t (name_of_match m) v (unit_of_match m), c) in
    let pc2 := check_not_estab t pc1 in
    let pc3 := parse_status t pc2 in
    let pc4 := detect_abbreviation (name_of_match m) pc3 in
    name_of_match m <> []
    /\ (exists g1, group 1 m = Some g1)
    /\ q = set_confidence (Math_min (snd pc4) c1_0) (auto_status (fst pc4)).
Proof.
  unfold build_record, name_of_match, unit_of_match. intros H.
  destruct (negb (truthy _) || negb (truthy _)) eqn:Ht; [discriminate|].
  destruct (isNaN _) eqn:Hn; [discriminate|].
  injection H as <-.
  apply orb_false_elim in Ht. destruct Ht as [Hname Hv].
  destruct (group 2 m) as [g2|]; [|discriminate].
  destruct (group 1 m) as [g1|]; [|discriminate].
  simpl in Hname |- *.
  eexists. split; [|split; [eauto|reflexivity]].
  destruct (remove_first trailing_punctuation (trim g1)); [discriminate|discriminate].
Qed.

Ltac build_record_steps H t m c q :=
  apply build_record_explicit in H;
  destruct H as (c & H); cbv zeta in H;
  set (pc1 := parse_reference_range m
                (initial_record t (name_of_match m)
                   (parseFloat (remove_all commas (defined (group 2 m))))
                   (unit_of_match m), c)) in H;
  set (pc2 := check_not_estab t pc1) in H;
  set (pc3 := parse_status t pc2) in H;
  set (pc4 := detect_abbreviation (name_of_match m) pc3) in H;
  pose proof (parse_reference_range_frame m
                (initial_record t (name_of_match m)
                   (parseFloat (remove_all commas (defined (group 2 m))))
                   (unit_of_match m), c)) as F1;
  pose proof (check_not_estab_frame t pc1) as F2;
  pose proof (parse_status_frame t pc2) as F3;
  pose proof (detect_abbreviation_frame (name_of_match m) pc3) as F4;
  pose proof (auto_status_frame (fst pc4)) as F5;
  cbv zeta in F1, F2, F3, F4, F5;
  fold pc1 in F1; fold pc2 in F2; fold pc3 in F3; fold pc4 in F4;
  simpl in F1;
  destruct F1 as (?&?&?&?&?&?&?&?&?&?), F2 as (?&?&?&?&?&?&?&?&?&?&?&?),
           F3 as (?&?&?&?&?&?&?&?&?&?&?&?), F4 as (?&?&?&?&?&?&?&?&?&?&?),
           F5 as (?&?&?&?&?&?&?&?&?&?&?&?&?);
  destruct H as (Hname & Hg1 & Hq).

(** ** The status *)

Lemma build_record_status (n : patternName) (t : jsstring) (m : match_result)
      (q : ParsedTestComponent) :
  build_record n t m = Some q -> status_is_valid q.
Proof.
  intros H. build_record_steps H t m c q. subst q.
  unfold status_is_valid. cbn [status set_confidence].
  apply auto_status_valid.
  assert (Hst : status_is_valid (fst pc3)).
  { apply parse_status_valid. unfold status_is_valid.
    replace (status (fst pc2)) with (@None jsstring) by congruence. exact I. }
  unfold status_is_valid in *.
  replace (status (fst pc4)) with (status (fst pc3)) by congruence. exact Hst.
Qed.

(** X16.  The status of every record of [parse] is absent or one of 'normal',
    'high', 'low', 'critical', 'abnormal', 'borderline', in lower case
    however the line wrote it: the cast to [ComponentStatus] at submission is
    sound. *)
Theorem status_is_component_status
        (searchTests : jsstring -> nat -> list TestLibraryItem.t)
        (parseSettings : ParseSettings) (text : jsstring) (p : ParsedTestComponent) :
  In p (fst (parse searchTests parseSettings text)) ->
  match status p with
  | None => True
  | Some s => In s ComponentStatus
  end.
Proof.
  intros H. apply parse_enriched in H. destruct H as (c & Hc & ->).
  destruct (enrich_frame searchTests c) as (_&_&_&_&_& -> &_).
  apply parseText_validated in Hc. destruct Hc as (line & q & _ & Hq & ->).
  destruct (validate_frame q) as (_&_&_&_&_&_&_&_& -> &_).
  apply extract_inv in Hq. destruct Hq as [(n & R & m & _ & _ & _ & Hb) | Hf].
  - apply (build_record_status n (trim line) m q Hb).
  - unfold fallback in Hf. destruct (exec fallback_regexp (trim line)); [|discriminate].
    destruct (negb _); [|discriminate]. injection Hf as <-. exact I.
Qed.

Lemma status_is_component_status_witness :
  exists p,
    fst (parse sample_searchTests initial_parseSettings
               (str "Glucose 125 mg/dL 70-100 [HIGH]")) = [p]
    /\ status p = Some (str "high")
    /\ match status p with
       | None => True
       | Some s => In s ComponentStatus
       end.
Proof.
  eexists. split; [vm_compute; reflexivity|].
  split; [vm_compute; reflexivity|].
  apply (status_is_component_status sample_searchTests initial_parseSettings
           (str "Glucose 125 mg/dL 70-100 [HIGH]")).
  vm_compute. left. reflexivity.
Defined.

(** ** The abbreviation *)

Lemma abbreviation_class (x : char16) :
  cset_match false (Class false [CRange (ch "A") (ch "Z"); CRange (ch "0") (ch "9")]) x
  = isUpper x || isDigit x.
Proof.
  unfold cset_match, isUpper, isDigit, ch. simpl N_of_ascii.
  cbn [existsb citem_mem xorb]. rewrite !orb_false_r. reflexivity.
Qed.

Lemma abbreviation_groups (S : jsstring) (m : match_result) :
  exec abbreviation_regexp S = Some m -> cap_inv abbreviation_captured (groups m).
Proof.
  apply exec_cap_inv. unfold abbreviation_captured. simpl. repeat split; intros;
    try discriminate;
    match goal with
    | H : _ <> [] /\ Forall _ _ /\ _ |- _ => destruct H as (Hne & Hall & _)
    end; try assumption.
  eapply Forall_impl; [|exact Hall]. intros x Hx. cbv beta in Hx.
  rewrite abbreviation_class in Hx. exact Hx.
Qed.

Lemma build_record_abbreviation (n : patternName) (t : jsstring) (m : match_result)
      (q : ParsedTestComponent) :
  build_record n t m = Some q ->
  match abbreviation q with
  | None => True
  | Some a => a <> [] /\ Forall (fun x => isUpper x || isDigit x = true) a
  end.
Proof.
  intros H. build_record_steps H t m c q. subst q.
  cbn [abbreviation set_confidence].
  replace (abbreviation (auto_status (fst pc4))) with (abbreviation (fst pc4))
    by congruence.
  subst pc4. unfold detect_abbreviation. destruct pc3 as [p3 c3].
  destruct (exec abbreviation_regexp (name_of_match m)) as [am|] eqn:Ha.
  - simpl. destruct (group 1 am) as [a|] eqn:Hg; [|exact I].
    apply (abbreviation_groups _ _ Ha 1%nat a Hg). reflexivity.
  - simpl in *. replace (abbreviation p3) with (@None jsstring) by congruence.
    exact I.
Qed.

(** X17.  An abbreviation the parser detects is a run of upper-case ASCII letters
    and digits that is not empty. *)
Theorem abbreviation_shape (parseSettings : ParseSettings) (text : jsstring)
        (p : ParsedTestComponent) :
  In p (components (parseText parseSettings text)) ->
  match abbreviation p with
  | None => True
  | Some a => a <> [] /\ Forall (fun x => isUpper x || isDigit x = true) a
  end.
Proof.
  intros H. apply parseText_validated in H. destruct H as (line & q & _ & Hq & ->).
  destruct (validate_frame q) as (_& -> &_).
  apply extract_inv in Hq. destruct Hq as [(n & R & m & _ & _ & _ & Hb) | Hf].
  - apply (build_record_abbreviation n (trim line) m q Hb).
  - unfold fallback in Hf. destruct (exec fallback_regexp (trim line)); [|discriminate].
    destruct (negb _); [|discriminate]. injection Hf as <-. exact I.
Qed.

Lemma abbreviation_shape_witness :
  exists p,
    components (parseText initial_parseSettings
                          (str "Hemoglobin (HGB) 14 g/dL 12-17")) = [p]
    /\ abbreviation p = Some (str "HGB")
    /\ test_name p = str "Hemoglobin"
    /\ match abbreviation p with
       | None => True
       | Some a => a <> [] /\ Forall (fun x => isUpper x || isDigit x = true) a
       end.
Proof.
  eexists. split; [vm_compute; reflexivity|].
  split; [vm_compute; reflexivity|].
  split; [vm_compute; reflexivity|].
  apply (abbreviation_shape initial_parseSettings
           (str "Hemoglobin (HGB) 14 g/dL 12-17")).
  vm_compute. left. reflexivity.
Defined.

(** ** The unit *)

Ltac class_cases :=
  unfold alnum_items, numeric_chars, ch; simpl N_of_ascii; cbn [app];
  char_cases.

Lemma unit_class_1 (x : char16) :
  cset_match true
    (Class false (alnum_items ++ [CChar (ch "/"); CChar (ch "%"); CChar 0x3BC])) x = true ->
  unit_char x = true.
Proof. class_cases. Qed.

Lemma unit_class_2 (x : char16) :
  cset_match true (Class false alnum_items) x = true -> unit_char x = true.
Proof. class_cases. Qed.

Lemma unit_class_3 (x : char16) :
  cset_match true (Class false [CDigit]) x = true -> unit_char x = true.
Proof. class_cases. Qed.

Lemma unit_class_4 (x : char16) :
  cset_match true (Class false [CRange (ch "a") (ch "z"); CRange (ch "A") (ch "Z")]) x
  = true ->
  unit_char x = true.
Proof. class_cases. Qed.

Lemma unit_class_5 (a x : char16) :
  unit_char a = true -> a <> 0xB5 -> a <> 0x39C ->
  cset_match true (Class false [CChar a]) x = true -> unit_char x = true.
Proof. class_cases. Qed.

Lemma unit_char_not_space (x : char16) : unit_char x = true -> isWhiteSpace x = false.
Proof. class_cases. Qed.

Lemma lit_unit_chars (s : jsstring) :
  Forall (fun a => unit_char a = true /\ a <> 0xB5 /\ a <> 0x39C) s ->
  forall w c c', sem true (lit s) w c c' -> Forall (fun x => unit_char x = true) w.
Proof.
  induction 1 as [|a s (Ha & Ha1 & Ha2) Hs IH]; intros w c c' H.
  - simpl in H. destruct H as [-> _]. constructor.
  - destruct s as [|b s].
    + simpl in H. destruct H as (x & -> & Hx & _).
      constructor; [|constructor]. eapply unit_class_5; eauto.
    + change (lit (a :: b :: s)) with (Seq (chr a) (lit (b :: s))) in H.
      simpl in H. destruct H as (w1 & w2 & c1 & -> & (x & -> & Hx & _) & H2).
      simpl. constructor; [eapply unit_class_5; eauto | eapply IH; eauto].
Qed.

(** A text [UNIT_PATTERN] matches is made of unit characters and is not
    empty. *)
Lemma unit_pattern_chars (w : jsstring) (c c' : captures) :
  sem true UNIT_PATTERN w c c' ->
  w <> [] /\ Forall (fun x => unit_char x = true) w.
Proof.
  unfold UNIT_PATTERN.
  change (sem true (Alt ?a ?b) w c c') with (sem true a w c c' \/ sem true b w c c').
  intros [H | H].
  - cbn [sem] in H.
    destruct H as (w1 & w2 & c1 & -> & (Hne & H1 & _) & Hopt).
    split; [destruct w1; [contradiction | discriminate]|].
    apply Forall_app. split.
    + eapply Forall_impl; [|exact H1]. intros x. apply unit_class_1.
    + destruct Hopt as [[_ (w3 & w4 & c2 & -> & (x & -> & Hx & _) & (_ & H4 & _))]
                       | [-> _]]; [|constructor].
      simpl. constructor.
      * eapply (unit_class_5 (ch "/")); try exact Hx; vm_compute;
          try reflexivity; discriminate.
      * eapply Forall_impl; [|exact H4]. intros y. apply unit_class_2.
  - change (seq [lit (str "x10E"); Plus true (Class false [CDigit]); chr (ch "/");
                 Plus true (Class false [CRange (ch "a") (ch "z"); CRange (ch "A") (ch "Z")])])
      with (Seq (lit (str "x10E"))
              (Seq (Plus true (Class false [CDigit]))
                 (Seq (chr (ch "/"))
                    (Plus true (Class false [CRange (ch "a") (ch "z");
                                             CRange (ch "A") (ch "Z")]))))) in H.
    cbn [sem] in H.
    destruct H as (w1 & w2 & c1 & -> & H1
                   & (w3 & w4 & c2 & -> & (_ & H3 & _)
                      & (w5 & w6 & c3 & -> & H5 & (Hne & H6 & _)))).
    split.
    + intros E. apply app_eq_nil in E. destruct E as [_ E].
      apply app_eq_nil in E. destruct E as [_ E].
      apply app_eq_nil in E. destruct E as [_ E]. contradiction.
    + apply Forall_app. split.
      * eapply (lit_unit_chars (str "x10E")); [|exact H1].
        vm_compute. repeat constructor; discriminate.
      * apply Forall_app. split.
        -- eapply Forall_impl; [|exact H3]. intros y. apply unit_class_3.
        -- apply Forall_app. split.
           ++ unfold chr in H5. cbn [sem] in H5. destruct H5 as (x & -> & Hx & _).
              constructor; [|constructor].
              eapply (unit_class_5 (ch "/")); try exact Hx; vm_compute;
                try reflexivity; discriminate.
           ++ eapply Forall_impl; [|exact H6]. intros y. apply unit_class_4.
Qed.

Lemma patterns_unit_captured (e : patternName * RegExpObject) :
  In e patterns ->
  groups_ok (ignoreCase (snd e)) unit_captured (source (snd e)).
Proof.
  simpl. intros [<- | [<- | [<- | [<- | []]]]]; cbn [snd ignoreCase source regexp];
    unfold REGEX_PATTERNS.FULL_PATTERN, REGEX_PATTERNS.TABULAR_PATTERN,
      REGEX_PATTERNS.SIMPLE_PATTERN, REGEX_PATTERNS.CSV_PATTERN, regexp,
      TEST_NAME, NUMERIC_VALUE, STATUS_VALUES, comparison_group;
    cbn [source ignoreCase seq alt groups_ok];
    repeat match goal with
           | |- _ /\ _ => split
           | |- True => exact I
           end;
    first [ intros w c c' H E;
            first [discriminate E | eapply unit_pattern_chars; exact H]
          | simpl; tauto ].
Qed.

Lemma trim_no_space (s : jsstring) :
  Forall (fun x => isWhiteSpace x = false) s -> trim s = s.
Proof.
  intros H. apply trim_unchanged.
  - destruct H; [exact I | assumption].
  - apply Forall_rev in H. destruct H; [exact I | assumption].
Qed.

Lemma build_record_unit (n : patternName) (R : RegExpObject) (t : jsstring)
      (m : match_result) (q : ParsedTestComponent) :
  In (n, R) patterns -> exec R t = Some m -> build_record n t m = Some q ->
  Forall (fun x => unit_char x = true) (unit q)
  /\ (unit q = [] -> group 3 m = None).
Proof.
  intros Hin Hx H.
  pose proof (exec_cap_inv unit_captured R t m
                (patterns_unit_captured (n, R) Hin) Hx) as Hc.
  build_record_steps H t m c q. subst q. cbn [unit set_confidence].
  replace (unit (auto_status (fst pc4))) with (unit_of_match m)
    by (simpl in *; congruence).
  unfold unit_of_match, group in *.
  destruct (cap 3 (groups m)) as [v|] eqn:Hv; simpl; [|split; [constructor | auto]].
  destruct (Hc 3%nat v Hv eq_refl) as [Hne Hall].
  rewrite trim_no_space.
  - split; [exact Hall | intros ->; contradiction].
  - eapply Forall_impl; [|exact Hall]. intros x. apply unit_char_not_space.
Qed.

(** X18.  The unit the parser stores is made of ASCII letters and digits, slashes,
    percent signs and mu signs only (the mu in any of its three forms, since
    the patterns ignore case): it holds no white space, and trimming it, as
    the submission does, changes nothing. *)
Theorem unit_shape (parseSettings : ParseSettings) (text : jsstring)
        (p : ParsedTestComponent) :
  In p (components (parseText parseSettings text)) ->
  Forall (fun x => unit_char x = true) (unit p) /\ trim (unit p) = unit p.
Proof.
  intros H. apply parseText_validated in H. destruct H as (line & q & _ & Hq & ->).
  destruct (validate_frame q) as (_&_&_&_& -> &_).
  assert (Hu : Forall (fun x => unit_char x = true) (unit q)).
  { apply extract_inv in Hq. destruct Hq as [(n & R & m & Hin & Hx & _ & Hb) | Hf].
    - apply (build_record_unit n R (trim line) m q Hin Hx Hb).
    - apply fallback_basic in Hf. destruct Hf as (_&_&_&_&_& -> &_). constructor. }
  split; [exact Hu|]. apply trim_no_space.
  eapply Forall_impl; [|exact Hu]. intros x. apply unit_char_not_space.
Qed.

Lemma unit_shape_witness :
  exists p,
    components (parseText initial_parseSettings
                          (str "Vitamin D: 30 " ++ [0x39C] ++ str "G/L")) = [p]
    /\ unit p = [0x39C] ++ str "G/L"
    /\ Forall (fun x => unit_char x = true) (unit p)
    /\ trim (unit p) = unit p.
Proof.
  eexists. split; [vm_compute; reflexivity|].
  split; [vm_compute; reflexivity|].
  apply (unit_shape initial_parseSettings
           (str "Vitamin D: 30 " ++ [0x39C] ++ str "G/L")).
  vm_compute. left. reflexivity.
Defined.

(** ** No NaN *)

Lemma comparison_bound_numbers (t : jsstring) (p : ParsedTestComponent) :
  bounds_are_numbers p -> bounds_are_numbers (comparison_bound t p).
Proof.
  unfold bounds_are_numbers, comparison_bound. intros [Hmin Hmax].
  destruct (exec comparison_regexp t) as [cm|]; [|auto].
  destruct (isNaN (parseFloat _)) eqn:Hn; simpl; [auto|].
  destruct (_ || _); simpl.
  - split; [exact Hmin|]. intros x [= <-]. exact Hn.
  - destruct (_ || _); simpl; [|auto].
    split; [|exact Hmax]. intros x [= <-]. exact Hn.
Qed.

Lemma parse_reference_range_numbers (m : match_result)
      (pc : ParsedTestComponent * number) :
  bounds_are_numbers (fst pc) -> bounds_are_numbers (fst (parse_reference_range m pc)).
Proof.
  destruct pc as [p c]. simpl. intros H. unfold parse_reference_range.
  destruct (truthy (group 4 m) && truthy (group 5 m)).
  - destruct (isNaN (parseFloat (remove_all commas (defined (group 4 m))))) eqn:H4;
      simpl; [exact H|].
    destruct (isNaN (parseFloat (remove_all commas (defined (group 5 m))))) eqn:H5;
      simpl; [exact H|].
    split; simpl; intros x [= <-]; assumption.
  - destruct (truthy (group 6 m)); simpl.
    + apply comparison_bound_numbers. exact H.
    + destruct (truthy (group 7 m)); simpl; exact H.
Qed.

Lemma build_record_numbers (n : patternName) (t : jsstring) (m : match_result)
      (q : ParsedTestComponent) :
  build_record n t m = Some q -> bounds_are_numbers q.
Proof.
  intros H. build_record_steps H t m c q. subst q.
  assert (Hb1 : bounds_are_numbers (fst pc1)).
  { apply parse_reference_range_numbers. simpl. split; intros x; discriminate. }
  unfold bounds_are_numbers in *. cbn [ref_range_min ref_range_max set_confidence].
  replace (ref_range_min (auto_status (fst pc4))) with (ref_range_min (fst pc1))
    by congruence.
  replace (ref_range_max (auto_status (fst pc4))) with (ref_range_max (fst pc1))
    by congruence.
  exact Hb1.
Qed.

(** X19.  The value of a record of [parse] is a number, and so is each bound it
    carries: none of them is NaN. *)
Theorem no_NaN_in_records
        (searchTests : jsstring -> nat -> list TestLibraryItem.t)
        (parseSettings : ParseSettings) (text : jsstring) (p : ParsedTestComponent) :
  In p (fst (parse searchTests parseSettings text)) ->
  isNaN (value p) = false
  /\ (forall x, ref_range_min p = Some x -> isNaN x = false)
  /\ (forall x, ref_range_max p = Some x -> isNaN x = false).
Proof.
  intros H. apply parse_enriched in H. destruct H as (c & Hc & ->).
  destruct (enrich_frame searchTests c) as (_& -> & -> & -> &_).
  apply parseText_validated in Hc. destruct Hc as (line & q & _ & Hq & ->).
  destruct (validate_frame q) as (_&_&_& -> &_& -> & -> &_).
  apply extract_inv in Hq. destruct Hq as [(n & R & m & _ & _ & _ & Hb) | Hf].
  - split; [apply build_record_basic in Hb; tauto|].
    apply (build_record_numbers n (trim line) m q Hb).
  - apply fallback_basic in Hf.
    destruct Hf as (_&_&_&_&_&_& -> & -> &_&_&_& Hn).
    split; [exact Hn|]. split; intros x; discriminate.
Qed.

Lemma no_NaN_in_records_witness :
  exists p,
    fst (parse sample_searchTests initial_parseSettings (str "Hb: 5 g/dL (.-7)")) = [p]
    /\ ref_range_min p = None /\ ref_range_max p = None
    /\ isNaN (value p) = false.
Proof.
  eexists. split; [vm_compute; reflexivity|].
  split; [vm_compute; reflexivity|].
  split; [vm_compute; reflexivity|].
  apply (no_NaN_in_records sample_searchTests initial_parseSettings
           (str "Hb: 5 g/dL (.-7)")).
  vm_compute. left. reflexivity.
Defined.

(** ** Digits *)

Lemma numeric_value_chars (i : bool) (w : jsstring) (c c' : captures) :
  sem i (Plus true numeric_chars) w c c' ->
  Forall (fun x => cset_match false numeric_chars x = true) w.
Proof.
  simpl. intros (_ & H & _). eapply Forall_impl; [|exact H].
  intros x Hx. cbv beta in Hx. destruct i; [rewrite numeric_case_blind in Hx|]; exact Hx.
Qed.

Lemma value_group_numeric (R : RegExpObject) (S : jsstring) (m : match_result) :
  In R (fallback_regexp :: map snd patterns) ->
  exec R S = Some m -> cap_inv value_numeric (groups m).
Proof.
  intros HR. apply exec_cap_inv.
  simpl in HR. destruct HR as [<- | [<- | [<- | [<- | [<- | []]]]]];
    cbn [snd ignoreCase source regexp];
    unfold fallback_regexp, REGEX_PATTERNS.FULL_PATTERN, REGEX_PATTERNS.TABULAR_PATTERN,
      REGEX_PATTERNS.SIMPLE_PATTERN, REGEX_PATTERNS.CSV_PATTERN, regexp,
      TEST_NAME, NUMERIC_VALUE, STATUS_VALUES, comparison_group;
    cbn [source ignoreCase seq alt groups_ok];
    repeat match goal with
           | |- _ /\ _ => split
           | |- True => exact I
           end;
    first [ intros w c c' H E;
            first [discriminate E | eapply numeric_value_chars; exact H]
          | simpl; tauto ].
Qed.

Lemma numeric_char_cases (x : char16) :
  cset_match false numeric_chars x = true -> isDigit x = true \/ x = 46 \/ x = 44.
Proof.
  unfold numeric_chars, ch, cset_match. simpl N_of_ascii.
  cbn [existsb citem_mem xorb]. unfold isDigit.
  destruct (in_range 48 57 x); [auto|].
  destruct (N.eqb_spec x 46); [auto|]. destruct (N.eqb_spec x 44); [auto|].
  discriminate.
Qed.

Lemma span_digits_head (s : jsstring) :
  fst (span_digits s) <> [] -> existsb isDigit s = true.
Proof.
  destruct s as [|c t]; simpl; [contradiction|].
  destruct (isDigit c); [reflexivity|]. simpl. contradiction.
Qed.

(** A text of digits, periods and commas that reads as a number holds a
    digit. *)
Lemma parseFloat_digit (s : jsstring) :
  Forall (fun x => cset_match false numeric_chars x = true) s ->
  isNaN (parseFloat s) = false -> existsb isDigit s = true.
Proof.
  intros Hs Hn. unfold parseFloat, trimStart in Hn.
  destruct s as [|c t]; [discriminate Hn|].
  inversion Hs as [|? ? Hc Ht]; subst.
  simpl dropWhile in Hn. rewrite (numeric_not_space c Hc) in Hn.
  assert (Hsign : (c =? 45) = false /\ (c =? 43) = false /\ (c =? 73) = false).
  { destruct (numeric_char_cases c Hc) as [Hd | [-> | ->]];
      [|repeat split; reflexivity|repeat split; reflexivity].
    unfold isDigit, in_range in Hd. apply andb_prop in Hd.
    destruct Hd as [H1%N.leb_le H2%N.leb_le].
    repeat split; apply N.eqb_neq; lia. }
  destruct Hsign as (H45 & H43 & H73). rewrite H45, H43 in Hn.
  unfold StrUnsignedDecimalLiteral in Hn.
  assert (Hinf : startsWith (c :: t) (str "Infinity") = false).
  { change (str "Infinity") with (73 :: str "nfinity"). cbn [startsWith].
    rewrite N.eqb_sym, H73. reflexivity. }
  rewrite Hinf in Hn.
  destruct (span_digits (c :: t)) as [ip r1] eqn:Hsp.
  destruct ip as [|d ip].
  - assert (Hr : r1 = c :: t).
    { simpl in Hsp. destruct (isDigit c); [|congruence].
      destruct (span_digits t); discriminate. }
    subst r1. destruct (c =? 46); [|discriminate Hn].
    destruct (span_digits t) as [fp r2] eqn:Hfp.
    destruct fp as [|f fp]; [discriminate Hn|].
    simpl. apply orb_true_iff. right. apply span_digits_head. rewrite Hfp.
    discriminate.
  - apply span_digits_head. rewrite Hsp. discriminate.
Qed.

Lemma existsb_app_infix (f : char16 -> bool) (a v b : jsstring) :
  existsb f v = true -> existsb f (a ++ v ++ b) = true.
Proof.
  intros H. rewrite !existsb_app, H. rewrite orb_true_r. reflexivity.
Qed.

Lemma existsb_filter (f g : char16 -> bool) (s : jsstring) :
  existsb f (filter g s) = true -> existsb f s = true.
Proof.
  induction s as [|c t IH]; simpl; [auto|].
  destruct (g c); simpl; intros H.
  - apply orb_true_iff in H. destruct H as [H | H]; [rewrite H; reflexivity|].
    rewrite (IH H). apply orb_true_r.
  - rewrite (IH H). apply orb_true_r.
Qed.

Lemma value_digit (R : RegExpObject) (t : jsstring) (m : match_result) :
  In R (fallback_regexp :: map snd patterns) ->
  exec R t = Some m ->
  isNaN (parseFloat (remove_all commas (defined (group 2 m)))) = false ->
  existsb isDigit t = true.
Proof.
  intros HR Hx Hn.
  pose proof (value_group_numeric R t m HR Hx) as Hc.
  destruct (group 2 m) as [v|] eqn:Hv; [|discriminate Hn]. simpl in Hn.
  destruct (exec_group_infix R t m 2 v Hx Hv) as (a & b & ->).
  apply existsb_app_infix.
  apply (existsb_filter _ (fun c => negb (cset_match false commas c))).
  apply parseFloat_digit; [|exact Hn].
  unfold remove_all. apply filter_Forall. apply (Hc 2%nat v Hv). reflexivity.
Qed.

(** X20.  A line without a digit never gives a record: the original line of every
    record holds a digit. *)
Theorem record_line_has_digit (parseSettings : ParseSettings) (text : jsstring)
        (p : ParsedTestComponent) :
  In p (components (parseText parseSettings text)) ->
  existsb isDigit (original_line p) = true.
Proof.
  intros H. apply parseText_validated in H. destruct H as (line & q & _ & Hq & ->).
  destruct (validate_frame q) as (_&_&_&_&_&_&_&_&_&_&_& ->).
  apply extract_inv in Hq. destruct Hq as [(n & R & m & Hin & Hx & _ & Hb) | Hf].
  - apply build_record_basic in Hb. destruct Hb as (-> &_&_&_&_& Hv & Hn).
    apply (value_digit R (trim line) m); [|exact Hx|rewrite <- Hv; exact Hn].
    right. apply (in_map snd) in Hin. exact Hin.
  - apply fallback_basic in Hf.
    destruct Hf as (-> &_&_&_&_&_&_&_&_&_& (m & Hx & Hv) & Hn).
    apply (value_digit fallback_regexp (trim line) m); [|exact Hx|rewrite <- Hv; exact Hn].
    left. reflexivity.
Qed.

Lemma record_line_has_digit_witness :
  parseText initial_parseSettings (str "Colour: yellow, clear .,")
  = {| components := []; failedLineCount := 1 |}
  /\ exists p,
       components (parseText initial_parseSettings (str "pH 6")) = [p]
       /\ existsb isDigit (original_line p) = true.
Proof.
  split; [vm_compute; reflexivity|].
  eexists. split; [vm_compute; reflexivity|].
  apply (record_line_has_digit initial_parseSettings (str "pH 6")).
  vm_compute. left. reflexivity.
Defined.

(** ** Trailing punctuation *)

Lemma punctuation_class (x : char16) :
  cset_match false (Class false [CChar (ch ","); CChar (ch ";"); CChar (ch ":")]) x
  = punctuation x.
Proof.
  unfold cset_match, punctuation, ch. simpl N_of_ascii.
  cbn [existsb citem_mem xorb]. rewrite !orb_false_r.
  destruct (x =? 44), (x =? 59), (x =? 58); reflexivity.
Qed.

Lemma exec_search (R : RegExpObject) (S : jsstring) :
  global R = false -> sticky R = false -> exec R S = search R [] S.
Proof.
  intros Hg Hy. unfold exec, RegExpBuiltinExec. rewrite Hg, Hy. simpl.
  destruct (search R [] S); reflexivity.
Qed.

(** [/[,;:]+$/] matches at a position exactly when what follows is a run of
    punctuation up to the end that is not empty. *)
Lemma match_at_trailing_sound (d r : jsstring) (m : match_result) :
  match_at trailing_punctuation d r = Some m ->
  r <> [] /\ Forall (fun x => punctuation x = true) r
  /\ index m = length d /\ endIndex m = (length d + length r)%nat.
Proof.
  unfold match_at, trailing_punctuation, regexp. cbn [source ignoreCase].
  intros H.
  change (rmatch false (Seq ?r1 ?r2) ?st ?k)
    with (rmatch false r1 st (fun st' => rmatch false r2 st' k)) in H.
  apply rmatch_sound in H.
  destruct H as (w & st' & Hs & Hd & Hr & Hk).
  simpl in Hs, Hd, Hr. destruct Hs as (Hne & Hall & _).
  cbn [rmatch] in Hk.
  destruct (rest st') eqn:Hrest; [|discriminate Hk].
  injection Hk as <-. simpl. rewrite app_nil_r in Hr. subst r.
  split; [exact Hne|]. split.
  - eapply Forall_impl; [|exact Hall]. intros x Hx. cbv beta in Hx.
    rewrite punctuation_class in Hx. exact Hx.
  - split; [reflexivity|]. unfold position. rewrite Hd, length_app, length_rev. lia.
Qed.

Lemma match_at_trailing_complete (d r : jsstring) :
  r <> [] -> Forall (fun x => punctuation x = true) r ->
  exists m, match_at trailing_punctuation d r = Some m.
Proof.
  intros Hne Hall. destruct r as [|c t]; [contradiction|].
  inversion Hall as [|? ? Hc Ht]; subst.
  unfold match_at, trailing_punctuation, regexp. cbn [source ignoreCase rmatch rest done].
  rewrite punctuation_class, Hc.
  eexists. apply repeat_set_greedy_all.
  - eapply Forall_impl; [|exact Ht]. intros x Hx. rewrite punctuation_class. exact Hx.
  - reflexivity.
Qed.

Lemma ends_with_cons (f : char16 -> bool) (c : char16) (s : jsstring) :
  s <> [] -> ends_with f s -> ends_with f (c :: s).
Proof.
  unfold ends_with, starts_with. intros Hne H. simpl.
  destruct (rev s) as [|x l] eqn:E.
  - apply (f_equal (@rev _)) in E. rewrite rev_involutive in E. contradiction.
  - exact H.
Qed.

Lemma search_trailing (r : jsstring) :
  forall d : jsstring,
    match search trailing_punctuation d r with
    | Some m =>
        exists pre suf,
          r = pre ++ suf /\ Forall (fun x => punctuation x = true) suf
          /\ index m = (length d + length pre)%nat
          /\ endIndex m = (length d + length r)%nat
          /\ ends_with (fun x => negb (punctuation x)) pre
    | None => ends_with (fun x => negb (punctuation x)) r
    end.
Proof.
  induction r as [|c t IH]; intros d; simpl.
  - destruct (match_at trailing_punctuation d []) as [m|] eqn:Hm; [|exact I].
    apply match_at_trailing_sound in Hm. destruct Hm as [Hne _]. contradiction.
  - destruct (match_at trailing_punctuation d (c :: t)) as [m|] eqn:Hm.
    + apply match_at_trailing_sound in Hm. destruct Hm as (_ & Hall & Hi & He).
      exists [], (c :: t). simpl. rewrite Nat.add_0_r. repeat split; auto.
    + assert (Hc : Forall (fun x => punctuation x = true) t -> punctuation c = false).
      { intros Ht. destruct (punctuation c) eqn:Hc; [|reflexivity].
        destruct (match_at_trailing_complete d (c :: t)) as (m & Hm');
          [discriminate | constructor; assumption | congruence]. }
      specialize (IH (c :: d)).
      destruct (search trailing_punctuation (c :: d) t) as [m|].
      * destruct IH as (pre & suf & -> & Hall & Hi & He & Hend).
        exists (c :: pre), suf. simpl in *. repeat split; auto; try lia.
        destruct pre as [|p pre].
        -- unfold ends_with. simpl. rewrite (Hc Hall). reflexivity.
        -- apply ends_with_cons; [discriminate | exact Hend].
      * destruct t as [|b t].
        -- unfold ends_with. simpl. rewrite (Hc ltac:(constructor)). reflexivity.
        -- apply ends_with_cons; [discriminate | exact IH].
Qed.

(** Removing the trailing punctuation leaves a prefix that does not end in
    punctuation. *)
Lemma strip_trailing_punctuation (S : jsstring) :
  exists suf,
    S = remove_first trailing_punctuation S ++ suf
    /\ Forall (fun x => punctuation x = true) suf
    /\ ends_with (fun x => negb (punctuation x)) (remove_first trailing_punctuation S).
Proof.
  unfold remove_first. rewrite (exec_search trailing_punctuation S eq_refl eq_refl).
  pose proof (search_trailing S []) as H.
  destruct (search trailing_punctuation [] S) as [m|].
  - destruct H as (pre & suf & -> & Hall & Hi & He & Hend). simpl in Hi, He.
    rewrite Hi, He.
    rewrite firstn_app, firstn_all, Nat.sub_diag, firstn_O, app_nil_r.
    rewrite skipn_all, app_nil_r. exists suf. auto.
  - exists []. rewrite app_nil_r. auto.
Qed.

(** ** The name of a record *)

Lemma stripped_name_head (g : jsstring) :
  starts_with (fun x => negb (isWhiteSpace x))
              (remove_first trailing_punctuation (trim g)).
Proof.
  destruct (strip_trailing_punctuation (trim g)) as (suf & E & _).
  pose proof (trim_head g) as Hh. rewrite E in Hh.
  destruct (remove_first trailing_punctuation (trim g)) as [|a l]; [exact I|].
  simpl in *. rewrite Hh. reflexivity.
Qed.

Lemma stripped_name_last (S : jsstring) :
  ends_with (fun x => negb (punctuation x)) (remove_first trailing_punctuation S).
Proof. destruct (strip_trailing_punctuation S) as (suf & _ & _ & H). exact H. Qed.

Lemma trimmed_head (s : jsstring) :
  starts_with (fun x => negb (isWhiteSpace x)) (trim s).
Proof.
  pose proof (trim_head s) as H. destruct (trim s); [exact I|].
  simpl. rewrite H. reflexivity.
Qed.

Lemma build_record_name (n : patternName) (t : jsstring) (m : match_result)
      (q : ParsedTestComponent) :
  build_record n t m = Some q ->
  (abbreviation q = None /\ test_name q = name_of_match m /\ test_name q <> [])
  \/ (abbreviation q <> None /\ exists s, test_name q = trim s).
Proof.
  intros H. build_record_steps H t m c q. subst q.
  cbn [abbreviation test_name set_confidence].
  replace (abbreviation (auto_status (fst pc4))) with (abbreviation (fst pc4))
    by congruence.
  replace (test_name (auto_status (fst pc4))) with (test_name (fst pc4))
    by congruence.
  subst pc4. unfold detect_abbreviation. destruct pc3 as [p3 c3].
  destruct (exec abbreviation_regexp (name_of_match m)) as [am|] eqn:Ha.
  - right. simpl. split; [|eauto].
    apply exec_sound in Ha. destruct Ha as (pre & post & _ & Hs).
    apply (sem_sandwich false (chr (ch "(")) (chr (ch ")"))) in Hs;
      [|reflexivity|reflexivity].
    destruct Hs as (v & c1 & _ & Hc). unfold group. rewrite Hc. discriminate.
  - left. simpl in *.
    replace (abbreviation p3) with (@None jsstring) by congruence.
    replace (test_name p3) with (name_of_match m) by congruence.
    auto.
Qed.

Lemma extract_name (t : jsstring) (q : ParsedTestComponent) :
  extract t = Some q ->
  starts_with (fun x => negb (isWhiteSpace x)) (test_name q)
  /\ (abbreviation q = None ->
      ends_with (fun x => negb (punctuation x)) (test_name q)).
Proof.
  intros H. apply extract_inv in H. destruct H as [(n & R & m & _ & _ & _ & Hb) | Hf].
  - apply build_record_name in Hb.
    destruct Hb as [(Ha & -> & _) | (Ha & s & ->)].
    + unfold name_of_match. split; [apply stripped_name_head|]. intros _.
      apply stripped_name_last.
    + split; [apply trimmed_head | contradiction].
  - unfold fallback in Hf.
    destruct (exec fallback_regexp t) as [m|]; [|discriminate].
    destruct (negb _); [|discriminate]. injection Hf as <-. simpl.
    split; [apply stripped_name_head|]. intros _. apply stripped_name_last.
Qed.

(** X21.  The name of a record never starts with white space and, unless an
    abbreviation was split off it, never ends in a comma, a semicolon or a
    colon. *)
Theorem test_name_shape (parseSettings : ParseSettings) (text : jsstring)
        (p : ParsedTestComponent) :
  In p (components (parseText parseSettings text)) ->
  starts_with (fun x => negb (isWhiteSpace x)) (test_name p)
  /\ (abbreviation p = None ->
      ends_with (fun x => negb (punctuation x)) (test_name p)).
Proof.
  intros H. apply parseText_validated in H. destruct H as (line & q & _ & Hq & ->).
  destruct (validate_frame q) as (-> & -> & _).
  apply (extract_name (trim line) q Hq).
Qed.

Lemma test_name_shape_witness :
  exists p,
    components (parseText initial_parseSettings (str "Na+ ;:, 140 mmol/L")) = [p]
    /\ test_name p = str "Na+ "
    /\ ends_with (fun x => negb (punctuation x)) (test_name p).
Proof.
  eexists. split; [vm_compute; reflexivity|].
  split; [vm_compute; reflexivity|].
  apply (test_name_shape initial_parseSettings (str "Na+ ;:, 140 mmol/L")).
  - vm_compute. left. reflexivity.
  - vm_compute. reflexivity.
Defined.

Lemma nonempty_head (s : jsstring) :
  starts_with (fun x => negb (isWhiteSpace x)) s ->
  nonempty (trim s) = nonempty s.
Proof.
  intros H. rewrite nonempty_trim. destruct s as [|a l]; [reflexivity|].
  simpl in *. rewrite H. reflexivity.
Qed.

(** X22.  Of the rows [parse] gives, the ones withheld from the submission are
    exactly the ones whose name is empty: a name that is not empty is never
    blank. *)
Theorem withheld_rows_have_no_name
        (searchTests : jsstring -> nat -> list TestLibraryItem.t)
        (parseSettings : ParseSettings) (text : jsstring) :
  validComponents (fst (parse searchTests parseSettings text))
  = filter (fun p => nonempty (test_name p))
           (fst (parse searchTests parseSettings text)).
Proof.
  unfold validComponents. apply filter_ext_in. intros p H.
  apply nonempty_head.
  apply parse_enriched in H. destruct H as (c & Hc & ->).
  rewrite enrich_test_name.
  apply parseText_validated in Hc. destruct Hc as (line & q & _ & Hq & ->).
  destruct (validate_frame q) as (-> & _).
  apply (extract_name (trim line) q Hq).
Qed.

(** ** The helper of the tests against the parser *)

Lemma parseLine_status_derived (r : ParseLine.result) :
  ParseLine.status r = None ->
  let r' := parseLine_status r in
  ParseLine.status r'
  = derived_status (ParseLine.value r) (ParseLine.ref_range_min r)
                   (ParseLine.ref_range_max r)
  /\ ParseLine.value r' = ParseLine.value r
  /\ ParseLine.unit r' = ParseLine.unit r
  /\ ParseLine.test_name r' = ParseLine.test_name r
  /\ ParseLine.ref_range_min r' = ParseLine.ref_range_min r
  /\ ParseLine.ref_range_max r' = ParseLine.ref_range_max r
  /\ ParseLine.ref_range_text r' = ParseLine.ref_range_text r.
Proof.
  intros Hs. cbv zeta. unfold parseLine_status, derived_status.
  destruct (ParseLine.ref_range_min r) eqn:Emin,
    (ParseLine.ref_range_max r) eqn:Emax;
    repeat match goal with
           | |- context [if ?b then _ else _] => destruct b
           end;
    simpl; repeat split; auto.
Qed.

(** The range the helper reads is the range the parser reads. *)
Lemma parseLine_range_same (m : match_result) (r : ParseLine.result)
      (p : ParsedTestComponent) (c : number) :
  ParseLine.ref_range_min r = ref_range_min p ->
  ParseLine.ref_range_max r = ref_range_max p ->
  ParseLine.ref_range_text r = None ->
  let r' := parseLine_range m r in
  let p' := fst (parse_reference_range m (p, c)) in
  ParseLine.ref_range_min r' = ref_range_min p'
  /\ ParseLine.ref_range_max r' = ref_range_max p'
  /\ (forall text, ParseLine.ref_range_text r' = Some text ->
                   ref_range_text p' = Some text
                   /\ text = trim (defined (group 6 m))
                   /\ truthy (group 6 m) = true)
  /\ ParseLine.value r' = ParseLine.value r
  /\ ParseLine.unit r' = ParseLine.unit r
  /\ ParseLine.test_name r' = ParseLine.test_name r
  /\ ParseLine.status r' = ParseLine.status r.
Proof.
  intros Hmin Hmax Htxt. cbv zeta.
  unfold parseLine_range, parse_reference_range, comparison_bound.
  destruct (truthy (group 4 m) && truthy (group 5 m)).
  - destruct (negb _ && negb _); simpl;
      repeat match goal with |- _ /\ _ => split end; auto;
      intros text E; congruence.
  - destruct (truthy (group 6 m)) eqn:E6; simpl.
    + destruct (exec comparison_regexp (trim (defined (group 6 m)))) as [cm|];
        [destruct (negb (isNaN _)); [destruct (_ || _); [|destruct (_ || _)]|]|];
        simpl; repeat match goal with |- _ /\ _ => split end; auto;
        intros text [= <-]; auto.
    + destruct (truthy (group 7 m)); simpl;
        repeat match goal with |- _ /\ _ => split end; auto;
        intros text E; congruence.
Qed.

Lemma parseLine_body_none (key : jsstring) (n : patternName) (t : jsstring)
      (m : match_result) :
  parseLine_body key m = None <-> build_record n t m = None.
Proof.
  unfold parseLine_body, build_record.
  destruct (negb (truthy _) || negb (truthy _)); [tauto|].
  destruct (isNaN _); [tauto|]. split; discriminate.
Qed.

Lemma build_record_unit_of_match (n : patternName) (t : jsstring) (m : match_result)
      (q : ParsedTestComponent) :
  build_record n t m = Some q -> unit q = unit_of_match m.
Proof.
  intros H. build_record_steps H t m c q. subst q. cbn [unit set_confidence].
  simpl in *. congruence.
Qed.

Lemma parseLine_body_same (key : jsstring) (n : patternName) (R : RegExpObject)
      (t : jsstring) (m : match_result) (r : ParseLine.result)
      (q : ParsedTestComponent) :
  In (n, R) patterns -> exec R t = Some m ->
  parseLine_body key m = Some r -> build_record n t m = Some q ->
  same_fields t r q.
Proof.
  intros Hin Hx Hr Hq.
  pose proof (build_record_name n t m q Hq) as Hname.
  pose proof (build_record_range n t m q Hq) as Hrange.
  destruct Hrange as (tn & v & u & c & Hrange). cbv zeta in Hrange.
  destruct Hrange as (Hv & Hn & Hval & Hmin & Hmax & Htxt & Hst).
  pose proof (build_record_unit_of_match n t m q Hq) as Hunit.
  unfold parseLine_body in Hr.
  destruct (negb (truthy _) || negb (truthy _)); [discriminate|].
  destruct (isNaN _); [discriminate|].
  injection Hr as <-.
  assert (Hveq : parseFloat (defined (option_map (remove_all commas) (group 2 m))) = v)
    by (rewrite Hv; destruct (group 2 m); reflexivity).
  rewrite Hveq.
  set (r0 := {| ParseLine.patternName := key;
                ParseLine.test_name := _ |}).
  destruct (parseLine_range_same m r0 (initial_record t tn v u) c
              eq_refl eq_refl eq_refl)
    as (Rmin & Rmax & Rtxt & Rval & Runit & Rname & Rst).
  destruct (parseLine_status_derived (parseLine_range m r0)
              ltac:(rewrite Rst; reflexivity))
    as (Sst & Sval & Sunit & Sname & Smin & Smax & Stxt).
  unfold same_fields.
  rewrite Sst, Sval, Sunit, Sname, Smin, Smax, Stxt, Rval, Runit, Rname, Rmin, Rmax.
  subst r0. cbn [ParseLine.value ParseLine.unit ParseLine.test_name].
  split; [exact Hval|].
  split; [exact Hunit|].
  split; [exact Hmin|]. split; [exact Hmax|]. split; [|split].
  - intros Ha. destruct Hname as [(_ & E & _) | (Hne & _)]; [|contradiction].
    rewrite E. unfold name_of_match.
    destruct (group 1 m); reflexivity.
  - intros text Ht. destruct (Rtxt text Ht) as (E & Etext & H6).
    rewrite Htxt; [exact E|].
    destruct (group 6 m) as [comp|] eqn:E6; [|discriminate].
    destruct (comparison_group_alone (n, R) t m comp Hin Hx E6) as [Hc _].
    simpl in Etext. rewrite (comparison_text_trim comp Hc) in Etext.
    unfold no_range. rewrite E. subst text.
    destruct Hc as (op & ws & ds & -> & _). simpl.
    rewrite !andb_false_r. reflexivity.
  - intros Hno. rewrite (Hst Hno). reflexivity.
Qed.

Lemma parseLine_loop_same (t : jsstring) (es : list (patternName * RegExpObject)) :
  incl es patterns ->
  forall keys : list jsstring,
    length keys = length es ->
    match parseLine_loop t (combine keys (map snd es)), match_patterns t es with
    | None, None => True
    | Some r, Some q => same_fields t r q
    | _, _ => False
    end.
Proof.
  induction es as [|[n R] es IH]; intros Hincl keys Hlen.
  - destruct keys; [exact I | discriminate].
  - destruct keys as [|key keys]; [discriminate|]. simpl.
    unfold try_pattern. cbn [fst snd].
    assert (Hin : In (n, R) patterns) by (apply Hincl; left; reflexivity).
    assert (Hrest : incl es patterns) by (intros x Hx; apply Hincl; right; exact Hx).
    specialize (IH Hrest keys ltac:(simpl in Hlen; lia)).
    destruct (exec R t) as [m|] eqn:Hx; [|exact IH].
    destruct (parseLine_body key m) as [r|] eqn:Hr.
    + destruct (build_record n t m) as [q|] eqn:Hq.
      * eapply parseLine_body_same; eauto.
      * apply (parseLine_body_none key n t m) in Hq. congruence.
    + apply (parseLine_body_none key n t m) in Hr. rewrite Hr. exact IH.
Qed.

(** X23.  The helper [parseLine] of the tests stands for the parser: it accepts a
    line exactly when a pattern of the table yields a record for it, and then
    the two agree on the value, the unit and both bounds, on the name unless
    the parser split an abbreviation off, on the comparison text, and on the
    status when the line names none. *)
Theorem parseLine_mirrors_parser (line : jsstring) :
  match parseLine line, match_patterns (trim line) patterns with
  | None, None => True
  | Some r, Some q => same_fields (trim line) r q
  | _, _ => False
  end.
Proof.
  unfold parseLine.
  apply (parseLine_loop_same (trim line) patterns (incl_refl patterns)
           [str "FULL_PATTERN"; str "TABULAR_PATTERN"; str "SIMPLE_PATTERN";
            str "CSV_PATTERN"] eq_refl).
Qed.

(** ** Where the unit can be missing *)

(** A pattern leaves the groups it does not hold as they are. *)
Lemma sem_unchanged (i : bool) (r : regex) :
  forall w c c', sem i r w c c' ->
  forall n, ~ In n (groups_of r) -> cap n c' = cap n c.
Proof.
  induction r as [ | cs | r1 IH1 r2 IH2 | r1 IH1 r2 IH2 | k r1 IH1 | r1 IH1
                 | g cs | g cs | | | ]; simpl; intros w c c' H n Hn.
  - destruct H as [_ ->]; reflexivity.
  - destruct H as (x & _ & _ & ->); reflexivity.
  - destruct H as (w1 & w2 & c1 & _ & H1 & H2).
    rewrite (IH2 _ _ _ H2 n), (IH1 _ _ _ H1 n); auto;
      intros Hin; apply Hn; apply in_or_app; auto.
  - destruct H as [H | H]; [apply (IH1 _ _ _ H) | apply (IH2 _ _ _ H)];
      intros Hin; apply Hn; apply in_or_app; auto.
  - destruct H as (c1 & H1 & ->). simpl.
    destruct (Nat.eqb_spec n k) as [-> | Hne]; [exfalso; apply Hn; auto|].
    apply (IH1 _ _ _ H1). intros Hin. apply Hn. auto.
  - destruct H as [[_ H] | [_ ->]]; [|reflexivity].
    rewrite (IH1 _ _ _ H n Hn), cap_clear_caps.
    destruct (existsb (Nat.eqb n) (groups_of r1)) eqn:E; [|reflexivity].
    apply existsb_exists in E. destruct E as (x & Hx & E).
    apply Nat.eqb_eq in E. subst x. contradiction.
  - destruct H as [_ ->]; reflexivity.
  - destruct H as (_ & _ & ->); reflexivity.
  - destruct H as [_ ->]; reflexivity.
  - destruct H as [_ ->]; reflexivity.
  - destruct H as [_ ->]; reflexivity.
Qed.

Lemma sets_group_here (i : bool) (n : nat) (r : regex) : sets_group i n (Group n r).
Proof.
  intros w c c' (c1 & _ & ->). simpl. rewrite Nat.eqb_refl. discriminate.
Qed.

Lemma sets_group_later (i : bool) (n : nat) (a b : regex) :
  sets_group i n b -> sets_group i n (Seq a b).
Proof. intros Hb w c c' (w1 & w2 & c1 & _ & _ & H2). eapply Hb; eauto. Qed.

Lemma sets_group_kept (i : bool) (n : nat) (a b : regex) :
  sets_group i n a -> ~ In n (groups_of b) -> sets_group i n (Seq a b).
Proof.
  intros Ha Hb w c c' (w1 & w2 & c1 & _ & H1 & H2).
  rewrite (sem_unchanged i b _ _ _ H2 n Hb). eapply Ha; eauto.
Qed.

(** The tabular, the simple and the CSV pattern cannot match without a
    unit. *)
Lemma unit_group_set (n : patternName) (R : RegExpObject) (t : jsstring)
      (m : match_result) :
  In (n, R) patterns -> n <> fullPattern -> exec R t = Some m ->
  group 3 m <> None.
Proof.
  intros Hin Hn Hx. apply exec_sound in Hx. destruct Hx as (pre & post & _ & Hs).
  revert Hs. unfold group. generalize (matched m) (groups m). intros w c' Hs.
  simpl in Hin. destruct Hin as [E | [E | [E | [E | []]]]]; injection E as <- <-;
    [contradiction | | | ];
    revert Hs; cbn [source ignoreCase regexp REGEX_PATTERNS.TABULAR_PATTERN
                      REGEX_PATTERNS.SIMPLE_PATTERN REGEX_PATTERNS.CSV_PATTERN];
    apply (sets_group_later true 3); apply (sets_group_later true 3);
    apply (sets_group_later true 3); apply (sets_group_later true 3);
    apply (sets_group_later true 3);
    first [ apply sets_group_here
          | apply sets_group_kept;
            [apply sets_group_here | simpl; intuition discriminate] ].
Qed.

Lemma match_patterns_none (t : jsstring) (es : list (patternName * RegExpObject)) :
  match_patterns t es = None -> deciding_match t es = None.
Proof.
  induction es as [|e es IH]; simpl; [reflexivity|].
  destruct (try_pattern t e); [discriminate | exact IH].
Qed.

(** X24.  A record without a unit comes from the colon pattern, the only one in
    which the unit is optional, or from the fallback: the tabular, the simple
    and the CSV layout never give one. *)
Theorem unit_missing_only_without_layout (parseSettings : ParseSettings)
        (index : nat) (line : jsstring) (p : ParsedTestComponent) :
  process_line parseSettings index line = Parsed p ->
  unit p = [] ->
  deciding_match (trim line) patterns = None
  \/ exists m, deciding_match (trim line) patterns = Some (fullPattern, m).
Proof.
  intros H Hu. apply process_line_inv in H. destruct H as (q & Hq & ->).
  destruct (validate_frame q) as (_&_&_&_& Eu &_). rewrite Eu in Hu. clear Eu.
  unfold extract in Hq.
  destruct (match_patterns (trim line) patterns) as [q'|] eqn:Hm.
  - injection Hq as ->. right.
    apply match_patterns_deciding in Hm.
    destruct Hm as (n & R & m & Hin & Hx & Hd & Hb).
    exists m. rewrite Hd.
    destruct (build_record_unit n R (trim line) m q Hin Hx Hb) as [_ H3].
    specialize (H3 Hu).
    destruct n; try reflexivity; exfalso;
      eapply (unit_group_set _ R (trim line) m Hin); eauto; discriminate.
  - left. apply match_patterns_none. exact Hm.
Qed.

Lemma unit_missing_only_without_layout_witness :
  exists p m,
    process_line initial_parseSettings 0 (str "K: 4") = Parsed p
    /\ unit p = []
    /\ deciding_match (str "K: 4") patterns = Some (fullPattern, m).
Proof.
  destruct (unit_missing_only_without_layout initial_parseSettings 0 (str "K: 4")
              (match process_line initial_parseSettings 0 (str "K: 4") with
               | Parsed p => p
               | _ => initial_record [] [] c0 []
               end)
              ltac:(vm_compute; reflexivity) ltac:(vm_compute; reflexivity))
    as [H | (m & H)].
  - vm_compute in H. discriminate H.
  - eexists _, m. split; [vm_compute; reflexivity|].
    split; [vm_compute; reflexivity|]. exact H.
Defined.

(** ** Where the status comes from *)

Lemma auto_status_kept (p : ParsedTestComponent) :
  truthy (status p) = true -> auto_status p = p.
Proof. intros H. unfold auto_status. rewrite H. reflexivity. Qed.

Lemma build_record_status_source (n : patternName) (t : jsstring) (m : match_result)
      (q : ParsedTestComponent) :
  build_record n t m = Some q ->
  status q
  = status_of_line t (derived_status (value q) (ref_range_min q) (ref_range_max q)).
Proof.
  intros H. build_record_steps H t m c q.
  assert (Hst : status_is_valid (fst pc3)).
  { apply parse_status_valid. unfold status_is_valid.
    replace (status (fst pc2)) with (@None jsstring) by congruence. exact I. }
  assert (E3 : status (fst pc3)
               = status_of_line t None).
  { subst pc3. unfold parse_status, status_of_line. destruct pc2 as [p2 c2].
    destruct (exec bracket_status_regexp t); [reflexivity|].
    destruct (exec plain_status_regexp t); [reflexivity|].
    simpl in *. congruence. }
  subst q. cbn [status value ref_range_min ref_range_max set_confidence].
  replace (value (auto_status (fst pc4))) with (value (fst pc4)) by congruence.
  replace (ref_range_min (auto_status (fst pc4))) with (ref_range_min (fst pc4))
    by congruence.
  replace (ref_range_max (auto_status (fst pc4))) with (ref_range_max (fst pc4))
    by congruence.
  assert (E4 : status (fst pc4) = status (fst pc3)) by congruence.
  unfold status_is_valid in Hst. rewrite <- E4 in Hst, E3.
  destruct (status (fst pc4)) as [s|] eqn:Es.
  - rewrite auto_status_kept by (rewrite Es; apply component_status_nonempty; exact Hst).
    rewrite Es. unfold status_of_line in *.
    destruct (exec bracket_status_regexp t); [exact E3|].
    destruct (exec plain_status_regexp t); [exact E3 | discriminate E3].
  - rewrite (auto_status_derived _ Es). unfold status_of_line in *.
    destruct (exec bracket_status_regexp t); [discriminate E3|].
    destruct (exec plain_status_regexp t); [discriminate E3 | reflexivity].
Qed.

(** X25.  For a record of the pattern table, a status written in the line always
    wins: the status is the bracketed token of the line if there is one,
    else the first bare status word, in lower case, and only without either
    the status computed from the value and the bounds. *)
Theorem status_source (parseSettings : ParseSettings) (text : jsstring)
        (p : ParsedTestComponent) :
  In p (components (parseText parseSettings text)) ->
  match_patterns (original_line p) patterns <> None ->
  status p
  = status_of_line (original_line p)
      (derived_status (value p) (ref_range_min p) (ref_range_max p)).
Proof.
  intros H Hm. apply parseText_validated in H. destruct H as (line & q & _ & Hq & ->).
  destruct (validate_frame q) as (_&_&_& Ev &_& Emin & Emax &_& Es &_&_& Eo).
  rewrite Ev, Emin, Emax, Es, Eo in *.
  assert (Ho : original_line q = trim line).
  { apply extract_inv in Hq. destruct Hq as [(n & R & m & _ & _ & _ & Hb) | Hf].
    - apply build_record_basic in Hb. tauto.
    - apply fallback_basic in Hf. tauto. }
  rewrite Ho in *. unfold extract in Hq.
  destruct (match_patterns (trim line) patterns) as [q'|] eqn:Hp; [|contradiction].
  injection Hq as ->.
  apply match_patterns_deciding in Hp. destruct Hp as (n & R & m & _ & _ & _ & Hb).
  apply (build_record_status_source n (trim line) m q Hb).
Qed.

Lemma status_source_witness :
  exists p,
    components (parseText initial_parseSettings
                          (str "Glucose 125 mg/dL 70-100 [Low]")) = [p]
    /\ num_gt (value p) (decimal 100 0) = true
    /\ status p = Some (str "low").
Proof.
  eexists. split; [vm_compute; reflexivity|].
  split; [vm_compute; reflexivity|].
  rewrite (status_source initial_parseSettings
             (str "Glucose 125 mg/dL 70-100 [Low]")).
  - vm_compute. reflexivity.
  - vm_compute. left. reflexivity.
  - vm_compute. discriminate.
Defined.

(** ** The name is the start of the line *)

Lemma search_match_at (R : RegExpObject) (r : jsstring) :
  forall (d : jsstring) (m : match_result),
    search R d r = Some m ->
    exists d' r', match_at R d' r' = Some m /\ rev d' ++ r' = rev d ++ r.
Proof.
  induction r as [|c t IH]; intros d m H; simpl in H.
  - destruct (match_at R d []) eqn:Hm; [|discriminate].
    injection H as ->. exists d, []. auto.
  - destruct (match_at R d (c :: t)) eqn:Hm.
    + injection H as ->. exists d, (c :: t). auto.
    + destruct (IH _ _ H) as (d' & r' & Hm' & E). exists d', r'.
      split; [exact Hm'|]. rewrite E. simpl. rewrite <- app_assoc. reflexivity.
Qed.

(** In a pattern that starts with [^(...)], group 1 is the start of the
    subject. *)
Lemma anchored_group_prefix (R : RegExpObject) (r1 rest : regex) (S : jsstring)
      (m : match_result) :
  source R = Seq Bol (Seq (Group 1 r1) rest) ->
  ~ In 1%nat (groups_of rest) ->
  global R = false -> sticky R = false ->
  exec R S = Some m ->
  exists g1 tail, group 1 m = Some g1 /\ S = g1 ++ tail.
Proof.
  intros Hsrc Hrest Hg Hy Hx.
  rewrite (exec_search R S Hg Hy) in Hx.
  apply search_match_at in Hx. destruct Hx as (d & r & Hm & E). simpl in E.
  unfold match_at in Hm. rewrite Hsrc in Hm.
  change (rmatch ?i (Seq Bol (Seq ?a ?b)) ?st ?k)
    with (rmatch i Bol st (fun st1 => rmatch i a st1 (fun st2 => rmatch i b st2 k)))
    in Hm.
  cbn [rmatch done] in Hm. destruct d as [|x d]; [|discriminate Hm].
  simpl in E. subst r.
  apply rmatch_sound in Hm. destruct Hm as (w1 & st1 & Hs1 & Hd1 & Hr1 & Hk1).
  apply rmatch_sound in Hk1. destruct Hk1 as (w2 & st2 & Hs2 & _ & _ & Hk2).
  injection Hk2 as <-. unfold group. cbn [groups].
  destruct st1 as [d1 rest1 caps1]. simpl in Hd1, Hr1, Hs2. subst d1.
  rewrite consumed_app in Hs2.
  exists w1, rest1. split; [|exact Hr1].
  rewrite (sem_unchanged _ _ _ _ _ Hs2 1%nat Hrest). simpl. reflexivity.
Qed.

Lemma name_group_prefix (R : RegExpObject) (S : jsstring) (m : match_result) :
  In R (fallback_regexp :: map snd patterns) ->
  exec R S = Some m ->
  exists g1 tail, group 1 m = Some g1 /\ S = g1 ++ tail.
Proof.
  intros HR. simpl in HR.
  destruct HR as [<- | [<- | [<- | [<- | [<- | []]]]]];
    eapply anchored_group_prefix; try reflexivity; simpl; intuition discriminate.
Qed.

(** The name cut out of group 1 is the start of a trimmed line. *)
Lemma stripped_name_prefix (g1 tail : jsstring) :
  starts_with (fun x => negb (isWhiteSpace x)) (g1 ++ tail) ->
  exists rest,
    g1 ++ tail = remove_first trailing_punctuation (trim g1) ++ rest.
Proof.
  intros Hh.
  destruct (trim_split g1) as (a & b & E & Ha & _).
  destruct (strip_trailing_punctuation (trim g1)) as (suf & Es & _).
  assert (Hnil : a = []).
  { destruct a as [|x a]; [reflexivity|].
    rewrite E in Hh. simpl in Hh. inversion Ha as [|? ? Hx _]; subst.
    rewrite Hx in Hh. discriminate. }
  subst a. simpl in E.
  exists (suf ++ b ++ tail).
  rewrite E at 1. rewrite Es at 1. rewrite <- !app_assoc. reflexivity.
Qed.

(** X26.  Unless an abbreviation was split off it, the name of a record is the
    beginning of its original line. *)
Theorem name_is_line_start (parseSettings : ParseSettings) (text : jsstring)
        (p : ParsedTestComponent) :
  In p (components (parseText parseSettings text)) ->
  abbreviation p = None ->
  exists rest, original_line p = test_name p ++ rest.
Proof.
  intros H Ha. apply parseText_validated in H. destruct H as (line & q & _ & Hq & ->).
  destruct (validate_frame q) as (En & Eab &_&_&_&_&_&_&_&_&_& Eo).
  rewrite En, Eo. rewrite Eab in Ha. clear En Eo Eab.
  pose proof (trimmed_head line) as Hh.
  apply extract_inv in Hq. destruct Hq as [(n & R & m & Hin & Hx & _ & Hb) | Hf].
  - destruct (name_group_prefix R (trim line) m) as (g1 & tail & Hg & E);
      [right; apply (in_map snd) in Hin; exact Hin | exact Hx |].
    pose proof (build_record_basic _ _ _ _ Hb) as (Ho & _). rewrite Ho.
    apply build_record_name in Hb.
    destruct Hb as [(_ & -> & _) | (Hne & _)]; [|contradiction].
    unfold name_of_match. rewrite Hg. simpl. rewrite E in Hh |- *.
    apply stripped_name_prefix. exact Hh.
  - pose proof (fallback_basic _ _ Hf) as (Ho & _). rewrite Ho.
    unfold fallback in Hf.
    destruct (exec fallback_regexp (trim line)) as [m|] eqn:Hx; [|discriminate].
    destruct (negb _); [|discriminate]. injection Hf as <-. simpl.
    destruct (name_group_prefix fallback_regexp (trim line) m) as (g1 & tail & Hg & E);
      [left; reflexivity | exact Hx |].
    rewrite Hg. simpl. rewrite E in Hh |- *.
    apply stripped_name_prefix. exact Hh.
Qed.

Lemma name_is_line_start_witness :
  exists p rest,
    components (parseText initial_parseSettings (str "  WBC Count:  7.5 K/uL")) = [p]
    /\ test_name p = str "WBC Count"
    /\ original_line p = test_name p ++ rest.
Proof.
  destruct (name_is_line_start initial_parseSettings (str "  WBC Count:  7.5 K/uL")
              (match components (parseText initial_parseSettings
                                           (str "  WBC Count:  7.5 K/uL")) with
               | p :: _ => p
               | [] => initial_record [] [] c0 []
               end)
              ltac:(vm_compute; left; reflexivity) ltac:(vm_compute; reflexivity))
    as (rest & E).
  eexists _, rest. split; [vm_compute; reflexivity|].
  split; [vm_compute; reflexivity|]. exact E.
Defined.

(** * The value and the minus sign *)

(** ** Where the value stands in a line *)

(** A pattern that starts with [^] matches at the start of the subject. *)
Lemma anchored_match (R : RegExpObject) (r : regex) (S : jsstring) (m : match_result) :
  source R = Seq Bol r -> global R = false -> sticky R = false ->
  exec R S = Some m ->
  exists post, S = matched m ++ post /\ sem (ignoreCase R) r (matched m) [] (groups m).
Proof.
  intros Hsrc Hg Hy Hx.
  rewrite (exec_search R S Hg Hy) in Hx.
  apply search_match_at in Hx. destruct Hx as (d & r' & Hm & E). simpl in E.
  unfold match_at in Hm. rewrite Hsrc in Hm.
  cbn [rmatch done] in Hm. destruct d as [|x d]; [|discriminate Hm].
  simpl in E. subst r'.
  apply rmatch_sound in Hm. destruct Hm as (w & st' & Hs & Hd & Hr & Hk).
  injection Hk as <-. cbn [matched groups].
  destruct st' as [d1 r1 c1]. simpl in Hd, Hr, Hs. subst d1.
  rewrite consumed_app. exists r1. split; [exact Hr | exact Hs].
Qed.

Lemma sem_name_first (i : bool) (r1 tl : regex) (w : jsstring) (c c' : captures) :
  sem i (Seq (Group 1 r1) tl) w c c' -> ~ In 1%nat (groups_of tl) ->
  exists g1 w2 c1, w = g1 ++ w2 /\ cap 1 c' = Some g1 /\ sem i tl w2 c1 c'.
Proof.
  intros H Hn. simpl in H.
  destruct H as (w1 & w2 & c1 & -> & (ca & _ & ->) & H2).
  exists w1, w2, ((1%nat, w1) :: ca). split; [reflexivity|]. split; [|exact H2].
  rewrite (sem_unchanged i tl _ _ _ H2 1%nat Hn). reflexivity.
Qed.

Lemma sem_value_next (i : bool) (sepr r2 rest : regex) (w : jsstring) (c c' : captures) :
  sem i (Seq sepr (Seq (Group 2 r2) rest)) w c c' -> ~ In 2%nat (groups_of rest) ->
  exists ws v w' ca cb,
    w = ws ++ v ++ w' /\ cap 2 c' = Some v /\ sem i sepr ws c ca /\ sem i r2 v ca cb.
Proof.
  intros H Hn. simpl in H.
  destruct H as (ws & w2 & ca & -> & Hs & (v & w' & c2 & -> & (cb & Hv & ->) & Hr)).
  exists ws, v, w', ca, cb. split; [reflexivity|]. split; [|auto].
  rewrite (sem_unchanged i rest _ _ _ Hr 2%nat Hn). reflexivity.
Qed.

Lemma sem_value_last (i : bool) (sepr r2 : regex) (w : jsstring) (c c' : captures) :
  sem i (Seq sepr (Group 2 r2)) w c c' ->
  exists ws v ca cb,
    w = ws ++ v /\ cap 2 c' = Some v /\ sem i sepr ws c ca /\ sem i r2 v ca cb.
Proof.
  intros H. simpl in H.
  destruct H as (ws & v & ca & -> & Hs & (cb & Hv & ->)).
  exists ws, v, ca, cb. auto.
Qed.

Lemma space_is_separator (i : bool) (x : char16) :
  cset_match i (Class false [CSpace]) x = true -> separator_char x = true.
Proof.
  intros H. assert (Hw : isWhiteSpace x = true).
  { rewrite <- space_class. destruct i; [rewrite <- space_case_blind|]; exact H. }
  unfold separator_char. rewrite Hw. reflexivity.
Qed.

Lemma colon_is_separator (x : char16) :
  cset_match true (Class false [CChar (ch ":")]) x = true -> separator_char x = true.
Proof. unfold separator_char, punctuation, ch. simpl N_of_ascii. char_cases. Qed.

Lemma csv_separator (x : char16) :
  cset_match true (Class false [CChar (ch ","); CChar 9]) x = true ->
  separator_char x = true.
Proof. unfold separator_char, punctuation, ch. simpl N_of_ascii. char_cases. Qed.

Lemma separator_not_minus (x : char16) : separator_char x = true -> x <> 45.
Proof. intros H ->. vm_compute in H. discriminate H. Qed.

Lemma spaces_are_separators (i g : bool) (ws : jsstring) (c c' : captures) :
  sem i (Star g (Class false [CSpace])) ws c c' ->
  Forall (fun x => separator_char x = true) ws.
Proof.
  simpl. intros (H & _). eapply Forall_impl; [|exact H].
  intros x. apply space_is_separator.
Qed.

Lemma value_text (i : bool) (v : jsstring) (c c' : captures) :
  sem i (Plus true numeric_chars) v c c' ->
  v <> [] /\ Forall (fun x => cset_match false numeric_chars x = true) v.
Proof.
  simpl. intros (Hne & H & _). split; [exact Hne|].
  eapply Forall_impl; [|exact H].
  intros x Hx. cbv beta in Hx. destruct i; [rewrite numeric_case_blind in Hx|]; exact Hx.
Qed.

Lemma sem_seq (i : bool) (a b : regex) (w : jsstring) (c c' : captures) :
  sem i (Seq a b) w c c' ->
  exists w1 w2 c1, w = w1 ++ w2 /\ sem i a w1 c c1 /\ sem i b w2 c1 c'.
Proof. intros H. exact H. Qed.

(** In each of the four patterns and in the fallback expression, the subject
    starts with group 1, then a run of separators that is not empty, then
    group 2. *)
Lemma value_position (R : RegExpObject) (S : jsstring) (m : match_result) :
  In R (fallback_regexp :: map snd patterns) ->
  exec R S = Some m ->
  exists g1 sep v tail,
    S = g1 ++ sep ++ v ++ tail
    /\ group 1 m = Some g1 /\ group 2 m = Some v
    /\ sep <> [] /\ Forall (fun x => separator_char x = true) sep
    /\ v <> [] /\ Forall (fun x => cset_match false numeric_chars x = true) v.
Proof.
  intros HR Hx. unfold group. simpl in HR.
  destruct HR as [<- | [<- | [<- | [<- | [<- | []]]]]];
    (eapply anchored_match in Hx; [|reflexivity|reflexivity|reflexivity]);
    destruct Hx as (post & -> & Hs); revert Hs;
    generalize (matched m) (groups m); intros w c' Hs;
    (apply sem_name_first in Hs; [|simpl; intuition discriminate]);
    destruct Hs as (g1 & w2 & c1 & -> & Hg1 & Hs).
  - (* fallback *)
    apply sem_value_last in Hs.
    destruct Hs as (ws & v & ca & cb & -> & Hg2 & Hws & Hv).
    apply value_text in Hv. destruct Hv as [Hne Hv].
    exists g1, ws, v, post.
    split; [rewrite <- ?app_assoc; reflexivity|].
    repeat match goal with |- _ /\ _ => split end; auto.
    + simpl in Hws. tauto.
    + simpl in Hws. destruct Hws as (_ & H & _).
      eapply Forall_impl; [|exact H]. intros x. apply space_is_separator.
  - (* the colon pattern *)
    apply sem_seq in Hs. destruct Hs as (w1 & w3 & c2 & -> & Hc & Hs).
    simpl in Hc. destruct Hc as (x & -> & Hx & ->).
    apply sem_value_next in Hs; [|simpl; intuition discriminate].
    destruct Hs as (ws & v & w' & ca & cb & -> & Hg2 & Hws & Hv).
    apply value_text in Hv. destruct Hv as [Hne Hv].
    exists g1, (x :: ws), v, (w' ++ post).
    split; [rewrite <- ?app_assoc; simpl; rewrite <- ?app_assoc; reflexivity|].
    repeat match goal with |- _ /\ _ => split end; auto.
    + discriminate.
    + constructor; [apply colon_is_separator; exact Hx|].
      eapply spaces_are_separators; exact Hws.
  - (* the tabular pattern *)
    apply sem_value_next in Hs; [|simpl; intuition discriminate].
    destruct Hs as (ws & v & w' & ca & cb & -> & Hg2 & Hws & Hv).
    apply value_text in Hv. destruct Hv as [Hne Hv].
    exists g1, ws, v, (w' ++ post).
    split; [rewrite <- ?app_assoc; reflexivity|].
    repeat match goal with |- _ /\ _ => split end; auto.
    + simpl in Hws. tauto.
    + simpl in Hws. destruct Hws as (_ & H & _).
      eapply Forall_impl; [|exact H]. intros x. apply space_is_separator.
  - (* the simple pattern *)
    apply sem_value_next in Hs; [|simpl; intuition discriminate].
    destruct Hs as (ws & v & w' & ca & cb & -> & Hg2 & Hws & Hv).
    apply value_text in Hv. destruct Hv as [Hne Hv].
    exists g1, ws, v, (w' ++ post).
    split; [rewrite <- ?app_assoc; reflexivity|].
    repeat match goal with |- _ /\ _ => split end; auto.
    + simpl in Hws. tauto.
    + simpl in Hws. destruct Hws as (_ & H & _).
      eapply Forall_impl; [|exact H]. intros x. apply space_is_separator.
  - (* the CSV pattern *)
    apply sem_value_next in Hs; [|simpl; intuition discriminate].
    destruct Hs as (ws & v & w' & ca & cb & -> & Hg2 & Hws & Hv).
    apply value_text in Hv. destruct Hv as [Hne Hv].
    exists g1, ws, v, (w' ++ post).
    split; [rewrite <- ?app_assoc; reflexivity|].
    repeat match goal with |- _ /\ _ => split end; auto.
    + simpl in Hws. tauto.
    + simpl in Hws. destruct Hws as (_ & H & _).
      eapply Forall_impl; [|exact H]. intros x. apply csv_separator.
Qed.

(** The name of a record of the pattern table, with or without an
    abbreviation. *)
Lemma build_record_name_given (n : patternName) (t : jsstring) (m : match_result)
      (q : ParsedTestComponent) :
  build_record n t m = Some q ->
  test_name q = name_given (name_of_match m) (abbreviation q).
Proof.
  intros H. build_record_steps H t m c q. subst q.
  cbn [abbreviation test_name set_confidence].
  replace (abbreviation (auto_status (fst pc4))) with (abbreviation (fst pc4))
    by congruence.
  replace (test_name (auto_status (fst pc4))) with (test_name (fst pc4))
    by congruence.
  subst pc4. unfold detect_abbreviation. destruct pc3 as [p3 c3].
  destruct (exec abbreviation_regexp (name_of_match m)) as [am|] eqn:Ha.
  - apply exec_sound in Ha. destruct Ha as (pre & post & _ & Hs).
    apply (sem_sandwich false (chr (ch "(")) (chr (ch ")"))) in Hs;
      [|reflexivity|reflexivity].
    destruct Hs as (v & c1 & _ & Hc). unfold group. simpl. rewrite Hc. reflexivity.
  - simpl in *.
    replace (abbreviation p3) with (@None jsstring) by congruence.
    replace (test_name p3) with (name_of_match m) by congruence.
    reflexivity.
Qed.

(** Between the name cut out of group 1 and the end of group 1 there are
    separators only. *)
Lemma stripped_name_junk (g1 tail : jsstring) :
  starts_with (fun x => negb (isWhiteSpace x)) (g1 ++ tail) ->
  exists junk,
    g1 = remove_first trailing_punctuation (trim g1) ++ junk
    /\ Forall (fun x => separator_char x = true) junk.
Proof.
  intros Hh.
  destruct (trim_split g1) as (a & b & E & Ha & Hb).
  destruct (strip_trailing_punctuation (trim g1)) as (suf & Es & Hsuf & _).
  assert (Hnil : a = []).
  { destruct a as [|x a]; [reflexivity|].
    rewrite E in Hh. simpl in Hh. inversion Ha as [|? ? Hx _]; subst.
    rewrite Hx in Hh. discriminate. }
  subst a. simpl in E.
  exists (suf ++ b). split.
  - rewrite E at 1. rewrite Es at 1. rewrite <- !app_assoc. reflexivity.
  - apply Forall_app. split.
    + eapply Forall_impl; [|exact Hsuf]. intros x Hx. cbv beta in Hx.
      unfold separator_char. rewrite Hx. apply orb_true_r.
    + eapply Forall_impl; [|exact Hb]. intros x Hx. cbv beta in Hx.
      unfold separator_char. rewrite Hx. reflexivity.
Qed.

(** ** C10: the sign is lost, the value is never negative *)

(** A line that gave a record reads: the name, separators, the value. *)
Lemma value_after_name (R : RegExpObject) (line : jsstring) (m : match_result) :
  In R (fallback_regexp :: map snd patterns) ->
  exec R (trim line) = Some m ->
  exists sep v tail,
    trim line = name_of_match m ++ sep ++ v ++ tail
    /\ group 2 m = Some v
    /\ sep <> [] /\ Forall (fun x => separator_char x = true) sep
    /\ v <> [] /\ Forall (fun x => cset_match false numeric_chars x = true) v
    /\ ~ In 45 (sep ++ v).
Proof.
  intros HR Hx.
  destruct (value_position R (trim line) m HR Hx)
    as (g1 & sep & v & tail & E & Hg1 & Hg2 & Hne & Hsep & Hv & Hnum).
  pose proof (trimmed_head line) as Hh. rewrite E in Hh.
  destruct (stripped_name_junk g1 _ Hh) as (junk & Ej & Hj).
  unfold name_of_match. rewrite Hg1. cbn [defined].
  assert (Hall : Forall (fun x => separator_char x = true) (junk ++ sep))
    by (apply Forall_app; auto).
  exists (junk ++ sep), v, tail.
  split; [rewrite E, Ej at 1; rewrite <- !app_assoc; reflexivity|].
  split; [exact Hg2|].
  split; [intros Hnil; apply app_eq_nil in Hnil; destruct Hnil; contradiction|].
  split; [exact Hall|].
  split; [exact Hv|]. split; [exact Hnum|].
  intros Hin. apply in_app_or in Hin. destruct Hin as [Hin | Hin].
  - rewrite Forall_forall in Hall. apply (separator_not_minus 45 (Hall _ Hin)).
    reflexivity.
  - rewrite Forall_forall in Hnum. apply (numeric_chars_unsigned false 45 (Hnum _ Hin)).
    reflexivity.
Qed.

(** C10, as amended.  For every input text and settings, every record of the
    output has a value >= 0: group 2 of each pattern and of the fallback
    expression takes digits, periods and commas only, no sign.  The line of
    a record reads: the name text, then a run of white space, colons, commas
    and semicolons that is not empty, then the text read as the value.  So a
    minus sign before the number read is absorbed into the name ([test_name]
    is the name text, unless an abbreviation is split off it) and the value
    comes out positive, the sign lost; and the text read as the value never
    directly follows a minus sign: "Base Excess -2.5 mmol/L" yields no record
    and one failed line. *)
Theorem value_never_negative (parseSettings : ParseSettings) (text : jsstring)
        (p : ParsedTestComponent) :
  In p (components (parseText parseSettings text)) ->
  num_le c0 (value p) = true
  /\ (exists name sep v tail,
        original_line p = name ++ sep ++ v ++ tail
        /\ test_name p = name_given name (abbreviation p)
        /\ sep <> [] /\ Forall (fun x => separator_char x = true) sep
        /\ v <> [] /\ Forall (fun x => cset_match false numeric_chars x = true) v
        /\ ~ In 45 (sep ++ v)
        /\ value p = parseFloat (remove_all commas v))
  /\ parseText initial_parseSettings (str "Base Excess -2.5 mmol/L")
     = {| components := []; failedLineCount := 1 |}.
Proof.
  intros H. split; [apply (record_value_nonnegative parseSettings text p H)|].
  split; [|vm_compute; reflexivity].
  apply parseText_validated in H. destruct H as (line & q & _ & Hq & ->).
  destruct (validate_frame q) as (-> & -> & _ & -> & _ & _ & _ & _ & _ & _ & _ & ->).
  apply extract_inv in Hq. destruct Hq as [(n & R & m & Hin & Hx & _ & Hb) | Hf].
  - destruct (value_after_name R line m) as (sep & v & tail & E & Hg2 & Hrest);
      [right; apply (in_map snd) in Hin; exact Hin | exact Hx |].
    pose proof (build_record_basic _ _ _ _ Hb) as (Ho & _ & _ & _ & _ & Hv & _).
    exists (name_of_match m), sep, v, tail.
    split; [rewrite Ho; exact E|].
    split; [apply (build_record_name_given n (trim line) m q Hb)|].
    rewrite Hv, Hg2. cbn [defined]. tauto.
  - pose proof (fallback_basic _ _ Hf) as (Ho & _).
    unfold fallback in Hf.
    destruct (exec fallback_regexp (trim line)) as [m|] eqn:Hx; [|discriminate].
    destruct (negb _); [|discriminate]. injection Hf as <-.
    destruct (value_after_name fallback_regexp line m) as (sep & v & tail & E & Hg2 & Hrest);
      [left; reflexivity | exact Hx |].
    cbn [original_line test_name abbreviation value name_given].
    exists (name_of_match m), sep, v, tail.
    split; [exact E|]. split; [reflexivity|].
    rewrite Hg2. cbn [defined]. tauto.
Qed.

Lemma value_never_negative_witness :
  exists p sep v tail,
    components (parseText initial_parseSettings (str "Base Excess - 2.5 mmol/L")) = [p]
    /\ test_name p = str "Base Excess -"
    /\ value p = decimal 25 (-1)
    /\ num_le c0 (value p) = true
    /\ original_line p = test_name p ++ sep ++ v ++ tail
    /\ ~ In 45 (sep ++ v).
Proof.
  pose (p := match components (parseText initial_parseSettings
                                         (str "Base Excess - 2.5 mmol/L")) with
             | p :: _ => p
             | [] => initial_record [] [] c0 []
             end).
  assert (Ea : abbreviation p = None) by (vm_compute; reflexivity).
  destruct (value_never_negative initial_parseSettings (str "Base Excess - 2.5 mmol/L") p
              ltac:(vm_compute; left; reflexivity))
    as (Hle & (name & sep & v & tail & Ho & Hn & _ & _ & _ & _ & Hm & _) & _).
  rewrite Ea in Hn. cbn [name_given] in Hn. rewrite <- Hn in Ho.
  exists p, sep, v, tail.
  split; [vm_compute; reflexivity|].
  split; [vm_compute; reflexivity|].
  split; [vm_compute; reflexivity|].
  split; [exact Hle|]. split; [exact Ho | exact Hm].
Defined.

(** C10 as stated fails on its example: "Base Excess -2.5 mmol/L" is not
    returned with a positive value.  In no pattern nor in the fallback can
    the text of the value directly follow a minus sign; the line yields no
    record and is counted as failed. *)
Lemma attached_minus_sign_fails_the_line :
  parseText initial_parseSettings (str "Base Excess -2.5 mmol/L")
  = {| components := []; failedLineCount := 1 |}.
Proof. vm_compute. reflexivity. Qed.

(** With the sign attached to an earlier number, a later one is read: the
    signed number stays in the name. *)
Example attached_sign_then_number :
  exists p,
    components (parseText initial_parseSettings (str "Loss,-1,250,mL")) = [p]
    /\ test_name p = str "Loss,-1"
    /\ value p = decimal 250 0.
Proof.
  eexists. split; [vm_compute; reflexivity|].
  split; vm_compute; reflexivity.
Qed.
